(** * Giftsity corporate server: order lifecycle and payment reconciliation

    A shallow embedding of the request handlers of [routes/orders.js] and
    [routes/quotes.js] (order assembly, payment verification, cancellation
    with refund, quote approval and rejection) over an explicit model of the
    MongoDB collections they read and write.

    Conventions of the embedding.
    - JavaScript numbers that carry prices, quantities, stock levels and clock
      readings are integers ([Z]).
    - A field that may be [null] or [undefined] is an [option]; a string that
      may be missing and is only ever tested for truthiness is a [string]
      whose empty value stands for the missing one.
    - Status fields are the strings the source compares them with.
    - A collection queried by [_id] only is a finite map ([products]); a
      collection that is scanned, appended to and updated in place is a list
      whose positions are the document identifiers ([orders], [quotes]).
    - A handler is a computation in a state monad with early exit: the
      response produced by [return res.status(..).json(..)] or by the
      [catch] block aborts the handler, and the database keeps every write
      made before the exit (nothing is rolled back).
    - Everything the handlers obtain from outside (the clock, the random
      draw of the order number, the answers of the payment gateway) is a
      field of the environment [Env]. Persistence calls themselves are
      total.
    - The authentication, validation and sanitising middleware runs before a
      handler and lives outside these sources: a handler is modelled on
      every request of the right shape, for a user that passed
      [requireCorporateAuth] and [requireActiveStatus]. Audit logging and
      the confirmation e-mail write nothing the handlers read and are left
      out. *)

From stdpp Require Import base numbers strings pretty list gmap fin_maps.

Local Open Scope Z_scope.

(** ** JavaScript helpers *)

(** [a || b] on a nullable number: [null], [undefined] and [0] are falsy. *)
Definition orNumber (a : option Z) (b : Z) : Z :=
  match a with
  | Some x => if decide (x = 0) then b else x
  | None => b
  end.

(** [a || b] on strings: the empty string is falsy. *)
Definition orString (a b : string) : string :=
  if decide (a = "") then b else a.

(** [a || b] on nullable objects. *)
Definition orElse {A} (a b : option A) : option A :=
  match a with
  | Some x => Some x
  | None => b
  end.

Definition isDigit (c : Ascii.ascii) : bool :=
  let n := Ascii.nat_of_ascii c in (48 <=? n)%nat && (n <=? 57)%nat.

Fixpoint stripNonDigits (s : string) : string :=
  match s with
  | EmptyString => EmptyString
  | String c s' =>
      if isDigit c then String c (stripNonDigits s') else stripNonDigits s'
  end.

(** [normalizePhone]: keep the digits; the last ten of them when there are at
    least ten, the placeholder number otherwise. *)
Definition normalizePhone (phone : string) : string :=
  let digits := stripNonDigits (orString phone "") in
  let n := String.length digits in
  if (10 <=? n)%nat then String.substring (n - 10) 10 digits else "9999999999".

(** [generateOrderNumber]: [date] is the [yyyymmdd] rendering of the current
    day and [rand] the zero-padded four-digit rendering of the random draw. *)
Definition generateOrderNumber (date rand : string) : string :=
  "GFT-B2B-" +:+ date +:+ "-" +:+ rand.

(** ** Data model *)

Record Address := {
  addr_line : string;
  addr_phone : string;
  addr_isDefault : bool
}.

Record CorporateUser := {
  cu_id : string;
  cu_email : string;
  cu_phone : string;
  cu_companyName : string;
  cu_shippingAddresses : list Address
}.

Record Product := {
  p_title : string;
  p_image : string;       (* images[0]?.url || '' *)
  p_sku : string;         (* sku || '' *)
  p_sellerId : string;    (* sellerId.toString() *)
  p_isActive : bool;
  p_price : Z;
  p_stock : Z;
  p_orderCount : Z
}.

Record CatalogEntry := {
  ce_productId : string;
  ce_isActive : bool;
  ce_corporatePrice : option Z;
  ce_minOrderQty : Z;
  ce_maxOrderQty : Z
}.

Record OrderItem := {
  oi_productId : string;
  oi_title : string;
  oi_price : Z;
  oi_image : string;
  oi_sku : string;
  oi_quantity : Z;
  oi_sellerId : option string
}.

Record Order := {
  o_orderNumber : string;
  o_orderType : string;
  o_customerEmail : string;
  o_customerPhone : string;
  o_sellerId : option string;
  o_items : list OrderItem;
  o_shippingAddress : Address;
  o_itemTotal : Z;
  o_shippingCost : Z;
  o_totalAmount : Z;
  o_commissionRate : Z;
  o_commissionAmount : Z;
  o_paymentGatewayFee : Z;
  o_sellerAmount : Z;
  o_notes : string;
  o_status : string;
  o_paymentStatus : string;
  o_cashfreeOrderId : option string;
  o_paymentSessionId : option string;
  o_cashfreePaymentId : option string;
  o_paidAt : option Z;
  o_cancelledAt : option Z;
  o_cancelReason : option string;
  o_refundId : option string
}.

Record QuoteItem := {
  qi_productId : string;
  qi_title : string;
  qi_unitPrice : Z;
  qi_image : string;
  qi_quantity : Z
}.

Record Quote := {
  q_quoteNumber : string;
  q_companyName : string;
  q_corporateUserId : option string;
  q_contactEmail : string;
  q_status : string;
  q_validUntil : option Z;
  q_items : list QuoteItem;
  q_totalAmount : Z;
  q_finalAmount : Z;
  q_convertedOrderId : option nat;
  q_clientNotes : string
}.

(** Modelled from the spec: the [Order] schema lives in the shared server
    package, outside these sources; the handlers never assign [status] or
    [paymentStatus] when they build an order, so a fresh order carries the
    schema defaults, which the specification gives as [pending] and
    [unpaid]. *)
Definition defaultStatus : string := "pending".
Definition defaultPaymentStatus : string := "unpaid".

(** The collections. *)
Record Db := {
  products : gmap string Product;
  catalog : list CatalogEntry;
  orders : list Order;
  quotes : list Quote
}.

Definition setProducts (ps : gmap string Product) (db : Db) : Db :=
  {| products := ps; catalog := catalog db; orders := orders db;
     quotes := quotes db |}.

Definition setOrders (os : list Order) (db : Db) : Db :=
  {| products := products db; catalog := catalog db; orders := os;
     quotes := quotes db |}.

Definition setQuotes (qs : list Quote) (db : Db) : Db :=
  {| products := products db; catalog := catalog db; orders := orders db;
     quotes := qs |}.

(** ** MongoDB operations on products *)

(** [$inc: { stock: ds, orderCount: dc }] *)
Definition incStockOrderCount (ds dc : Z) (p : Product) : Product :=
  {| p_title := p_title p; p_image := p_image p; p_sku := p_sku p;
     p_sellerId := p_sellerId p; p_isActive := p_isActive p;
     p_price := p_price p;
     p_stock := p_stock p + ds;
     p_orderCount := p_orderCount p + dc |}.

(** [Product.findOneAndUpdate({ _id: id, ..cond }, upd)]: the update applies
    to the document with that identifier when it exists and satisfies the
    remaining conditions of the filter; otherwise nothing is written. *)
Definition findOneAndUpdate (id : string) (cond : Product → bool)
    (upd : Product → Product) (ps : gmap string Product) : gmap string Product :=
  match ps !! id with
  | Some p => if cond p then <[id := upd p]> ps else ps
  | None => ps
  end.

(** [Product.findByIdAndUpdate(id, upd)] *)
Definition findByIdAndUpdate (id : string) (upd : Product → Product)
    (ps : gmap string Product) : gmap string Product :=
  findOneAndUpdate id (λ _, true) upd ps.

(** The conditional decrement of payment verification, for one line item:
    filter [{ _id: item.productId, stock: { $gte: item.quantity } }], update
    [{ $inc: { stock: -item.quantity, orderCount: item.quantity } }]. *)
Definition decrementStock (item : OrderItem) (ps : gmap string Product)
    : gmap string Product :=
  findOneAndUpdate (oi_productId item)
    (λ p, bool_decide (oi_quantity item ≤ p_stock p))
    (incStockOrderCount (- oi_quantity item) (oi_quantity item)) ps.

(** The restore of cancellation, for one line item:
    [{ $inc: { stock: item.quantity, orderCount: -item.quantity } }]. *)
Definition restoreStock (item : OrderItem) (ps : gmap string Product)
    : gmap string Product :=
  findByIdAndUpdate (oi_productId item)
    (incStockOrderCount (oi_quantity item) (- oi_quantity item)) ps.

(** [for (const item of order.items) await Product.findOneAndUpdate(..)] *)
Definition decrementStockAll (items : list OrderItem) (ps : gmap string Product)
    : gmap string Product :=
  foldl (λ acc item, decrementStock item acc) ps items.

(** [for (const item of order.items) await Product.findByIdAndUpdate(..)] *)
Definition restoreStockAll (items : list OrderItem) (ps : gmap string Product)
    : gmap string Product :=
  foldl (λ acc item, restoreStock item acc) ps items.

(** ** Requests, responses and the environment *)

Record CartItem := {
  ci_productId : string;
  ci_quantity : Z
}.

(** The message of a failure response, with the values the source
    interpolates into it. *)
Inductive Message :=
  | NoItems                               (* 'No items' *)
  | ShippingAddressRequired               (* 'Shipping address required' *)
  | NotInCatalog (productId : string)     (* 'Product .. is not in the corporate catalog' *)
  | MinimumOrderQuantity (minOrderQty : Z) (* 'Minimum order quantity for this product is ..' *)
  | MaximumOrderQuantity (maxOrderQty : Z) (* 'Maximum order quantity for this product is ..' *)
  | ProductUnavailable (productId : string) (* 'Product ".." is unavailable' *)
  | FailedToCreateOrder                   (* 'Failed to create order' *)
  | OrderIdRequired                       (* 'orderId required' *)
  | PaymentNotCompleted (status : string) (* 'Payment not completed. Status: ..' *)
  | NoMatchingOrders                      (* 'No matching orders found' *)
  | VerificationFailed                    (* 'Verification failed' *)
  | OrderNotFound                         (* 'Order not found' *)
  | CannotCancel (status : string)        (* 'Cannot cancel order with status ".."' *)
  | FailedToCancelOrder                   (* 'Failed to cancel order' *)
  | QuoteNotFoundOrNotSent                (* 'Quote not found or not in "sent" status' *)
  | QuoteExpired                          (* 'This quote has expired. Please request a new one.' *)
  | FailedToProcessQuote                  (* 'Failed to process quote' *)
  | QuoteNotFound.                        (* 'Quote not found' *)

Record CashfreeOrderInfo := {
  info_orderId : string;
  info_paymentSessionId : string;
  info_orderAmount : Z
}.

Inductive Response :=
  | Fail (status : nat) (message : Message)
  | OrderCreated (created : list Order) (cashfreeOrder : CashfreeOrderInfo) (* 201 *)
  | PaymentVerified (verified : list Order)
  | OrderCancelled (order : Order)
  | QuoteApproved (order : Order) (cashfreeOrder : CashfreeOrderInfo)
  | QuoteRejected (quote : Quote).

(** The argument of [createCashfreeOrder]. *)
Record CashfreeOrderRequest := {
  req_orderId : string;
  req_orderAmount : Z;
  req_customerId : string;
  req_email : string;
  req_phone : string;
  req_name : string;
  req_returnUrl : string
}.

(** One entry of the list [getCashfreePayments] returns. *)
Record Payment := {
  payment_status : string;
  cf_payment_id : option string
}.

(** The argument of [createRefund]. *)
Record RefundRequest := {
  refund_orderId : option string;
  refund_amount : Z;
  refund_refundId : string
}.

(** What a request obtains from outside the process. A gateway call that
    throws answers [None] ([false] for [createRefund], whose result the
    source discards). The clock is read once per request: every [new Date()]
    and [Date.now()] of a handler sees [now]. *)
Record Env := {
  now : Z;                                 (* new Date(), Date.now() *)
  today : string;                          (* yyyymmdd of new Date() *)
  random4 : nat → string;                  (* the successive padded random draws *)
  clientUrl : string;                      (* first origin of CLIENT_URL, or the default *)
  createCashfreeOrder : CashfreeOrderRequest → option string; (* payment_session_id *)
  getCashfreeOrder : string → option string;                  (* order_status *)
  getCashfreePayments : string → option (list Payment);
  createRefund : RefundRequest → bool
}.

(** ** The handler monad *)

Definition M (A : Type) : Type := Db → (Response + A) * Db.

Definition ret {A} (a : A) : M A := λ db, (inr a, db).

Definition bind {A B} (m : M A) (k : A → M B) : M B := λ db,
  match m db with
  | (inl r, db') => (inl r, db')
  | (inr a, db') => k a db'
  end.

(** [return res.status(..).json(..)], and the response of a [catch] block. *)
Definition exit {A} (r : Response) : M A := λ db, (inl r, db).

Definition gets {A} (f : Db → A) : M A := λ db, (inr (f db), db).

Definition modify (f : Db → Db) : M unit := λ db, (inr tt, f db).

Notation "'let*' x := m 'in' k" := (bind m (λ x, k))
  (at level 10, x name, m at level 100, k at level 200, only parsing).
Notation "m >> k" := (bind m (λ _, k))
  (at level 100, k at level 200, right associativity, only parsing).

Fixpoint mapM {A B} (f : A → M B) (l : list A) : M (list B) :=
  match l with
  | [] => ret []
  | x :: l' => let* y := f x in let* ys := mapM f l' in ret (y :: ys)
  end.

Fixpoint foldM {A B} (f : B → A → M B) (b : B) (l : list A) : M B :=
  match l with
  | [] => ret b
  | x :: l' => let* b' := f b x in foldM f b' l'
  end.

(** The response a handler sends and the database it leaves. *)
Definition run (h : M Response) (db : Db) : Response * Db :=
  match h db with
  | (inl r, db') => (r, db')
  | (inr r, db') => (r, db')
  end.

(** [await order.save()] of a document built with [new Order(..)]: the
    document is appended and its position is its identifier. *)
Definition insertOrder (o : Order) : M nat := λ db,
  (inr (length (orders db)), setOrders (orders db ++ [o]) db).

(** [await order.save()] of a document loaded from the collection. *)
Definition saveOrder (id : nat) (o : Order) : M unit :=
  modify (λ db, setOrders (<[id := o]> (orders db)) db).

Definition saveQuote (id : nat) (q : Quote) : M unit :=
  modify (λ db, setQuotes (<[id := q]> (quotes db)) db).

Definition updateProducts (f : gmap string Product → gmap string Product) : M unit :=
  modify (λ db, setProducts (f (products db)) db).

(** ** Order assembly: [POST /api/corporate/orders] *)

(** An element of a [sellerGroups] array:
    [{ product, quantity, unitPrice, catalogEntry }]; [gi_productId] is
    [product._id], the identifier [Product.findById] was called with. *)
Record GroupItem := {
  gi_productId : string;
  gi_product : Product;
  gi_quantity : Z;
  gi_unitPrice : Z;
  gi_catalogEntry : CatalogEntry
}.

(** [if (!sellerGroups[sid]) sellerGroups[sid] = []; sellerGroups[sid].push(x)].
    The object is kept as the list of its entries in the order
    [Object.entries] enumerates them, which for seller identifiers (renderings
    of ObjectIds, never array indices) is the order of first insertion. *)
Fixpoint groupPush (sid : string) (x : GroupItem)
    (sellerGroups : list (string * list GroupItem)) : list (string * list GroupItem) :=
  match sellerGroups with
  | [] => [(sid, [x])]
  | (k, xs) :: rest =>
      if decide (k = sid) then (k, xs ++ [x]) :: rest
      else (k, xs) :: groupPush sid x rest
  end.

(** [CorporateCatalog.findOne({ productId, isActive: true })] *)
Definition findCatalogEntry (productId : string) (db : Db) : option CatalogEntry :=
  List.find (λ e, bool_decide (ce_productId e = productId) && ce_isActive e)
    (catalog db).

(** The body of the validation loop, for one item of the request. *)
Definition validateItem (sellerGroups : list (string * list GroupItem))
    (item : CartItem) : M (list (string * list GroupItem)) :=
  let* found := gets (findCatalogEntry (ci_productId item)) in
  match found with
  | None => exit (Fail 400 (NotInCatalog (ci_productId item)))
  | Some catalogEntry =>
      if bool_decide (ci_quantity item < ce_minOrderQty catalogEntry) then
        exit (Fail 400 (MinimumOrderQuantity (ce_minOrderQty catalogEntry)))
      else if bool_decide (ci_quantity item > ce_maxOrderQty catalogEntry) then
        exit (Fail 400 (MaximumOrderQuantity (ce_maxOrderQty catalogEntry)))
      else
        let* looked := gets (λ db, products db !! ci_productId item) in
        match looked with
        | None => exit (Fail 400 (ProductUnavailable (ci_productId item)))
        | Some product =>
            if negb (p_isActive product) then
              exit (Fail 400 (ProductUnavailable (ci_productId item)))
            else
              (* Use corporate price if set, otherwise regular price *)
              let unitPrice :=
                orNumber (ce_corporatePrice catalogEntry) (p_price product) in
              let sid := p_sellerId product in
              ret (groupPush sid
                     {| gi_productId := ci_productId item;
                        gi_product := product;
                        gi_quantity := ci_quantity item;
                        gi_unitPrice := unitPrice;
                        gi_catalogEntry := catalogEntry |}
                     sellerGroups)
        end
  end.

(** [sellerItems.reduce((sum, i) => sum + i.unitPrice * i.quantity, 0)] *)
Definition groupTotal (sellerItems : list GroupItem) : Z :=
  foldl (λ sum i, sum + gi_unitPrice i * gi_quantity i) 0 sellerItems.

Definition orderItemOf (sellerId : string) (i : GroupItem) : OrderItem :=
  {| oi_productId := gi_productId i;
     oi_title := p_title (gi_product i);
     oi_price := gi_unitPrice i;
     oi_image := p_image (gi_product i);
     oi_sku := p_sku (gi_product i);
     oi_quantity := gi_quantity i;
     oi_sellerId := Some sellerId |}.

(** [new Order({ .. })] of order assembly. *)
Definition newOrder (orderNumber : string) (corpUser : CorporateUser)
    (shippingAddress : Address) (sellerId : string)
    (sellerItems : list GroupItem) : Order :=
  let itemTotal := groupTotal sellerItems in
  {| o_orderNumber := orderNumber;
     o_orderType := "b2b_direct";
     o_customerEmail := cu_email corpUser;
     o_customerPhone := orString (cu_phone corpUser) (addr_phone shippingAddress);
     o_sellerId := Some sellerId;
     o_items := orderItemOf sellerId <$> sellerItems;
     o_shippingAddress := shippingAddress;
     o_itemTotal := itemTotal;
     o_shippingCost := 0;
     o_totalAmount := itemTotal;
     o_commissionRate := 0;
     o_commissionAmount := 0;
     o_paymentGatewayFee := 0;
     o_sellerAmount := itemTotal;
     o_notes := "Corporate order by " +:+ cu_companyName corpUser +:+ " ("
                  +:+ cu_email corpUser +:+ ")";
     o_status := defaultStatus;
     o_paymentStatus := defaultPaymentStatus;
     o_cashfreeOrderId := None;
     o_paymentSessionId := None;
     o_cashfreePaymentId := None;
     o_paidAt := None;
     o_cancelledAt := None;
     o_cancelReason := None;
     o_refundId := None |}.

(** [order.cashfreeOrderId = ..; order.paymentSessionId = ..] *)
Definition withSession (cfOrderId session : string) (o : Order) : Order :=
  {| o_orderNumber := o_orderNumber o; o_orderType := o_orderType o;
     o_customerEmail := o_customerEmail o; o_customerPhone := o_customerPhone o;
     o_sellerId := o_sellerId o; o_items := o_items o;
     o_shippingAddress := o_shippingAddress o; o_itemTotal := o_itemTotal o;
     o_shippingCost := o_shippingCost o; o_totalAmount := o_totalAmount o;
     o_commissionRate := o_commissionRate o;
     o_commissionAmount := o_commissionAmount o;
     o_paymentGatewayFee := o_paymentGatewayFee o;
     o_sellerAmount := o_sellerAmount o; o_notes := o_notes o;
     o_status := o_status o; o_paymentStatus := o_paymentStatus o;
     o_cashfreeOrderId := Some cfOrderId;
     o_paymentSessionId := Some session;
     o_cashfreePaymentId := o_cashfreePaymentId o; o_paidAt := o_paidAt o;
     o_cancelledAt := o_cancelledAt o; o_cancelReason := o_cancelReason o;
     o_refundId := o_refundId o |}.

(** The loop that creates one order per entry of [sellerGroups]; [k] counts
    the calls of [generateOrderNumber] made so far. The result pairs every
    document with its identifier. *)
Fixpoint createOrders (env : Env) (corpUser : CorporateUser)
    (shippingAddress : Address) (k : nat)
    (sellerGroups : list (string * list GroupItem)) : M (list (nat * Order)) :=
  match sellerGroups with
  | [] => ret []
  | (sellerId, sellerItems) :: rest =>
      let order :=
        newOrder (generateOrderNumber (today env) (random4 env k))
          corpUser shippingAddress sellerId sellerItems in
      let* id := insertOrder order in
      let* more := createOrders env corpUser shippingAddress (S k) rest in
      ret ((id, order) :: more)
  end.

(** [orders.reduce((s, o) => s + o.totalAmount, 0)] *)
Definition grandTotalOf (os : list Order) : Z :=
  foldl (λ s o, s + o_totalAmount o) 0 os.

Definition sessionRequest (env : Env) (corpUser : CorporateUser)
    (phone : string) (orderId : string) (amount : Z) : CashfreeOrderRequest :=
  {| req_orderId := orderId;
     req_orderAmount := amount;
     req_customerId := cu_id corpUser;
     req_email := cu_email corpUser;
     req_phone := normalizePhone phone;
     req_name := cu_companyName corpUser;
     req_returnUrl := clientUrl env +:+ "/corporate/orders?cf_id=" +:+ orderId |}.

Definition attachSession (cfOrderId session : string) (entry : nat * Order)
    : M (nat * Order) :=
  let order := withSession cfOrderId session entry.2 in
  saveOrder entry.1 order >> ret (entry.1, order).

Definition createOrder (env : Env) (corpUser : CorporateUser)
    (items : list CartItem) (shippingAddress : option Address) : M Response :=
  match items with
  | [] => exit (Fail 400 NoItems)
  | _ :: _ =>
  match shippingAddress with
  | None => exit (Fail 400 ShippingAddressRequired)
  | Some address =>
      (* Validate items against corporate catalog *)
      let* sellerGroups := foldM validateItem [] items in
      (* Create orders grouped by seller *)
      let* saved := createOrders env corpUser address 0 sellerGroups in
      (* Create Cashfree payment *)
      let grandTotal := grandTotalOf saved.*2 in
      match saved with
      | [] => exit (Fail 500 FailedToCreateOrder)   (* orders[0] is undefined *)
      | first :: _ =>
          let cfOrderId := o_orderNumber first.2 in
          match createCashfreeOrder env
                  (sessionRequest env corpUser
                     (orString (cu_phone corpUser) (addr_phone address))
                     cfOrderId grandTotal) with
          | None => exit (Fail 500 FailedToCreateOrder)
          | Some session =>
              let* final := mapM (attachSession cfOrderId session) saved in
              ret (OrderCreated final.*2
                     {| info_orderId := cfOrderId;
                        info_paymentSessionId := session;
                        info_orderAmount := grandTotal |})
          end
      end
  end
  end.

(** ** Payment reconciliation: [POST /api/corporate/orders/verify-payment] *)

(** [order.paymentStatus = 'paid'; order.status = 'confirmed';
     order.cashfreePaymentId = ..; order.paidAt = new Date()] *)
Definition markPaid (paymentId : string) (at_ : Z) (o : Order) : Order :=
  {| o_orderNumber := o_orderNumber o; o_orderType := o_orderType o;
     o_customerEmail := o_customerEmail o; o_customerPhone := o_customerPhone o;
     o_sellerId := o_sellerId o; o_items := o_items o;
     o_shippingAddress := o_shippingAddress o; o_itemTotal := o_itemTotal o;
     o_shippingCost := o_shippingCost o; o_totalAmount := o_totalAmount o;
     o_commissionRate := o_commissionRate o;
     o_commissionAmount := o_commissionAmount o;
     o_paymentGatewayFee := o_paymentGatewayFee o;
     o_sellerAmount := o_sellerAmount o; o_notes := o_notes o;
     o_status := "confirmed";
     o_paymentStatus := "paid";
     o_cashfreeOrderId := o_cashfreeOrderId o;
     o_paymentSessionId := o_paymentSessionId o;
     o_cashfreePaymentId := Some paymentId;
     o_paidAt := Some at_;
     o_cancelledAt := o_cancelledAt o; o_cancelReason := o_cancelReason o;
     o_refundId := o_refundId o |}.

(** [Order.find({ cashfreeOrderId: orderId, customerEmail: email })], every
    document with its identifier, in collection order. *)
Definition findOrders (orderId email : string) (db : Db) : list (nat * Order) :=
  List.filter
    (λ e, bool_decide (o_cashfreeOrderId e.2 = Some orderId)
          && bool_decide (o_customerEmail e.2 = email))
    (imap (λ i o, (i, o)) (orders db)).

(** [successPayment?.cf_payment_id?.toString() || ''] *)
Definition paymentReference (successPayment : option Payment) : string :=
  match successPayment with
  | Some p => match cf_payment_id p with Some s => orString s "" | None => "" end
  | None => ""
  end.

(** The body of the loop over the matching orders. *)
Definition confirmOrder (env : Env) (successPayment : option Payment)
    (entry : nat * Order) : M (nat * Order) :=
  if decide (o_paymentStatus entry.2 = "paid") then ret entry   (* continue *)
  else
    let order := markPaid (paymentReference successPayment) (now env) entry.2 in
    saveOrder entry.1 order >>
    (* Atomic stock decrement *)
    updateProducts (decrementStockAll (o_items order)) >>
    ret (entry.1, order).

Definition verifyPayment (env : Env) (corpUser : CorporateUser)
    (orderId : string) : M Response :=
  if decide (orderId = "") then exit (Fail 400 OrderIdRequired)
  else
    match getCashfreeOrder env orderId with
    | None => exit (Fail 500 VerificationFailed)
    | Some order_status =>
        if decide (order_status ≠ "PAID") then
          exit (Fail 400 (PaymentNotCompleted order_status))
        else
          match getCashfreePayments env orderId with
          | None => exit (Fail 500 VerificationFailed)
          | Some payments =>
              let successPayment :=
                List.find (λ p, bool_decide (payment_status p = "SUCCESS"))
                  payments in
              let* found := gets (findOrders orderId (cu_email corpUser)) in
              match found with
              | [] => exit (Fail 404 NoMatchingOrders)
              | _ :: _ =>
                  let* done_ := mapM (confirmOrder env successPayment) found in
                  ret (PaymentVerified done_.*2)
              end
          end
    end.

(** ** Cancellation and refund: [POST /api/corporate/orders/:id/cancel] *)

(** [order.status = 'cancelled'; order.cancelledAt = new Date();
     order.cancelReason = ..] *)
Definition markCancelled (at_ : Z) (reason : string) (o : Order) : Order :=
  {| o_orderNumber := o_orderNumber o; o_orderType := o_orderType o;
     o_customerEmail := o_customerEmail o; o_customerPhone := o_customerPhone o;
     o_sellerId := o_sellerId o; o_items := o_items o;
     o_shippingAddress := o_shippingAddress o; o_itemTotal := o_itemTotal o;
     o_shippingCost := o_shippingCost o; o_totalAmount := o_totalAmount o;
     o_commissionRate := o_commissionRate o;
     o_commissionAmount := o_commissionAmount o;
     o_paymentGatewayFee := o_paymentGatewayFee o;
     o_sellerAmount := o_sellerAmount o; o_notes := o_notes o;
     o_status := "cancelled";
     o_paymentStatus := o_paymentStatus o;
     o_cashfreeOrderId := o_cashfreeOrderId o;
     o_paymentSessionId := o_paymentSessionId o;
     o_cashfreePaymentId := o_cashfreePaymentId o; o_paidAt := o_paidAt o;
     o_cancelledAt := Some at_;
     o_cancelReason := Some reason;
     o_refundId := o_refundId o |}.

(** [order.paymentStatus = ..], and [order.refundId = ..] when given. *)
Definition withRefund (paymentStatus : string) (refundId : option string)
    (o : Order) : Order :=
  {| o_orderNumber := o_orderNumber o; o_orderType := o_orderType o;
     o_customerEmail := o_customerEmail o; o_customerPhone := o_customerPhone o;
     o_sellerId := o_sellerId o; o_items := o_items o;
     o_shippingAddress := o_shippingAddress o; o_itemTotal := o_itemTotal o;
     o_shippingCost := o_shippingCost o; o_totalAmount := o_totalAmount o;
     o_commissionRate := o_commissionRate o;
     o_commissionAmount := o_commissionAmount o;
     o_paymentGatewayFee := o_paymentGatewayFee o;
     o_sellerAmount := o_sellerAmount o; o_notes := o_notes o;
     o_status := o_status o;
     o_paymentStatus := paymentStatus;
     o_cashfreeOrderId := o_cashfreeOrderId o;
     o_paymentSessionId := o_paymentSessionId o;
     o_cashfreePaymentId := o_cashfreePaymentId o; o_paidAt := o_paidAt o;
     o_cancelledAt := o_cancelledAt o; o_cancelReason := o_cancelReason o;
     o_refundId := orElse refundId (o_refundId o) |}.

(** [`refund_${order.orderNumber}_${Date.now()}`] *)
Definition refundIdOf (env : Env) (o : Order) : string :=
  "refund_" +:+ o_orderNumber o +:+ "_" +:+ pretty (now env).

(** The [try { createRefund .. } catch { .. }] block. *)
Definition refundOrder (env : Env) (order : Order) : Order :=
  let refundId := refundIdOf env order in
  if createRefund env
       {| refund_orderId := o_cashfreeOrderId order;
          refund_amount := o_totalAmount order;
          refund_refundId := refundId |}
  then withRefund "refunded" (Some refundId) order
  else withRefund "refund_pending" None order.

(** [Order.findOne({ _id: id, customerEmail: email })] *)
Definition findOrder (id : nat) (email : string) (db : Db) : option Order :=
  match orders db !! id with
  | Some o => if decide (o_customerEmail o = email) then Some o else None
  | None => None
  end.

Definition cancelOrder (env : Env) (corpUser : CorporateUser)
    (id : nat) (reason : string) : M Response :=
  let* found := gets (findOrder id (cu_email corpUser)) in
  match found with
  | None => exit (Fail 404 OrderNotFound)
  | Some order0 =>
      if negb (bool_decide (o_status order0 ∈ ["pending"; "confirmed"])) then
        exit (Fail 400 (CannotCancel (o_status order0)))
      else
        let order1 :=
          markCancelled (now env)
            (orString reason "Cancelled by corporate client") order0 in
        saveOrder id order1 >>
        if decide (o_paymentStatus order1 = "paid") then
          updateProducts (restoreStockAll (o_items order1)) >>
          let order2 := refundOrder env order1 in
          saveOrder id order2 >>
          ret (OrderCancelled order2)
        else
          ret (OrderCancelled order1)
  end.

(** ** Quote conversion: [POST /api/corporate/quotes/:id/approve] and
    [POST /api/corporate/quotes/:id/reject] *)

Definition withQuoteStatus (status : string) (q : Quote) : Quote :=
  {| q_quoteNumber := q_quoteNumber q; q_companyName := q_companyName q;
     q_corporateUserId := q_corporateUserId q;
     q_contactEmail := q_contactEmail q;
     q_status := status;
     q_validUntil := q_validUntil q; q_items := q_items q;
     q_totalAmount := q_totalAmount q; q_finalAmount := q_finalAmount q;
     q_convertedOrderId := q_convertedOrderId q;
     q_clientNotes := q_clientNotes q |}.

(** [quote.status = 'approved'; quote.convertedOrderId = order._id] *)
Definition markApproved (orderId : nat) (q : Quote) : Quote :=
  {| q_quoteNumber := q_quoteNumber q; q_companyName := q_companyName q;
     q_corporateUserId := q_corporateUserId q;
     q_contactEmail := q_contactEmail q;
     q_status := "approved";
     q_validUntil := q_validUntil q; q_items := q_items q;
     q_totalAmount := q_totalAmount q; q_finalAmount := q_finalAmount q;
     q_convertedOrderId := Some orderId;
     q_clientNotes := q_clientNotes q |}.

(** [quote.status = 'rejected'; quote.clientNotes = req.body.reason || ''] *)
Definition markRejected (reason : string) (q : Quote) : Quote :=
  {| q_quoteNumber := q_quoteNumber q; q_companyName := q_companyName q;
     q_corporateUserId := q_corporateUserId q;
     q_contactEmail := q_contactEmail q;
     q_status := "rejected";
     q_validUntil := q_validUntil q; q_items := q_items q;
     q_totalAmount := q_totalAmount q; q_finalAmount := q_finalAmount q;
     q_convertedOrderId := q_convertedOrderId q;
     q_clientNotes := orString reason "" |}.

(** [CorporateQuote.findOne({ _id: id,
      $or: [{ corporateUserId: user._id }, { contactEmail: user.email }],
      status: 'sent' })] *)
Definition findSentQuote (id : nat) (corpUser : CorporateUser) (db : Db)
    : option Quote :=
  match quotes db !! id with
  | Some q =>
      if (bool_decide (q_corporateUserId q = Some (cu_id corpUser))
          || bool_decide (q_contactEmail q = cu_email corpUser))
         && bool_decide (q_status q = "sent")
      then Some q else None
  | None => None
  end.

(** [quote.validUntil && new Date() > quote.validUntil] *)
Definition deadlinePassed (env : Env) (q : Quote) : bool :=
  match q_validUntil q with
  | Some validUntil => bool_decide (now env > validUntil)
  | None => false
  end.

(** [shippingAddress || shippingAddresses?.find(a => a.isDefault)
      || shippingAddresses?.[0]] *)
Definition resolveAddress (shippingAddress : option Address)
    (corpUser : CorporateUser) : option Address :=
  orElse shippingAddress
    (orElse (List.find addr_isDefault (cu_shippingAddresses corpUser))
            (head (cu_shippingAddresses corpUser))).

Definition orderItemOfQuote (i : QuoteItem) : OrderItem :=
  {| oi_productId := qi_productId i;
     oi_title := qi_title i;
     oi_price := qi_unitPrice i;
     oi_image := qi_image i;
     oi_sku := "";
     oi_quantity := qi_quantity i;
     oi_sellerId := None |}.

(** [new Order({ .. })] of quote approval. *)
Definition newOrderOfQuote (orderNumber : string) (corpUser : CorporateUser)
    (address : Address) (quote : Quote) : Order :=
  {| o_orderNumber := orderNumber;
     o_orderType := "b2b_direct";
     o_customerEmail := cu_email corpUser;
     o_customerPhone := orString (cu_phone corpUser) (addr_phone address);
     o_sellerId := None;
     o_items := orderItemOfQuote <$> q_items quote;
     o_shippingAddress := address;
     o_itemTotal := q_totalAmount quote;
     o_shippingCost := 0;
     o_totalAmount := q_finalAmount quote;
     o_commissionRate := 0;
     o_commissionAmount := 0;
     o_paymentGatewayFee := 0;
     o_sellerAmount := q_finalAmount quote;
     o_notes := "Created from quote " +:+ q_quoteNumber quote +:+ " for "
                  +:+ q_companyName quote;
     o_status := defaultStatus;
     o_paymentStatus := defaultPaymentStatus;
     o_cashfreeOrderId := None;
     o_paymentSessionId := None;
     o_cashfreePaymentId := None;
     o_paidAt := None;
     o_cancelledAt := None;
     o_cancelReason := None;
     o_refundId := None |}.

Definition approveQuote (env : Env) (corpUser : CorporateUser)
    (id : nat) (shippingAddress : option Address) : M Response :=
  let* found := gets (findSentQuote id corpUser) in
  match found with
  | None => exit (Fail 404 QuoteNotFoundOrNotSent)
  | Some quote =>
      (* Check expiry *)
      if deadlinePassed env quote then
        saveQuote id (withQuoteStatus "expired" quote) >>
        exit (Fail 400 QuoteExpired)
      else
        match resolveAddress shippingAddress corpUser with
        | None => exit (Fail 400 ShippingAddressRequired)
        | Some address =>
            (* Create order from quote *)
            let orderNumber := generateOrderNumber (today env) (random4 env 0) in
            let order := newOrderOfQuote orderNumber corpUser address quote in
            let* orderId := insertOrder order in
            (* Create Cashfree payment *)
            match createCashfreeOrder env
                    (sessionRequest env corpUser
                       (orString (cu_phone corpUser) (addr_phone address))
                       orderNumber (q_finalAmount quote)) with
            | None => exit (Fail 500 FailedToProcessQuote)
            | Some session =>
                let order' := withSession orderNumber session order in
                saveOrder orderId order' >>
                (* Update quote status *)
                saveQuote id (markApproved orderId quote) >>
                ret (QuoteApproved order'
                       {| info_orderId := orderNumber;
                          info_paymentSessionId := session;
                          info_orderAmount := q_finalAmount quote |})
            end
        end
  end.

Definition rejectQuote (corpUser : CorporateUser) (id : nat) (reason : string)
    : M Response :=
  let* found := gets (findSentQuote id corpUser) in
  match found with
  | None => exit (Fail 404 QuoteNotFound)
  | Some quote =>
      let quote' := markRejected reason quote in
      saveQuote id quote' >> ret (QuoteRejected quote')
  end.

(** ** The service as a transition system *)

(** A request of an authenticated, active corporate user. *)
Inductive Request :=
  | CreateOrder (items : list CartItem) (shippingAddress : option Address)
  | VerifyPayment (orderId : string)
  | CancelOrder (id : nat) (reason : string)
  | ApproveQuote (id : nat) (shippingAddress : option Address)
  | RejectQuote (id : nat) (reason : string).

Definition handle (env : Env) (corpUser : CorporateUser) (r : Request)
    : M Response :=
  match r with
  | CreateOrder items shippingAddress => createOrder env corpUser items shippingAddress
  | VerifyPayment orderId => verifyPayment env corpUser orderId
  | CancelOrder id reason => cancelOrder env corpUser id reason
  | ApproveQuote id shippingAddress => approveQuote env corpUser id shippingAddress
  | RejectQuote id reason => rejectQuote corpUser id reason
  end.

(** The database after a sequence of requests, each with its own
    environment and its own user. *)
Fixpoint serve (rs : list (Env * CorporateUser * Request)) (db : Db) : Db :=
  match rs with
  | [] => db
  | (env, corpUser, r) :: rs' => serve rs' (run (handle env corpUser r) db).2
  end.

(** ** Authentication: [routes/auth.js] and [middleware/corporateAuth.js]

    E-mail addresses and one-time passcodes are ASCII strings;
    [toLowerCase] and [trim] are the restrictions of the JavaScript methods
    to ASCII. *)

Definition asciiLower (c : Ascii.ascii) : Ascii.ascii :=
  let n := Ascii.nat_of_ascii c in
  if (65 <=? n)%nat && (n <=? 90)%nat then Ascii.ascii_of_nat (n + 32) else c.

Fixpoint toLowerCase (s : string) : string :=
  match s with
  | EmptyString => EmptyString
  | String c s' => String (asciiLower c) (toLowerCase s')
  end.

(** Tab, line feed, vertical tab, form feed, carriage return and space. *)
Definition isWhiteSpace (c : Ascii.ascii) : bool :=
  let n := Ascii.nat_of_ascii c in
  ((9 <=? n)%nat && (n <=? 13)%nat) || (n =? 32)%nat.

Fixpoint trimStart (s : string) : string :=
  match s with
  | EmptyString => EmptyString
  | String c s' => if isWhiteSpace c then trimStart s' else s
  end.

Fixpoint trimEnd (s : string) : string :=
  match s with
  | EmptyString => EmptyString
  | String c s' =>
      match trimEnd s' with
      | EmptyString =>
          if isWhiteSpace c then EmptyString else String c EmptyString
      | String c' t => String c (String c' t)
      end
  end.

Definition trim (s : string) : string := trimEnd (trimStart s).

(** [s.split(sep)[0]] *)
Fixpoint segment0 (sep : Ascii.ascii) (s : string) : string :=
  match s with
  | EmptyString => EmptyString
  | String c s' =>
      if decide (c = sep) then EmptyString else String c (segment0 sep s')
  end.

(** [s.split(sep)[1]]; [None] is [undefined]. *)
Fixpoint segment1 (sep : Ascii.ascii) (s : string) : option string :=
  match s with
  | EmptyString => None
  | String c s' =>
      if decide (c = sep) then Some (segment0 sep s') else segment1 sep s'
  end.

(** The characters [@] and [.]. *)
Definition atSign : Ascii.ascii := Ascii.ascii_of_nat 64.
Definition fullStop : Ascii.ascii := Ascii.ascii_of_nat 46.

(** Free/personal email domains that are NOT corporate *)
Definition FREE_EMAIL_DOMAINS : list string :=
  [ "gmail.com"; "yahoo.com"; "yahoo.in"; "yahoo.co.in";
    "outlook.com"; "hotmail.com"; "live.com";
    "aol.com"; "icloud.com"; "me.com"; "mac.com";
    "protonmail.com"; "proton.me";
    "mail.com"; "email.com";
    "yandex.com"; "yandex.ru";
    "zoho.com"; "rediffmail.com";
    "fastmail.com"; "tutanota.com";
    "gmx.com"; "gmx.net";
    "inbox.com"; "mail.ru" ].

(** Check if an email is a corporate email (not a free provider). *)
Definition isCorporateEmail (email : string) : bool :=
  if decide (email = "") then false
  else
    match segment1 atSign (trim (toLowerCase email)) with
    | None => false
    | Some domain =>
        if decide (domain = "") then false
        else negb (bool_decide (domain ∈ FREE_EMAIL_DOMAINS))
    end.

(** A document of the [CorporateUser] collection. *)
Record Account := {
  acc_email : string;
  acc_companyName : string;
  acc_contactPerson : string;
  acc_phone : string;
  acc_designation : string;
  acc_companySize : string;
  acc_gstNumber : string;
  acc_status : string;
  acc_otp : option string;
  acc_otpExpiry : option Z
}.

(** What the authentication routes obtain from outside. send-otp reads the
    clock once ([auth_now]). verify-otp reads it twice: [auth_now] is the
    reading of the filter of the atomic verification, [auth_later] the
    reading of the expiry test that follows the two awaited queries when
    the verification has found nothing. [newAccountStatus] is the default
    of the [status] field of the [CorporateUser] schema, which is declared
    outside these sources. *)
Record AuthEnv := {
  auth_now : Z;                         (* new Date(), Date.now() *)
  auth_later : Z;                       (* new Date() > existing.otpExpiry *)
  generateOTP : string;                 (* crypto.randomInt(100000, 999999).toString() *)
  otpExpiryMinutes : Z;                 (* parseInt(OTP_EXPIRY_MINUTES || '10') *)
  sendOTP : string → string → bool;     (* false: the mailer throws *)
  jwtSign : nat → string;               (* jwt.sign({ corporateUserId }, ..) *)
  newAccountStatus : string
}.

Inductive AuthMessage :=
  | EmailRequired                 (* 'Email is required' *)
  | NotCorporateEmail             (* 'Please use your corporate email address. ..' *)
  | FailedToSendOtp               (* 'Failed to send OTP' *)
  | EmailAndOtpRequired           (* 'Email and OTP required' *)
  | NoAccountFound                (* 'No account found. Please request OTP first.' *)
  | OtpExpiredOrNotRequested      (* 'OTP expired or not requested. Please resend.' *)
  | OtpExpired                    (* 'OTP expired. Request a new one.' *)
  | InvalidOtp                    (* 'Invalid OTP' *)
  | AccountSuspended.             (* 'Corporate account suspended. Contact support.' *)

Inductive AuthResponse :=
  | AuthFail (status : nat) (message : AuthMessage)
  | OtpSent (isNewUser : bool)
  | Verified (token : string) (id : nat) (user : Account).

Definition withOtp (otp : option string) (otpExpiry : option Z) (a : Account)
    : Account :=
  {| acc_email := acc_email a; acc_companyName := acc_companyName a;
     acc_contactPerson := acc_contactPerson a; acc_phone := acc_phone a;
     acc_designation := acc_designation a;
     acc_companySize := acc_companySize a; acc_gstNumber := acc_gstNumber a;
     acc_status := acc_status a;
     acc_otp := otp; acc_otpExpiry := otpExpiry |}.

(** [new CorporateUser({ email, companyName: <first label of the domain>,
      contactPerson: '' })] *)
Definition newAccount (env : AuthEnv) (normalizedEmail : string) : Account :=
  {| acc_email := normalizedEmail;
     acc_companyName :=
       match segment1 atSign normalizedEmail with
       | Some domain => segment0 fullStop domain
       | None => ""
       end;
     acc_contactPerson := "";
     acc_phone := ""; acc_designation := ""; acc_companySize := "";
     acc_gstNumber := "";
     acc_status := newAccountStatus env;
     acc_otp := None; acc_otpExpiry := None |}.

(** [POST /api/corporate/auth/send-otp] *)
Definition sendOtp (env : AuthEnv) (email : string) (users : list Account)
    : AuthResponse * list Account :=
  if decide (email = "") then (AuthFail 400 EmailRequired, users)
  else
    let normalizedEmail := trim (toLowerCase email) in
    (* Validate corporate email *)
    if negb (isCorporateEmail normalizedEmail) then
      (AuthFail 400 NotCorporateEmail, users)
    else
      let otp := generateOTP env in
      let otpExpiry := auth_now env + otpExpiryMinutes env * 60 * 1000 in
      let found := list_find (λ a, acc_email a = normalizedEmail) users in
      let user :=
        withOtp (Some otp) (Some otpExpiry)
          match found with
          | Some (_, a) => a
          | None => newAccount env normalizedEmail
          end in
      let users' :=
        match found with
        | Some (id, _) => <[id := user]> users
        | None => users ++ [user]
        end in
      if sendOTP env normalizedEmail otp then
        (OtpSent (bool_decide (acc_contactPerson user = "")), users')
      else (AuthFail 500 FailedToSendOtp, users').

(** The filter of the atomic verification:
    [{ email, otp: otpStr, otpExpiry: { $gt: new Date() } }]. *)
Definition otpMatches (env : AuthEnv) (normalizedEmail otpStr : string)
    (a : Account) : Prop :=
  acc_email a = normalizedEmail
  ∧ acc_otp a = Some otpStr
  ∧ ∃ t, acc_otpExpiry a = Some t ∧ t > auth_now env.

#[global] Instance otpMatches_dec env normalizedEmail otpStr a :
  Decision (otpMatches env normalizedEmail otpStr a).
Proof.
  unfold otpMatches. destruct (acc_otpExpiry a) as [t|].
  - destruct (decide (acc_email a = normalizedEmail ∧ acc_otp a = Some otpStr
                      ∧ t > auth_now env)) as [H|H].
    + left. destruct H as (?&?&?). eauto.
    + right. intros (?&?&t'&[= <-]&?). tauto.
  - right. by intros (_&_&t&?&_).
Defined.

(** [if (x) user.field = x] for the five profile fields. *)
Definition withProfile (companyName contactPerson phone designation
    companySize : string) (a : Account) : Account :=
  {| acc_email := acc_email a;
     acc_companyName := orString companyName (acc_companyName a);
     acc_contactPerson := orString contactPerson (acc_contactPerson a);
     acc_phone := orString phone (acc_phone a);
     acc_designation := orString designation (acc_designation a);
     acc_companySize := orString companySize (acc_companySize a);
     acc_gstNumber := acc_gstNumber a;
     acc_status := acc_status a;
     acc_otp := acc_otp a; acc_otpExpiry := acc_otpExpiry a |}.

(** [POST /api/corporate/auth/verify-otp] *)
Definition verifyOtp (env : AuthEnv) (email otp companyName contactPerson
    phone designation companySize : string) (users : list Account)
    : AuthResponse * list Account :=
  if decide (email = "" ∨ otp = "") then (AuthFail 400 EmailAndOtpRequired, users)
  else
    let normalizedEmail := trim (toLowerCase email) in
    let otpStr := trim otp in
    (* Atomic OTP verification *)
    match list_find (otpMatches env normalizedEmail otpStr) users with
    | None =>
        match list_find (λ a, acc_email a = normalizedEmail) users with
        | None => (AuthFail 400 NoAccountFound, users)
        | Some (_, existing) =>
            match acc_otp existing, acc_otpExpiry existing with
            | Some stored, Some expiry =>
                if decide (stored = "") then
                  (AuthFail 400 OtpExpiredOrNotRequested, users)
                else if decide (auth_later env > expiry) then
                  (AuthFail 400 OtpExpired, users)
                else (AuthFail 400 InvalidOtp, users)
            | _, _ => (AuthFail 400 OtpExpiredOrNotRequested, users)
            end
        end
    | Some (id, matched) =>
        let user := withOtp None None matched in
        if decide (acc_status user = "suspended") then
          (AuthFail 403 AccountSuspended, <[id := user]> users)
        else
          (* Update profile if new user or if details provided *)
          let user' :=
            withProfile companyName contactPerson phone designation
              companySize user in
          (Verified (jwtSign env id) id user', <[id := user']> users)
    end.

(** The authentication routes as a transition system: a request of either
    route, and the accounts after a sequence of requests, each with its own
    environment. The rate limiters in front of the routes are middleware
    and are left out. *)
Inductive AuthRequest :=
  | SendOtp (email : string)
  | VerifyOtp (email otp companyName contactPerson phone designation
               companySize : string).

Definition authHandle (env : AuthEnv) (r : AuthRequest) (users : list Account)
    : AuthResponse * list Account :=
  match r with
  | SendOtp email => sendOtp env email users
  | VerifyOtp email otp companyName contactPerson phone designation
      companySize =>
      verifyOtp env email otp companyName contactPerson phone designation
        companySize users
  end.

Fixpoint authServe (rs : list (AuthEnv * AuthRequest)) (users : list Account)
    : list Account :=
  match rs with
  | [] => users
  | (env, r) :: rs' => authServe rs' (authHandle env r users).2
  end.

(** The request is a send-otp for the address [normalizedEmail]. *)
Definition sendsTo (normalizedEmail : string) (r : AuthRequest) : Prop :=
  match r with
  | SendOtp email => trim (toLowerCase email) = normalizedEmail
  | VerifyOtp _ _ _ _ _ _ _ => False
  end.

(** ** The catalog page of a product (routes/catalog.js) *)

(** The product of a catalog page: the product document with the fields of
    its catalog entry laid over it. The seller profile, [catalogId] and
    [tags] are left out. *)
Record CatalogProduct := {
  cp_product : Product;
  cp_corporatePrice : option Z;
  cp_minOrderQty : Z;
  cp_maxOrderQty : Z
}.

(** [GET /api/corporate/catalog/:id]; [None] is the answer 404. *)
Definition catalogDetail (id : string) (db : Db) : option CatalogProduct :=
  match findCatalogEntry id db with
  | None => None
  | Some entry =>
      (* populate('productId') *)
      match products db !! ce_productId entry with
      | None => None
      | Some product =>
          Some {| cp_product := product;
                  cp_corporatePrice := ce_corporatePrice entry;
                  cp_minOrderQty := ce_minOrderQty entry;
                  cp_maxOrderQty := ce_maxOrderQty entry |}
      end
  end.

(** ** Predicates of the statements *)

(** A computation preserves a relation between the database before and
    after it. *)
Definition Preserves (R : relation Db) {A} (m : M A) : Prop :=
  ∀ db, R db (m db).2.

(** The writes the handlers make, as closure conditions on a relation. *)
Definition OrdersBlind (R : relation Db) : Prop :=
  ∀ os db, R db (setOrders os db).
Definition QuotesBlind (R : relation Db) : Prop :=
  ∀ qs db, R db (setQuotes qs db).
Definition DecrementClosed (R : relation Db) : Prop :=
  ∀ item db, R db (setProducts (decrementStock item (products db)) db).
Definition RestoreClosed (R : relation Db) : Prop :=
  ∀ item db, R db (setProducts (restoreStock item (products db)) db).

(** Every product has a stock of at least zero. *)
Definition stockNonNegative (db : Db) : Prop :=
  map_Forall (λ _ p, 0 ≤ p_stock p) (products db).

Definition keepsStockNonNegative : relation Db :=
  λ a b, stockNonNegative a → stockNonNegative b.

(** Every product that exists still exists, with the same value of
    [stock + orderCount]. *)
Definition keepsStockPlusCount : relation Db := λ a b,
  ∀ id p, products a !! id = Some p →
    ∃ p', products b !! id = Some p'
          ∧ p_stock p' + p_orderCount p' = p_stock p + p_orderCount p.

(** Every conditional decrement of the reconciliation of these line items,
    run in order from these products, finds its product with enough stock. *)
Fixpoint decrementsApply (items : list OrderItem) (ps : gmap string Product)
    : bool :=
  match items with
  | [] => true
  | item :: rest =>
      match ps !! oi_productId item with
      | Some p =>
          bool_decide (oi_quantity item ≤ p_stock p)
          && decrementsApply rest (decrementStock item ps)
      | None => false
      end
  end.

(** The quote stored under this identifier stays as it is. *)
Definition keepsQuote (id : nat) (q : Quote) : relation Db :=
  λ a b, quotes a !! id = Some q → quotes b !! id = Some q.

(** The element of [sellerGroups] the validation loop builds for an item
    that passes every check against this database. *)
Definition accepts (db : Db) (item : CartItem) (gi : GroupItem) : Prop :=
  findCatalogEntry (ci_productId item) db = Some (gi_catalogEntry gi)
  ∧ ce_minOrderQty (gi_catalogEntry gi) ≤ ci_quantity item
      ≤ ce_maxOrderQty (gi_catalogEntry gi)
  ∧ products db !! ci_productId item = Some (gi_product gi)
  ∧ p_isActive (gi_product gi) = true
  ∧ gi_productId gi = ci_productId item
  ∧ gi_quantity gi = ci_quantity item
  ∧ gi_unitPrice gi
    = orNumber (ce_corporatePrice (gi_catalogEntry gi)) (p_price (gi_product gi)).

(** [sellerGroups] partitions the accepted items by seller: one entry per
    seller, never empty, holding items of that seller only, and every
    accepted item is in the entry of its seller. *)
Definition partitionsBySeller (sellerGroups : list (string * list GroupItem))
    (gis : list GroupItem) : Prop :=
  NoDup sellerGroups.*1
  ∧ (∀ sid xs, (sid, xs) ∈ sellerGroups → xs ≠ [])
  ∧ (∀ sid xs gi, (sid, xs) ∈ sellerGroups → gi ∈ xs →
       gi ∈ gis ∧ p_sellerId (gi_product gi) = sid)
  ∧ (∀ gi, gi ∈ gis →
       ∃ xs, (p_sellerId (gi_product gi), xs) ∈ sellerGroups ∧ gi ∈ xs).

(** The documents the creation loop builds from [sellerGroups], the first of
    them with the [k]-th order number. *)
Fixpoint plannedOrders (env : Env) (corpUser : CorporateUser)
    (shippingAddress : Address) (k : nat)
    (sellerGroups : list (string * list GroupItem)) : list Order :=
  match sellerGroups with
  | [] => []
  | (sellerId, sellerItems) :: rest =>
      newOrder (generateOrderNumber (today env) (random4 env k))
        corpUser shippingAddress sellerId sellerItems
      :: plannedOrders env corpUser shippingAddress (S k) rest
  end.

(** The sum of unit price times quantity over the line items of an order. *)
Definition lineTotal (items : list OrderItem) : Z :=
  foldr (λ i sum, oi_price i * oi_quantity i + sum) 0 items.

(** The sum of the totals of a list of orders. *)
Definition sumOfTotals (os : list Order) : Z :=
  foldr (λ o sum, o_totalAmount o + sum) 0 os.

(** A string of ASCII digits only. *)
Fixpoint allDigits (s : string) : bool :=
  match s with
  | EmptyString => true
  | String c s' => isDigit c && allDigits s'
  end.

(** The line item order assembly stores for an item of the cart: the
    product's display fields and seller, the requested quantity and the
    effective unit price. *)
Definition cartLine (db : Db) (item : CartItem) : option OrderItem :=
  match findCatalogEntry (ci_productId item) db,
        products db !! ci_productId item with
  | Some e, Some p =>
      Some {| oi_productId := ci_productId item;
              oi_title := p_title p;
              oi_price := orNumber (ce_corporatePrice e) (p_price p);
              oi_image := p_image p;
              oi_sku := p_sku p;
              oi_quantity := ci_quantity item;
              oi_sellerId := Some (p_sellerId p) |}
  | _, _ => None
  end.

(** Payment verification for this gateway order identifier and buyer marks
    this order paid: it matches the query and is not in payment status
    [paid]. *)
Definition reconciles (orderId email : string) (o : Order) : bool :=
  bool_decide (o_cashfreeOrderId o = Some orderId)
  && bool_decide (o_customerEmail o = email)
  && negb (bool_decide (o_paymentStatus o = "paid")).

(** What payment verification makes of a stored order. *)
Definition reconcile (paymentId : string) (at_ : Z) (orderId email : string)
    (o : Order) : Order :=
  if reconciles orderId email o then markPaid paymentId at_ o else o.


(** Order [o], if stored under [id], is still stored there, unchanged. *)
Definition keepsOrderAt (id : nat) (o : Order) : relation Db := λ a b,
  orders a !! id = Some o → orders b !! id = Some o.


(** ** A concrete scenario

    Product P of seller S1 is listed at the corporate price 100 with a
    quantity range of 2 to 10; product Q of seller S2 is listed without an
    override at its base price 50. The buyer orders 5 of P, of which 40 are
    in stock, and 3 of Q, of which only 2 are in stock. *)
Module Scenario.

Definition warehouse : Address :=
  {| addr_line := "12 Park Street, Kolkata"; addr_phone := "+91 98300 12345";
     addr_isDefault := true |}.

Definition buyer : CorporateUser :=
  {| cu_id := "u1"; cu_email := "procurement@acme.example"; cu_phone := "";
     cu_companyName := "Acme"; cu_shippingAddresses := [warehouse] |}.

Definition productP : Product :=
  {| p_title := "Hamper"; p_image := ""; p_sku := "P-1"; p_sellerId := "S1";
     p_isActive := true; p_price := 120; p_stock := 40; p_orderCount := 7 |}.

Definition productQ : Product :=
  {| p_title := "Mug"; p_image := ""; p_sku := "Q-1"; p_sellerId := "S2";
     p_isActive := true; p_price := 50; p_stock := 2; p_orderCount := 0 |}.

Definition entryP : CatalogEntry :=
  {| ce_productId := "P"; ce_isActive := true; ce_corporatePrice := Some 100;
     ce_minOrderQty := 2; ce_maxOrderQty := 10 |}.

Definition entryQ : CatalogEntry :=
  {| ce_productId := "Q"; ce_isActive := true; ce_corporatePrice := None;
     ce_minOrderQty := 1; ce_maxOrderQty := 100 |}.

Definition db0 : Db :=
  {| products := <["P" := productP]> (<["Q" := productQ]> ∅);
     catalog := [entryP; entryQ];
     orders := [];
     quotes := [] |}.

Definition cart : list CartItem :=
  [ {| ci_productId := "P"; ci_quantity := 5 |};
    {| ci_productId := "Q"; ci_quantity := 3 |} ].

(** A gateway that accepts every request and reports every order paid. *)
Definition env0 : Env :=
  {| now := 1700000000000;
     today := "20231114";
     random4 := λ k, if decide (k = 0%nat) then "0042" else "0777";
     clientUrl := "http://localhost:5173";
     createCashfreeOrder := λ _, Some "session_1";
     getCashfreeOrder := λ _, Some "PAID";
     getCashfreePayments := λ _,
       Some [ {| payment_status := "SUCCESS"; cf_payment_id := Some "885544" |} ];
     createRefund := λ _, true |}.

(** The same gateway with refunds and session creation failing. *)
Definition envDown : Env :=
  {| now := now env0; today := today env0; random4 := random4 env0;
     clientUrl := clientUrl env0;
     createCashfreeOrder := λ _, None;
     getCashfreeOrder := getCashfreeOrder env0;
     getCashfreePayments := getCashfreePayments env0;
     createRefund := λ _, false |}.

Definition db1 : Db := (run (createOrder env0 buyer cart (Some warehouse)) db0).2.
Definition db2 : Db := (run (verifyPayment env0 buyer "GFT-B2B-20231114-0042") db1).2.
Definition db3 : Db := (run (cancelOrder env0 buyer 1 "") db2).2.

(** Product Z of seller S1 is listed with a corporate price of zero. *)
Definition productZ : Product :=
  {| p_title := "Sticker"; p_image := ""; p_sku := "Z-1"; p_sellerId := "S1";
     p_isActive := true; p_price := 50; p_stock := 1000; p_orderCount := 0 |}.

Definition entryZ : CatalogEntry :=
  {| ce_productId := "Z"; ce_isActive := true; ce_corporatePrice := Some 0;
     ce_minOrderQty := 1; ce_maxOrderQty := 500 |}.

Definition dbZ : Db :=
  {| products := <["Z" := productZ]> (products db0);
     catalog := entryZ :: catalog db0;
     orders := [];
     quotes := [] |}.

Definition cartZ : list CartItem := [ {| ci_productId := "Z"; ci_quantity := 10 |} ].

(** A cart whose first product is not in the catalog and whose second item
    asks for 1 of P, below the minimum of 2. *)
Definition cartBad : list CartItem :=
  [ {| ci_productId := "X"; ci_quantity := 4 |};
    {| ci_productId := "P"; ci_quantity := 1 |} ].

(** A quote sent to the buyer, valid until one second before [now env0]. *)
Definition quote0 : Quote :=
  {| q_quoteNumber := "QT-0001"; q_companyName := "Acme";
     q_corporateUserId := Some "u1";
     q_contactEmail := "procurement@acme.example";
     q_status := "sent";
     q_validUntil := Some 1699999999000;
     q_items := [ {| qi_productId := "P"; qi_title := "Hamper";
                     qi_unitPrice := 95; qi_image := ""; qi_quantity := 20 |} ];
     q_totalAmount := 1900; q_finalAmount := 1900;
     q_convertedOrderId := None; q_clientNotes := "" |}.

Definition dbQ : Db :=
  {| products := products db0; catalog := catalog db0; orders := [];
     quotes := [quote0] |}.

(** The line item of the second order: 3 of Q. *)
Definition itemQ : OrderItem :=
  {| oi_productId := "Q"; oi_title := "Mug"; oi_price := 50; oi_image := "";
     oi_sku := "Q-1"; oi_quantity := 3; oi_sellerId := Some "S2" |}.

(** Product Q withdrawn by its seller while still listed. *)
Definition dbWithdrawn : Db :=
  {| products :=
       <["Q" := {| p_title := "Mug"; p_image := ""; p_sku := "Q-1";
                   p_sellerId := "S2"; p_isActive := false; p_price := 50;
                   p_stock := 2; p_orderCount := 0 |}]> (products db0);
     catalog := catalog db0; orders := []; quotes := [] |}.

End Scenario.

(** No request changes the catalog, adds or removes a product, or changes
    a field of a product other than its stock and order count. *)
Definition keepsListing : relation Db := λ a b,
  catalog b = catalog a
  ∧ ∀ id,
      match products a !! id, products b !! id with
      | Some p, Some p' =>
          p_title p' = p_title p ∧ p_image p' = p_image p
          ∧ p_sku p' = p_sku p ∧ p_sellerId p' = p_sellerId p
          ∧ p_isActive p' = p_isActive p ∧ p_price p' = p_price p
      | None, None => True
      | _, _ => False
      end.

(** The fields of an order that are fixed once the request that created it
    has finished. *)
Definition sameOrderContent (o o' : Order) : Prop :=
  o_orderNumber o' = o_orderNumber o
  ∧ o_orderType o' = o_orderType o
  ∧ o_customerEmail o' = o_customerEmail o
  ∧ o_customerPhone o' = o_customerPhone o
  ∧ o_sellerId o' = o_sellerId o
  ∧ o_items o' = o_items o
  ∧ o_shippingAddress o' = o_shippingAddress o
  ∧ o_itemTotal o' = o_itemTotal o
  ∧ o_totalAmount o' = o_totalAmount o
  ∧ o_sellerAmount o' = o_sellerAmount o
  ∧ o_cashfreeOrderId o' = o_cashfreeOrderId o
  ∧ o_paymentSessionId o' = o_paymentSessionId o.

(** Every stored order is still stored under its identifier, with the same
    content. *)
Definition keepsOrders : relation Db := λ a b,
  ∀ i o, orders a !! i = Some o →
    ∃ o', orders b !! i = Some o' ∧ sameOrderContent o o'.

(** A second scenario: a quote that is still valid at the time of the
    requests. *)
Module QuoteScenario.

(** The clock of [Scenario.env0] set back to before the deadline of
    [Scenario.quote0]. *)
Definition envEarly : Env :=
  {| now := 1699990000000; today := today Scenario.env0;
     random4 := random4 Scenario.env0; clientUrl := clientUrl Scenario.env0;
     createCashfreeOrder := createCashfreeOrder Scenario.env0;
     getCashfreeOrder := getCashfreeOrder Scenario.env0;
     getCashfreePayments := getCashfreePayments Scenario.env0;
     createRefund := createRefund Scenario.env0 |}.

(** The same clock with the gateway refusing to create sessions. *)
Definition envEarlyDown : Env :=
  {| now := now envEarly; today := today envEarly; random4 := random4 envEarly;
     clientUrl := clientUrl envEarly;
     createCashfreeOrder := λ _, None;
     getCashfreeOrder := getCashfreeOrder envEarly;
     getCashfreePayments := getCashfreePayments envEarly;
     createRefund := createRefund envEarly |}.

Definition dbApproved : Db :=
  (run (approveQuote envEarly Scenario.buyer 0 None) Scenario.dbQ).2.

Definition dbRejected : Db :=
  (run (rejectQuote Scenario.buyer 0 "too expensive") Scenario.dbQ).2.

Definition dbOrphan : Db :=
  (run (approveQuote envEarlyDown Scenario.buyer 0 None) Scenario.dbQ).2.

End QuoteScenario.

(** A scenario for the authentication routes: one known account and a
    mailer that works. *)
Module AuthScenario.

Definition alice : Account :=
  {| acc_email := "alice@acme.example"; acc_companyName := "Acme";
     acc_contactPerson := "Alice"; acc_phone := "9830012345";
     acc_designation := "Procurement"; acc_companySize := "51-200";
     acc_gstNumber := ""; acc_status := "active";
     acc_otp := None; acc_otpExpiry := None |}.

Definition mallory : Account :=
  {| acc_email := "mallory@shady.example"; acc_companyName := "Shady";
     acc_contactPerson := "Mallory"; acc_phone := "";
     acc_designation := ""; acc_companySize := "";
     acc_gstNumber := ""; acc_status := "suspended";
     acc_otp := Some "654321"; acc_otpExpiry := Some 1700000600000 |}.

Definition users0 : list Account := [alice; mallory].

Definition authEnv : AuthEnv :=
  {| auth_now := 1700000000000; auth_later := 1700000000003;
     generateOTP := "482913";
     otpExpiryMinutes := 10;
     sendOTP := λ _ _, true;
     jwtSign := λ id, "token-" +:+ pretty id;
     newAccountStatus := "pending" |}.

(** Five minutes later. *)
Definition authEnvLater : AuthEnv :=
  {| auth_now := 1700000300000; auth_later := 1700000300003;
     generateOTP := "771204";
     otpExpiryMinutes := otpExpiryMinutes authEnv;
     sendOTP := sendOTP authEnv; jwtSign := jwtSign authEnv;
     newAccountStatus := newAccountStatus authEnv |}.

Definition users1 : list Account :=
  (sendOtp authEnv " Alice@ACME.example " users0).2.

Definition users2 : list Account :=
  (verifyOtp authEnvLater "alice@acme.example" "482913" "" "" "" "" "" users1).2.

(** A request whose first clock reading is the instant at which the
    passcode of [users1] expires. *)
Definition authEnvAtExpiry : AuthEnv :=
  {| auth_now := 1700000600000; auth_later := 1700000600003;
     generateOTP := "350118";
     otpExpiryMinutes := otpExpiryMinutes authEnv;
     sendOTP := sendOTP authEnv; jwtSign := jwtSign authEnv;
     newAccountStatus := newAccountStatus authEnv |}.

End AuthScenario.

(** ** Reasoning about handlers *)

Lemma run_snd (h : M Response) (db : Db) : (run h db).2 = (h db).2.
Proof. unfold run. by destruct (h db) as [[r|r] db']. Qed.

Lemma run_inl (h : M Response) (db db' : Db) (r : Response) :
  h db = (inl r, db') → run h db = (r, db').
Proof. unfold run. by intros ->. Qed.

Lemma run_inr (h : M Response) (db db' : Db) (r : Response) :
  h db = (inr r, db') → run h db = (r, db').
Proof. unfold run. by intros ->. Qed.

(** A computation preserves a relation between the database before and
    after it when the relation is a preorder and every write of the
    computation is a step of it. *)
Section Preserves.
Context (R : relation Db) `{!PreOrder R}.

Lemma Preserves_ret {A} (a : A) : Preserves R (ret a).
Proof. intros db. simpl. reflexivity. Qed.

Lemma Preserves_exit {A} (r : Response) : Preserves R (@exit A r).
Proof. intros db. simpl. reflexivity. Qed.

Lemma Preserves_gets {A} (f : Db → A) : Preserves R (gets f).
Proof. intros db. simpl. reflexivity. Qed.

Lemma Preserves_bind {A B} (m : M A) (k : A → M B) :
  Preserves R m → (∀ a, Preserves R (k a)) → Preserves R (bind m k).
Proof.
  intros Hm Hk db. unfold bind. specialize (Hm db).
  destruct (m db) as [[r|a] db1]; simpl in *; [done|].
  etrans; [exact Hm | apply Hk].
Qed.

Lemma Preserves_mapM {A B} (f : A → M B) (l : list A) :
  (∀ a, Preserves R (f a)) → Preserves R (mapM f l).
Proof.
  intros Hf. induction l as [|x l IH]; simpl.
  - apply Preserves_ret.
  - apply Preserves_bind; [apply Hf|]. intros y.
    apply Preserves_bind; [apply IH|]. intros ys. apply Preserves_ret.
Qed.

Lemma Preserves_foldM {A B} (f : B → A → M B) (l : list A) (b : B) :
  (∀ b a, Preserves R (f b a)) → Preserves R (foldM f b l).
Proof.
  intros Hf. revert b. induction l as [|x l IH]; intros b; simpl.
  - apply Preserves_ret.
  - apply Preserves_bind; [apply Hf|]. intros b'. apply IH.
Qed.

Lemma Preserves_modify (f : Db → Db) :
  (∀ db, R db (f db)) → Preserves R (modify f).
Proof. intros Hf db. apply Hf. Qed.

Lemma Preserves_insertOrder (o : Order) :
  (∀ db, R db (setOrders (orders db ++ [o]) db)) → Preserves R (insertOrder o).
Proof. intros Hf db. apply Hf. Qed.

Lemma Preserves_run (h : M Response) (db : Db) :
  Preserves R h → R db (run h db).2.
Proof. intros Hh. rewrite run_snd. apply Hh. Qed.
End Preserves.

(** Walks through the body of a handler, leaving one goal for every write
    to the database. *)
Ltac papply H :=
  apply H; try (lazymatch goal with |- PreOrder _ => tc_solve end).

Ltac preserves_step :=
  lazymatch goal with
  | |- Preserves _ (bind _ _) => papply Preserves_bind; [|intros ?]
  | |- Preserves _ (ret _) => papply Preserves_ret
  | |- Preserves _ (exit _) => papply Preserves_exit
  | |- Preserves _ (gets _) => papply Preserves_gets
  | |- Preserves _ (mapM _ _) => papply Preserves_mapM; intros ?
  | |- Preserves _ (foldM _ _ _) => papply Preserves_foldM; intros ? ?
  | |- Preserves _ (match ?x with _ => _ end) => destruct x
  | |- Preserves _ (if ?x then _ else _) => destruct x
  | |- Preserves _ (let _ := _ in _) => cbv zeta
  | |- Preserves _ (saveOrder _ _) => papply Preserves_modify; intros ?
  | |- Preserves _ (saveQuote _ _) => papply Preserves_modify; intros ?
  | |- Preserves _ (updateProducts _) => papply Preserves_modify; intros ?
  | |- Preserves _ (insertOrder _) => papply Preserves_insertOrder; intros ?
  end.

Ltac preserves := repeat preserves_step.

(** *** What each handler writes

    A preorder on databases that is closed under the writes a handler makes
    is preserved by the handler. *)
Section Writes.
Context (R : relation Db) `{!PreOrder R}.

Lemma validateItem_Preserves g item : Preserves R (validateItem g item).
Proof. unfold validateItem. preserves. Qed.

Lemma createOrders_Preserves env u addr k groups :
  OrdersBlind R → Preserves R (createOrders env u addr k groups).
Proof.
  intros HO. revert k.
  induction groups as [|[sid xs] groups IH]; intros k; simpl; preserves.
  - apply HO.
  - apply IH.
Qed.

Lemma createOrder_Preserves env u items addr :
  OrdersBlind R → Preserves R (createOrder env u items addr).
Proof.
  intros HO. unfold createOrder. preserves.
  - apply validateItem_Preserves.
  - by apply createOrders_Preserves.
  - unfold attachSession. preserves. apply HO.
Qed.

Lemma decrementStockAll_closed items db :
  DecrementClosed R → R db (setProducts (decrementStockAll items (products db)) db).
Proof.
  intros HD. revert db. induction items as [|item items IH]; intros db.
  - by destruct db.
  - etrans; [apply (HD item)|].
    apply (IH (setProducts (decrementStock item (products db)) db)).
Qed.

Lemma restoreStockAll_closed items db :
  RestoreClosed R → R db (setProducts (restoreStockAll items (products db)) db).
Proof.
  intros HD. revert db. induction items as [|item items IH]; intros db.
  - by destruct db.
  - etrans; [apply (HD item)|].
    apply (IH (setProducts (restoreStock item (products db)) db)).
Qed.

Lemma confirmOrder_Preserves env sp entry :
  OrdersBlind R → DecrementClosed R → Preserves R (confirmOrder env sp entry).
Proof.
  intros HO HD. unfold confirmOrder. preserves.
  - apply HO.
  - by apply decrementStockAll_closed.
Qed.

Lemma verifyPayment_Preserves env u orderId :
  OrdersBlind R → DecrementClosed R → Preserves R (verifyPayment env u orderId).
Proof.
  intros HO HD. unfold verifyPayment. preserves.
  by apply confirmOrder_Preserves.
Qed.

Lemma cancelOrder_Preserves env u id reason :
  OrdersBlind R → RestoreClosed R → Preserves R (cancelOrder env u id reason).
Proof.
  intros HO HD. unfold cancelOrder. preserves; try apply HO.
  by apply restoreStockAll_closed.
Qed.

Lemma approveQuote_Preserves env u id addr :
  OrdersBlind R → QuotesBlind R → Preserves R (approveQuote env u id addr).
Proof.
  intros HO HQ. unfold approveQuote. preserves; first [apply HO | apply HQ].
Qed.

Lemma rejectQuote_Preserves u id reason :
  QuotesBlind R → Preserves R (rejectQuote u id reason).
Proof. intros HQ. unfold rejectQuote. preserves. apply HQ. Qed.

Lemma handle_Preserves env u r :
  OrdersBlind R → QuotesBlind R → DecrementClosed R → RestoreClosed R →
  Preserves R (handle env u r).
Proof.
  intros HO HQ HD HR. destruct r; simpl.
  - by apply createOrder_Preserves.
  - by apply verifyPayment_Preserves.
  - by apply cancelOrder_Preserves.
  - by apply approveQuote_Preserves.
  - by apply rejectQuote_Preserves.
Qed.
End Writes.


(** ** Stock adjustments *)

Lemma decrementStockAll_cons item items ps :
  decrementStockAll (item :: items) ps
  = decrementStockAll items (decrementStock item ps).
Proof. reflexivity. Qed.

Lemma restoreStockAll_cons item items ps :
  restoreStockAll (item :: items) ps
  = restoreStockAll items (restoreStock item ps).
Proof. reflexivity. Qed.

(** The conditional decrement either applies both increments to the
    product of the item or writes nothing at all. *)
Lemma decrementStock_lookup item ps id :
  decrementStock item ps !! id =
    match ps !! id with
    | Some p =>
        if decide (id = oi_productId item ∧ oi_quantity item ≤ p_stock p)
        then Some (incStockOrderCount (- oi_quantity item) (oi_quantity item) p)
        else Some p
    | None => None
    end.
Proof.
  unfold decrementStock, findOneAndUpdate.
  destruct (decide (id = oi_productId item)) as [->|Hne].
  - destruct (ps !! oi_productId item) as [p|] eqn:Hp; [|by rewrite Hp].
    case_bool_decide.
    + rewrite lookup_insert_eq. by rewrite decide_True.
    + rewrite Hp. rewrite decide_False; [done|]. intros [_ ?]. lia.
  - assert (match ps !! oi_productId item with
            | Some p =>
                if bool_decide (oi_quantity item ≤ p_stock p)
                then <[oi_productId item :=
                       incStockOrderCount (- oi_quantity item) (oi_quantity item) p]> ps
                else ps
            | None => ps
            end !! id = ps !! id) as ->.
    { repeat case_match; try done. by rewrite lookup_insert_ne. }
    destruct (ps !! id); [|done]. rewrite decide_False; [done|]. by intros [? _].
Qed.

Lemma restoreStock_lookup item ps id :
  restoreStock item ps !! id =
    match ps !! id with
    | Some p =>
        if decide (id = oi_productId item)
        then Some (incStockOrderCount (oi_quantity item) (- oi_quantity item) p)
        else Some p
    | None => None
    end.
Proof.
  unfold restoreStock, findByIdAndUpdate, findOneAndUpdate.
  destruct (decide (id = oi_productId item)) as [->|Hne].
  - destruct (ps !! oi_productId item) as [p|] eqn:Hp; [|by rewrite Hp].
    by rewrite lookup_insert_eq.
  - assert (match ps !! oi_productId item with
            | Some p =>
                <[oi_productId item :=
                  incStockOrderCount (oi_quantity item) (- oi_quantity item) p]> ps
            | None => ps
            end !! id = ps !! id) as ->.
    { case_match; try done. by rewrite lookup_insert_ne. }
    by destruct (ps !! id).
Qed.

Lemma decrementStock_insufficient item ps p :
  ps !! oi_productId item = Some p →
  p_stock p < oi_quantity item →
  decrementStock item ps = ps.
Proof.
  intros Hp Hlt. unfold decrementStock, findOneAndUpdate. rewrite Hp.
  rewrite bool_decide_eq_false_2; [done|lia].
Qed.

Lemma incStockOrderCount_undo q p :
  incStockOrderCount q (- q) (incStockOrderCount (- q) q p) = p.
Proof.
  destruct p. unfold incStockOrderCount. simpl. f_equal; lia.
Qed.

#[local] Instance keepsStockNonNegative_preorder : PreOrder keepsStockNonNegative.
Proof.
  split.
  - intros a Ha. exact Ha.
  - intros a b c Hab Hbc Ha. exact (Hbc (Hab Ha)).
Qed.

#[local] Instance keepsStockPlusCount_preorder : PreOrder keepsStockPlusCount.
Proof.
  split.
  - intros a id p Hp. eauto.
  - intros a b c Hab Hbc id p Hp.
    destruct (Hab id p Hp) as (p' & Hp' & E).
    destruct (Hbc id p' Hp') as (p'' & Hp'' & E').
    exists p''. split; [done|lia].
Qed.

Lemma keepsStockNonNegative_decrement : DecrementClosed keepsStockNonNegative.
Proof.
  intros item db Hdb id p'. simpl. rewrite decrementStock_lookup.
  destruct (products db !! id) as [p|] eqn:Hp; [|done].
  specialize (Hdb id p Hp). simpl in Hdb.
  case_decide as Hc; intros [= <-]; simpl; [|done].
  destruct Hc. lia.
Qed.

Lemma keepsStockPlusCount_decrement : DecrementClosed keepsStockPlusCount.
Proof.
  intros item db id p Hp. simpl. rewrite decrementStock_lookup, Hp.
  case_decide; eexists; (split; [done|]); simpl; lia.
Qed.

Lemma keepsStockPlusCount_restore : RestoreClosed keepsStockPlusCount.
Proof.
  intros item db id p Hp. simpl. rewrite restoreStock_lookup, Hp.
  case_decide; eexists; (split; [done|]); simpl; lia.
Qed.

Lemma confirmOrder_unpaid env sp id o db :
  o_paymentStatus o ≠ "paid" →
  confirmOrder env sp (id, o) db =
    let order := markPaid (paymentReference sp) (now env) o in
    (inr (id, order),
     setProducts (decrementStockAll (o_items o) (products db))
       (setOrders (<[id := order]> (orders db)) db)).
Proof.
  intros Hunpaid. unfold confirmOrder. simpl.
  by rewrite decide_False.
Qed.

Lemma confirmOrder_paid env sp id o db :
  o_paymentStatus o = "paid" →
  confirmOrder env sp (id, o) db = (inr (id, o), db).
Proof. intros Hpaid. unfold confirmOrder. simpl. by rewrite decide_True. Qed.

(** ** Stock never goes negative *)

(** C1. Payment reconciliation keeps every product's stock at zero or above;
    for an order it marks paid it runs the conditional decrement once per
    line item, and that decrement writes nothing, neither to the stock nor
    to the order count, when the product's stock is below the quantity of
    the item. *)
Theorem reconciliation_never_overdraws (env : Env) (corpUser : CorporateUser)
    (orderId : string) (db : Db) :
  stockNonNegative db →
  stockNonNegative (run (verifyPayment env corpUser orderId) db).2
  ∧ (∀ sp id o, o_paymentStatus o ≠ "paid" →
       products (confirmOrder env sp (id, o) db).2
       = decrementStockAll (o_items o) (products db))
  ∧ (∀ item ps p,
       ps !! oi_productId item = Some p →
       p_stock p < oi_quantity item →
       decrementStock item ps = ps).
Proof.
  intros Hdb. split; [|split].
  - revert Hdb.
    apply (Preserves_run keepsStockNonNegative).
    apply verifyPayment_Preserves; [tc_solve| |].
    + intros os d Hd. exact Hd.
    + apply keepsStockNonNegative_decrement.
  - intros sp id o Hunpaid. by rewrite confirmOrder_unpaid.
  - intros item ps p. apply decrementStock_insufficient.
Qed.

(** ** Stock and order count move together *)

(** C10. No request changes [stock + orderCount] of a product. The
    conditional decrement of reconciliation either moves the quantity from
    the stock to the order count or leaves the product as it is, and the
    restore of cancellation moves the quantity back from the order count to
    the stock of the product of the item, in one update. *)
Theorem stock_plus_orderCount_invariant (env : Env) (corpUser : CorporateUser)
    (r : Request) (db : Db) (id : string) (p : Product) :
  products db !! id = Some p →
  (∃ p', products (run (handle env corpUser r) db).2 !! id = Some p'
         ∧ p_stock p' + p_orderCount p' = p_stock p + p_orderCount p)
  ∧ (∀ item,
       decrementStock item (products db) !! id = Some p
       ∨ decrementStock item (products db) !! id
         = Some {| p_title := p_title p; p_image := p_image p;
                   p_sku := p_sku p; p_sellerId := p_sellerId p;
                   p_isActive := p_isActive p; p_price := p_price p;
                   p_stock := p_stock p - oi_quantity item;
                   p_orderCount := p_orderCount p + oi_quantity item |})
  ∧ (∀ item,
       restoreStock item (products db) !! id =
         if decide (id = oi_productId item)
         then Some {| p_title := p_title p; p_image := p_image p;
                      p_sku := p_sku p; p_sellerId := p_sellerId p;
                      p_isActive := p_isActive p; p_price := p_price p;
                      p_stock := p_stock p + oi_quantity item;
                      p_orderCount := p_orderCount p - oi_quantity item |}
         else Some p).
Proof.
  intros Hp. split; [|split].
  - revert id p Hp.
    apply (Preserves_run keepsStockPlusCount).
    apply handle_Preserves; [tc_solve| | | |].
    + intros os d i q Hq. eauto.
    + intros qs d i q Hq. eauto.
    + apply keepsStockPlusCount_decrement.
    + apply keepsStockPlusCount_restore.
  - intros item. rewrite decrementStock_lookup, Hp.
    case_decide; [right|by left]. unfold incStockOrderCount.
    do 2 f_equal; lia.
  - intros item. rewrite restoreStock_lookup, Hp.
    case_decide; [|done]. unfold incStockOrderCount. do 2 f_equal; lia.
Qed.

Lemma scenario_db1_stockNonNegative : stockNonNegative Scenario.db1.
Proof.
  apply (bool_decide_unpack _). vm_compute. exact I.
Qed.

Lemma reconciliation_never_overdraws_witness :
  stockNonNegative Scenario.db1
  ∧ stockNonNegative Scenario.db2
  ∧ decrementStock Scenario.itemQ (products Scenario.db1) = products Scenario.db1.
Proof.
  pose proof scenario_db1_stockNonNegative as H.
  destruct (reconciliation_never_overdraws Scenario.env0 Scenario.buyer
              "GFT-B2B-20231114-0042" Scenario.db1 H) as (H2 & _ & H3).
  split; [exact H|]. split; [exact H2|].
  apply (H3 Scenario.itemQ (products Scenario.db1) Scenario.productQ).
  - vm_compute. reflexivity.
  - vm_compute. reflexivity.
Defined.

Lemma stock_plus_orderCount_invariant_witness :
  products Scenario.db2 !! "Q" = Some Scenario.productQ
  ∧ ∃ p', products Scenario.db3 !! "Q" = Some p'
          ∧ p_stock p' + p_orderCount p' = 2 + 0.
Proof.
  assert (products Scenario.db2 !! "Q" = Some Scenario.productQ) as H
    by (vm_compute; reflexivity).
  split; [exact H|].
  exact (proj1 (stock_plus_orderCount_invariant Scenario.env0 Scenario.buyer
                  (CancelOrder 1 "") Scenario.db2 "Q" Scenario.productQ H)).
Defined.

(** ** Cancellation against reconciliation *)

Lemma restoreStock_decrementStock item ps p :
  ps !! oi_productId item = Some p →
  oi_quantity item ≤ p_stock p →
  restoreStock item (decrementStock item ps) = ps.
Proof.
  intros Hp Hq. apply map_eq. intros id.
  rewrite restoreStock_lookup, decrementStock_lookup.
  destruct (ps !! id) as [p0|] eqn:Hp0; [|done].
  destruct (decide (id = oi_productId item)) as [->|Hne].
  - assert (p0 = p) as -> by congruence.
    rewrite decide_True by done. by rewrite incStockOrderCount_undo.
  - rewrite decide_False; [done|]. by intros [? _].
Qed.

Lemma restoreStock_comm a b ps :
  restoreStock a (restoreStock b ps) = restoreStock b (restoreStock a ps).
Proof.
  apply map_eq. intros id. rewrite !restoreStock_lookup.
  destruct (ps !! id) as [p|]; [|done].
  destruct (decide (id = oi_productId a)), (decide (id = oi_productId b));
    try done.
  destruct p. unfold incStockOrderCount. simpl. do 2 f_equal; lia.
Qed.

Lemma restoreStockAll_restoreStock items a ps :
  restoreStockAll items (restoreStock a ps)
  = restoreStock a (restoreStockAll items ps).
Proof.
  revert ps. induction items as [|b items IH]; intros ps; [done|].
  rewrite !restoreStockAll_cons. by rewrite restoreStock_comm, IH.
Qed.

Lemma restoreStockAll_decrementStockAll items ps :
  decrementsApply items ps = true →
  restoreStockAll items (decrementStockAll items ps) = ps.
Proof.
  revert ps. induction items as [|item items IH]; intros ps Happly; [done|].
  simpl in Happly.
  destruct (ps !! oi_productId item) as [p|] eqn:Hp; [|done].
  apply andb_true_iff in Happly as [Hq Hrest].
  apply bool_decide_eq_true in Hq.
  rewrite decrementStockAll_cons, restoreStockAll_cons.
  rewrite restoreStockAll_restoreStock, IH by done.
  by eapply restoreStock_decrementStock.
Qed.

(** The run of a cancellation on a paid order that may be cancelled. *)
Lemma cancelOrder_paid env u id reason o db :
  orders db !! id = Some o →
  o_customerEmail o = cu_email u →
  o_status o ∈ ["pending"; "confirmed"] →
  o_paymentStatus o = "paid" →
  cancelOrder env u id reason db =
    let order1 :=
      markCancelled (now env) (orString reason "Cancelled by corporate client") o in
    let order2 := refundOrder env order1 in
    (inr (OrderCancelled order2),
     setOrders (<[id := order2]> (<[id := order1]> (orders db)))
       (setProducts (restoreStockAll (o_items o) (products db)) db)).
Proof.
  intros Ho Hmail Hstatus Hpaid.
  unfold cancelOrder, bind, gets, findOrder. rewrite Ho.
  rewrite decide_True by done.
  rewrite bool_decide_eq_true_2 by done. simpl.
  by rewrite decide_True.
Qed.

(** C3 (amended). Cancelling a paid order adds the quantity of every line
    item back to the stock and takes it off the order count, whatever the
    reconciliation did. After the reconciliation of an order of which every
    conditional decrement applied, cancelling it returns every product to
    its stock and order count from before the reconciliation. *)
Theorem cancellation_undoes_applied_decrements (env env' : Env)
    (sp : option Payment) (corpUser : CorporateUser) (id : nat)
    (reason : string) (o : Order) (db : Db) :
  orders db !! id = Some o →
  o_customerEmail o = cu_email corpUser →
  o_paymentStatus o ≠ "paid" →
  let db1 := (confirmOrder env sp (id, o) db).2 in
  let db2 := (run (cancelOrder env' corpUser id reason) db1).2 in
  products db1 = decrementStockAll (o_items o) (products db)
  ∧ products db2 = restoreStockAll (o_items o) (products db1)
  ∧ (decrementsApply (o_items o) (products db) = true →
     products db2 = products db).
Proof.
  intros Ho Hmail Hunpaid db1 db2.
  assert (products db1 = decrementStockAll (o_items o) (products db)) as E1.
  { unfold db1. by rewrite confirmOrder_unpaid. }
  assert (products db2 = restoreStockAll (o_items o) (products db1)) as E2.
  { unfold db2. rewrite run_snd.
    rewrite (cancelOrder_paid env' corpUser id reason
               (markPaid (paymentReference sp) (now env) o)).
    - done.
    - unfold db1. rewrite confirmOrder_unpaid by done. simpl.
      apply list_lookup_insert_eq. by eapply lookup_lt_Some.
    - done.
    - simpl. set_solver.
    - done. }
  split; [done|]. split; [done|].
  intros Happly. rewrite E2, E1. by apply restoreStockAll_decrementStockAll.
Qed.

Lemma cancellation_undoes_applied_decrements_witness :
  let db' := (run (cancelOrder Scenario.env0 Scenario.buyer 0 "")
                Scenario.db2).2 in
  products db' = products Scenario.db1.
Proof.
  refine (proj2 (proj2 (cancellation_undoes_applied_decrements
            Scenario.env0 Scenario.env0
            (Some {| payment_status := "SUCCESS"; cf_payment_id := Some "885544" |})
            Scenario.buyer 0 ""
            (withSession "GFT-B2B-20231114-0042" "session_1"
               (newOrder "GFT-B2B-20231114-0042" Scenario.buyer
                  Scenario.warehouse "S1"
                  [ {| gi_productId := "P"; gi_product := Scenario.productP;
                       gi_quantity := 5; gi_unitPrice := 100;
                       gi_catalogEntry := Scenario.entryP |} ]))
            Scenario.db1 _ _ _)) _).
  - vm_compute. reflexivity.
  - vm_compute. reflexivity.
  - vm_compute. discriminate.
  - vm_compute. reflexivity.
Defined.

(** C3, as stated, fails: reconciliation of the order for 3 of Q, with 2 in
    stock, removes nothing, and its cancellation adds 3 to the stock and
    takes 3 off the order count. *)
Lemma cancellation_restores_more_than_removed :
  products Scenario.db1 !! "Q" = Some Scenario.productQ
  ∧ o_items <$> orders Scenario.db1 !! 1%nat = Some [Scenario.itemQ]
  ∧ products Scenario.db2 !! "Q" = Some Scenario.productQ
  ∧ (o_status <$> orders Scenario.db2 !! 1%nat = Some "confirmed"
     ∧ o_paymentStatus <$> orders Scenario.db2 !! 1%nat = Some "paid")
  ∧ ∃ p, products Scenario.db3 !! "Q" = Some p
         ∧ p_stock p = p_stock Scenario.productQ + 3
         ∧ p_orderCount p = p_orderCount Scenario.productQ - 3.
Proof.
  split; [by vm_compute|]. split; [by vm_compute|].
  split; [by vm_compute|]. split; [split; by vm_compute|].
  eexists. split; [by vm_compute|]. split; by vm_compute.
Qed.

(** ** Reconciliation is idempotent *)

Lemma findOrders_elem orderId email db i o :
  (i, o) ∈ findOrders orderId email db ↔
  orders db !! i = Some o
  ∧ o_cashfreeOrderId o = Some orderId ∧ o_customerEmail o = email.
Proof.
  unfold findOrders. rewrite list_elem_of_In, filter_In, <- list_elem_of_In.
  rewrite elem_of_lookup_imap, andb_true_iff, !bool_decide_eq_true. simpl.
  split.
  - intros [(j & y & [= -> ->] & Hy) [? ?]]. done.
  - intros (Ho & ? & ?). split; [|done]. by exists i, o.
Qed.

Lemma confirmOrder_orders env sp e db :
  orders (confirmOrder env sp e db).2 =
    if decide (o_paymentStatus e.2 = "paid") then orders db
    else <[e.1 := markPaid (paymentReference sp) (now env) e.2]> (orders db).
Proof.
  destruct e as [j s]. simpl. case_decide.
  - by rewrite confirmOrder_paid.
  - by rewrite confirmOrder_unpaid.
Qed.

Lemma confirmOrder_returns env sp e db :
  ∃ e', confirmOrder env sp e db = (inr e', (confirmOrder env sp e db).2).
Proof.
  destruct e as [j s]. destruct (decide (o_paymentStatus s = "paid")).
  - rewrite confirmOrder_paid by done. by eexists.
  - rewrite confirmOrder_unpaid by done. by eexists.
Qed.

Lemma mapM_confirmOrder_cons env sp e l db :
  (mapM (confirmOrder env sp) (e :: l) db).2
  = (mapM (confirmOrder env sp) l (confirmOrder env sp e db).2).2.
Proof.
  simpl. unfold bind at 1.
  destruct (confirmOrder_returns env sp e db) as [e' ->]. simpl.
  unfold bind, ret.
  by destruct (mapM (confirmOrder env sp) l _) as [[r|l'] d].
Qed.

Lemma mapM_confirmOrder_returns env sp l db :
  ∃ l', mapM (confirmOrder env sp) l db
        = (inr l', (mapM (confirmOrder env sp) l db).2).
Proof.
  revert db. induction l as [|e l IH]; intros db; [by eexists|].
  rewrite mapM_confirmOrder_cons. simpl. unfold bind at 1.
  destruct (confirmOrder_returns env sp e db) as [e' ->].
  unfold bind at 1.
  destruct (IH (confirmOrder env sp e db).2) as [l' ->]. by eexists.
Qed.

(** An order already paid is skipped: a list of paid orders is returned as
    it is and nothing is written. *)
Lemma mapM_confirmOrder_all_paid env sp l db :
  Forall (λ e, o_paymentStatus e.2 = "paid") l →
  mapM (confirmOrder env sp) l db = (inr l, db).
Proof.
  induction 1 as [|[j s] l Hpaid _ IH]; [done|].
  simpl in *. unfold bind at 1. rewrite confirmOrder_paid by done.
  unfold bind at 1. by rewrite IH.
Qed.

(** After the loop, an order is paid unless the loop never met it unpaid. *)
Lemma mapM_confirmOrder_paid_after env sp l db i o' :
  orders (mapM (confirmOrder env sp) l db).2 !! i = Some o' →
  o_paymentStatus o' = "paid"
  ∨ (orders db !! i = Some o'
     ∧ ∀ s, (i, s) ∈ l → o_paymentStatus s = "paid").
Proof.
  revert db. induction l as [|[j s] l IH]; intros db.
  - intros Ho'. right. split; [done|]. intros s Hs. by apply elem_of_nil in Hs.
  - rewrite mapM_confirmOrder_cons. intros Ho'.
    destruct (IH _ Ho') as [Hpaid|[Hi Hl]]; [by left|].
    rewrite confirmOrder_orders in Hi. simpl in Hi. case_decide as Hs.
    + right. split; [done|]. intros s' [[= -> ->]|Hin]%elem_of_cons; auto.
    + apply list_lookup_insert_Some in Hi as [(-> & <- & _)|[Hne Hi]].
      * by left.
      * right. split; [done|].
        intros s' [[= -> ->]|Hin]%elem_of_cons; [done|auto].
Qed.

Lemma verifyPayment_verified env u orderId db vs db1 :
  run (verifyPayment env u orderId) db = (PaymentVerified vs, db1) →
  ∃ sp, db1 = (mapM (confirmOrder env sp)
                 (findOrders orderId (cu_email u) db) db).2.
Proof.
  unfold run, verifyPayment.
  destruct (decide (orderId = "")); [by intros [= ]|].
  destruct (getCashfreeOrder env orderId) as [st|]; [|by intros [= ]].
  destruct (decide (st ≠ "PAID")); [by intros [= ]|].
  destruct (getCashfreePayments env orderId) as [payments|]; [|by intros [= ]].
  unfold bind at 1, gets at 1.
  destruct (findOrders orderId (cu_email u) db) as [|e l] eqn:Hfound;
    [by intros [= ]|].
  unfold bind.
  match goal with |- context [mapM (confirmOrder env ?sp) _ _] =>
    destruct (mapM_confirmOrder_returns env sp (e :: l) db) as [l' Hrun];
    rewrite Hrun; simpl; intros [= _ <-]; by exists sp
  end.
Qed.

(** C2. After a successful payment reconciliation, a second reconciliation of
    the same gateway order identifier for the same buyer leaves the whole
    database as it is, whatever the gateway answers: no stock or order count
    changes and no order changes, because every matching order is in payment
    status [paid] and is skipped. *)
Theorem verifyPayment_idempotent (env1 env2 : Env) (corpUser : CorporateUser)
    (orderId : string) (db db1 : Db) (vs : list Order) :
  run (verifyPayment env1 corpUser orderId) db = (PaymentVerified vs, db1) →
  Forall (λ e, o_paymentStatus e.2 = "paid")
    (findOrders orderId (cu_email corpUser) db1)
  ∧ (run (verifyPayment env2 corpUser orderId) db1).2 = db1.
Proof.
  intros Hfirst. apply verifyPayment_verified in Hfirst as [sp ->].
  set (db1 := (mapM _ _ db).2).
  assert (Forall (λ e, o_paymentStatus e.2 = "paid")
            (findOrders orderId (cu_email corpUser) db1)) as Hall.
  { apply Forall_forall. intros [i o'] Hin. simpl.
    apply findOrders_elem in Hin as (Ho' & Hid & Hmail).
    destruct (mapM_confirmOrder_paid_after _ _ _ _ _ _ Ho') as [?|[Ho Hl]];
      [done|].
    apply Hl. by apply findOrders_elem. }
  split; [done|].
  unfold run, verifyPayment.
  destruct (decide (orderId = "")); [done|].
  destruct (getCashfreeOrder env2 orderId) as [st|]; [|done].
  destruct (decide (st ≠ "PAID")); [done|].
  destruct (getCashfreePayments env2 orderId) as [payments|]; [|done].
  unfold bind at 1, gets at 1.
  destruct (findOrders orderId (cu_email corpUser) db1) as [|e l]; [done|].
  unfold bind. by rewrite mapM_confirmOrder_all_paid.
Qed.

Lemma verifyPayment_idempotent_witness :
  Forall (λ e, o_paymentStatus e.2 = "paid")
    (findOrders "GFT-B2B-20231114-0042" (cu_email Scenario.buyer) Scenario.db2)
  ∧ (run (verifyPayment Scenario.envDown Scenario.buyer "GFT-B2B-20231114-0042")
       Scenario.db2).2 = Scenario.db2.
Proof.
  eapply (verifyPayment_idempotent Scenario.env0 Scenario.envDown
            Scenario.buyer "GFT-B2B-20231114-0042" Scenario.db1).
  vm_compute. reflexivity.
Defined.

(** ** Refund on cancellation *)

(** C6. Cancelling a paid order always answers with the cancelled order, and
    the order is stored in status [cancelled]. When the refund call succeeds
    the payment status is [refunded] and the refund identifier is stored;
    when it fails the payment status is [refund_pending] and no refund
    identifier is written. *)
Theorem cancelOrder_refund_outcome (env : Env) (corpUser : CorporateUser)
    (id : nat) (reason : string) (o : Order) (db : Db) :
  orders db !! id = Some o →
  o_customerEmail o = cu_email corpUser →
  o_status o ∈ ["pending"; "confirmed"] →
  o_paymentStatus o = "paid" →
  let request :=
    {| refund_orderId := o_cashfreeOrderId o;
       refund_amount := o_totalAmount o;
       refund_refundId := refundIdOf env o |} in
  ∃ o' db',
    run (cancelOrder env corpUser id reason) db = (OrderCancelled o', db')
    ∧ orders db' !! id = Some o'
    ∧ o_status o' = "cancelled"
    ∧ (createRefund env request = true →
       o_paymentStatus o' = "refunded"
       ∧ o_refundId o' = Some (refundIdOf env o))
    ∧ (createRefund env request = false →
       o_paymentStatus o' = "refund_pending"
       ∧ o_paymentStatus o' ≠ "refunded"
       ∧ o_refundId o' = o_refundId o).
Proof.
  intros Ho Hmail Hstatus Hpaid request.
  eexists _, _. split.
  { apply run_inr. by apply cancelOrder_paid. }
  simpl. split.
  { apply list_lookup_insert_eq. rewrite length_insert. by eapply lookup_lt_Some. }
  unfold refundOrder. simpl.
  change (refundIdOf env (markCancelled _ _ o)) with (refundIdOf env o).
  fold request. destruct (createRefund env request); simpl.
  - split; [done|]. split; [done|]. intros [=].
  - split; [done|]. split; [intros [=]|]. done.
Qed.

Lemma cancelOrder_refund_outcome_witness :
  ∃ o' db',
    run (cancelOrder Scenario.envDown Scenario.buyer 0 "budget withdrawn")
      Scenario.db2 = (OrderCancelled o', db')
    ∧ orders db' !! 0%nat = Some o'
    ∧ o_status o' = "cancelled"
    ∧ o_paymentStatus o' = "refund_pending".
Proof.
  destruct (cancelOrder_refund_outcome Scenario.envDown Scenario.buyer 0
              "budget withdrawn"
              (markPaid "885544" 1700000000000
                 (withSession "GFT-B2B-20231114-0042" "session_1"
                    (newOrder "GFT-B2B-20231114-0042" Scenario.buyer
                       Scenario.warehouse "S1"
                       [ {| gi_productId := "P"; gi_product := Scenario.productP;
                            gi_quantity := 5; gi_unitPrice := 100;
                            gi_catalogEntry := Scenario.entryP |} ])))
              Scenario.db2)
    as (o' & db' & Hrun & Hstored & Hstatus & _ & Hfail).
  - vm_compute. reflexivity.
  - vm_compute. reflexivity.
  - apply elem_of_cons. right. apply elem_of_cons. left. reflexivity.
  - vm_compute. reflexivity.
  - exists o', db'. split; [exact Hrun|]. split; [exact Hstored|].
    split; [exact Hstatus|]. apply Hfail. reflexivity.
Defined.

(** ** Quote expiry *)

#[local] Instance keepsQuote_preorder id q : PreOrder (keepsQuote id q).
Proof.
  split.
  - intros a Ha. exact Ha.
  - intros a b c Hab Hbc Ha. exact (Hbc (Hab Ha)).
Qed.

Lemma findSentQuote_not_sent id u q db :
  quotes db !! id = Some q → q_status q ≠ "sent" → findSentQuote id u db = None.
Proof.
  intros Hq Hs. unfold findSentQuote. rewrite Hq.
  rewrite (bool_decide_eq_false_2 (q_status q = "sent")) by done.
  by rewrite andb_false_r.
Qed.

(** A quote that is not in status [sent] is out of reach of every request. *)
Lemma handle_keepsQuote env u r id q :
  q_status q ≠ "sent" → Preserves (keepsQuote id q) (handle env u r).
Proof.
  intros Hs.
  assert (OrdersBlind (keepsQuote id q)) as HO by (intros os d Hd; exact Hd).
  assert (∀ id' x d, id' ≠ id →
            keepsQuote id q d (setQuotes (<[id' := x]> (quotes d)) d)) as HQ.
  { intros id' x d Hne Hd. simpl. by rewrite list_lookup_insert_ne. }
  destruct r as [items addr|orderId|oid reason|id' addr|id' reason]; simpl.
  - apply createOrder_Preserves; [tc_solve|done].
  - apply verifyPayment_Preserves; [tc_solve|done|]. intros item d Hd. exact Hd.
  - apply cancelOrder_Preserves; [tc_solve|done|]. intros item d Hd. exact Hd.
  - destruct (decide (id' = id)) as [->|Hne].
    + intros db Hq. unfold approveQuote, bind, gets.
      by rewrite (findSentQuote_not_sent id u q db).
    + unfold approveQuote. preserves; first [apply HO | by apply HQ].
  - destruct (decide (id' = id)) as [->|Hne].
    + intros db Hq. unfold rejectQuote, bind, gets.
      by rewrite (findSentQuote_not_sent id u q db).
    + unfold rejectQuote. preserves. by apply HQ.
Qed.

Lemma serve_keepsQuote rs id q db :
  q_status q ≠ "sent" →
  quotes db !! id = Some q → quotes (serve rs db) !! id = Some q.
Proof.
  intros Hs. revert db.
  induction rs as [|[[env u] r] rs IH]; intros db Hq; [done|].
  simpl. apply IH. revert Hq.
  apply (Preserves_run (keepsQuote id q)). by apply handle_keepsQuote.
Qed.

(** C7. An approval attempt on a quote in status [sent] whose validity
    deadline has passed fails with [QuoteExpired] and stores the quote in
    status [expired], changing nothing else. From then on, after any
    requests of any users, every approval attempt on that quote fails with
    the not-found answer and changes nothing. *)
Theorem approveQuote_expired (env : Env) (corpUser : CorporateUser) (id : nat)
    (shippingAddress : option Address) (q : Quote) (validUntil : Z) (db : Db) :
  quotes db !! id = Some q →
  q_corporateUserId q = Some (cu_id corpUser)
  ∨ q_contactEmail q = cu_email corpUser →
  q_status q = "sent" →
  q_validUntil q = Some validUntil →
  now env > validUntil →
  let db1 := setQuotes (<[id := withQuoteStatus "expired" q]> (quotes db)) db in
  run (approveQuote env corpUser id shippingAddress) db
  = (Fail 400 QuoteExpired, db1)
  ∧ (q_status <$> quotes db1 !! id) = Some "expired"
  ∧ ∀ rs env' corpUser' shippingAddress',
      run (approveQuote env' corpUser' id shippingAddress') (serve rs db1)
      = (Fail 404 QuoteNotFoundOrNotSent, serve rs db1).
Proof.
  intros Hq Howner Hsent Hvalid Hpassed db1.
  assert (quotes db1 !! id = Some (withQuoteStatus "expired" q)) as Hq1.
  { simpl. apply list_lookup_insert_eq. by eapply lookup_lt_Some. }
  split; [|split].
  - apply run_inl. unfold approveQuote, bind, gets, findSentQuote.
    rewrite Hq.
    assert (bool_decide (q_corporateUserId q = Some (cu_id corpUser))
            || bool_decide (q_contactEmail q = cu_email corpUser) = true) as ->.
    { apply orb_true_iff. rewrite !bool_decide_eq_true. done. }
    rewrite bool_decide_eq_true_2 by done. simpl.
    unfold deadlinePassed. rewrite Hvalid.
    by rewrite bool_decide_eq_true_2.
  - by rewrite Hq1.
  - intros rs env' u' addr'. apply run_inl.
    unfold approveQuote, bind, gets.
    rewrite (findSentQuote_not_sent id u' (withQuoteStatus "expired" q)); [done| |done].
    by apply serve_keepsQuote.
Qed.

Lemma approveQuote_expired_witness :
  let db1 := (run (approveQuote Scenario.env0 Scenario.buyer 0 None)
                Scenario.dbQ).2 in
  (run (approveQuote Scenario.env0 Scenario.buyer 0 None) Scenario.dbQ).1
  = Fail 400 QuoteExpired
  ∧ (q_status <$> quotes db1 !! 0%nat) = Some "expired"
  ∧ (run (approveQuote Scenario.env0 Scenario.buyer 0 (Some Scenario.warehouse))
       db1).1 = Fail 404 QuoteNotFoundOrNotSent.
Proof.
  destruct (approveQuote_expired Scenario.env0 Scenario.buyer 0 None
              Scenario.quote0 1699999999000 Scenario.dbQ)
    as (Hrun & Hstatus & Hlater).
  - reflexivity.
  - left. reflexivity.
  - reflexivity.
  - reflexivity.
  - reflexivity.
  - cbv zeta. rewrite Hrun. split; [reflexivity|]. split; [exact Hstatus|].
    exact (f_equal fst (Hlater [] Scenario.env0 Scenario.buyer
                          (Some Scenario.warehouse))).
Defined.

(** ** Order assembly *)

Lemma foldl_add_shift {A} (f : A → Z) (l : list A) (a : Z) :
  foldl (λ s x, s + f x) a l = a + foldr (λ x s, f x + s) 0 l.
Proof.
  revert a. induction l as [|x l IH]; intros a; simpl; [lia|].
  rewrite IH. lia.
Qed.

Lemma groupTotal_lineTotal sid xs :
  groupTotal xs = lineTotal (orderItemOf sid <$> xs).
Proof.
  unfold groupTotal, lineTotal. rewrite foldl_add_shift.
  induction xs as [|x xs IH]; [done|].
  rewrite fmap_cons. cbn [foldr orderItemOf oi_price oi_quantity].
  rewrite <- IH. lia.
Qed.

Lemma grandTotalOf_sumOfTotals os : grandTotalOf os = sumOfTotals os.
Proof. unfold grandTotalOf, sumOfTotals. by rewrite foldl_add_shift. Qed.

Lemma sumOfTotals_withSession cfid session os :
  sumOfTotals (withSession cfid session <$> os) = sumOfTotals os.
Proof.
  induction os as [|o os IH]; [done|].
  rewrite fmap_cons. unfold sumOfTotals in *. cbn [foldr]. by rewrite IH.
Qed.

(** *** The validation loop *)

Lemma validateItem_accepts g item gi db :
  accepts db item gi →
  validateItem g item db
  = (inr (groupPush (p_sellerId (gi_product gi)) gi g), db).
Proof.
  intros (He & [Hmin Hmax] & Hp & Hact & Hid & Hq & Hprice).
  unfold validateItem, bind, gets. rewrite He.
  rewrite bool_decide_eq_false_2 by lia.
  rewrite bool_decide_eq_false_2 by lia.
  rewrite Hp, Hact. simpl. unfold ret. do 3 f_equal.
  destruct gi; simpl in *. by subst.
Qed.

Lemma validateItem_inv g item db :
  (∃ m, validateItem g item db = (inl (Fail 400 m), db)
        ∧ ∀ e, findCatalogEntry (ci_productId item) db = Some e →
            (ci_quantity item < ce_minOrderQty e →
             m = MinimumOrderQuantity (ce_minOrderQty e))
            ∧ (ce_minOrderQty e ≤ ci_quantity item →
               ci_quantity item > ce_maxOrderQty e →
               m = MaximumOrderQuantity (ce_maxOrderQty e)))
  ∨ (∃ gi, accepts db item gi
           ∧ validateItem g item db
             = (inr (groupPush (p_sellerId (gi_product gi)) gi g), db)).
Proof.
  unfold validateItem, bind, gets.
  destruct (findCatalogEntry (ci_productId item) db) as [e|] eqn:He.
  2: { left. eexists. split; [done|]. by intros e [=]. }
  case_bool_decide as Hmin.
  { left. eexists. split; [done|]. intros e' [= <-]. split; [done|lia]. }
  case_bool_decide as Hmax.
  { left. eexists. split; [done|]. intros e' [= <-]. split; [lia|done]. }
  destruct (products db !! ci_productId item) as [p|] eqn:Hp.
  2: { left. eexists. split; [done|]. intros e' [= <-]. split; lia. }
  destruct (p_isActive p) eqn:Hact; simpl.
  2: { left. eexists. split; [done|]. intros e' [= <-]. split; lia. }
  right.
  exists {| gi_productId := ci_productId item; gi_product := p;
            gi_quantity := ci_quantity item;
            gi_unitPrice := orNumber (ce_corporatePrice e) (p_price p);
            gi_catalogEntry := e |}.
  split; [|done]. unfold accepts. simpl.
  repeat split; try done; lia.
Qed.

Lemma foldM_cons {A B} (f : B → A → M B) (b : B) (x : A) (l : list A) db :
  foldM f b (x :: l) db =
    match f b x db with
    | (inl r, d) => (inl r, d)
    | (inr b', d) => foldM f b' l d
    end.
Proof. reflexivity. Qed.

Lemma foldM_validateItem_inv items g db :
  (∃ m, foldM validateItem g items db = (inl (Fail 400 m), db))
  ∨ (∃ gis, Forall2 (accepts db) items gis
            ∧ foldM validateItem g items db
              = (inr (foldl (λ acc gi,
                        groupPush (p_sellerId (gi_product gi)) gi acc) g gis),
                 db)).
Proof.
  revert g. induction items as [|item items IH]; intros g.
  - right. exists []. split; [constructor|done].
  - rewrite foldM_cons.
    destruct (validateItem_inv g item db) as [(m & -> & _)|(gi & Hgi & ->)].
    + left. by exists m.
    + destruct (IH (groupPush (p_sellerId (gi_product gi)) gi g))
        as [(m & ->)|(gis & Hgis & ->)].
      * left. by exists m.
      * right. exists (gi :: gis). split; [by constructor|done].
Qed.

(** *** Grouping by seller *)

Lemma groupPush_keys sid x g :
  (groupPush sid x g).*1
  = if decide (sid ∈ g.*1) then g.*1 else g.*1 ++ [sid].
Proof.
  induction g as [|[k xs] g IH].
  - destruct (decide (sid ∈ ([] : list (string * list GroupItem)).*1))
      as [Hin|_]; [|done].
    by apply elem_of_nil in Hin.
  - cbn [groupPush]. destruct (decide (k = sid)) as [->|Hne].
    + rewrite decide_True; [done|]. rewrite fmap_cons. apply elem_of_cons. by left.
    + rewrite !fmap_cons, IH. cbn [fst].
      destruct (decide (sid ∈ g.*1)) as [Hin|Hnin].
      * rewrite decide_True; [done|]. apply elem_of_cons. by right.
      * rewrite decide_False; [done|].
        intros [?|?]%elem_of_cons; congruence.
Qed.

Lemma groupPush_elem sid x g k xs' :
  (k, xs') ∈ groupPush sid x g →
  (k, xs') ∈ g
  ∨ (k = sid ∧ ∃ xs, xs' = xs ++ [x] ∧ ((sid, xs) ∈ g ∨ xs = [])).
Proof.
  induction g as [|[k0 xs0] g IH]; simpl.
  - intros [= -> ->]%list_elem_of_singleton. right. split; [done|].
    exists []. split; [done|]. by right.
  - destruct (decide (k0 = sid)) as [->|Hne].
    + intros [[= -> ->]|Hin]%elem_of_cons.
      * right. split; [done|]. exists xs0. split; [done|]. left.
        apply elem_of_cons. by left.
      * left. apply elem_of_cons. by right.
    + intros [[= -> ->]|Hin]%elem_of_cons.
      * left. apply elem_of_cons. by left.
      * destruct (IH Hin) as [?|(-> & xs & -> & [?| ->])].
        -- left. apply elem_of_cons. by right.
        -- right. split; [done|]. exists xs. split; [done|]. left.
           apply elem_of_cons. by right.
        -- right. split; [done|]. exists []. split; [done|]. by right.
Qed.

Lemma groupPush_pushed sid x g :
  ∃ xs', (sid, xs') ∈ groupPush sid x g ∧ x ∈ xs'.
Proof.
  induction g as [|[k0 xs0] g IH]; simpl.
  - exists [x]. split; apply list_elem_of_singleton; done.
  - destruct (decide (k0 = sid)) as [->|Hne].
    + exists (xs0 ++ [x]). split; [apply elem_of_cons; by left|].
      apply elem_of_app. right. by apply list_elem_of_singleton.
    + destruct IH as (xs' & Hin & Hx). exists xs'.
      split; [apply elem_of_cons; by right|done].
Qed.

Lemma groupPush_kept sid x g k xs y :
  (k, xs) ∈ g → y ∈ xs →
  ∃ xs', (k, xs') ∈ groupPush sid x g ∧ y ∈ xs'.
Proof.
  induction g as [|[k0 xs0] g IH]; simpl.
  - by intros ?%elem_of_nil.
  - intros [[= -> ->]|Hin]%elem_of_cons Hy.
    + destruct (decide (k0 = sid)) as [->|Hne].
      * exists (xs0 ++ [x]). split; [apply elem_of_cons; by left|].
        apply elem_of_app. by left.
      * exists xs0. split; [apply elem_of_cons; by left|done].
    + destruct (decide (k0 = sid)) as [->|Hne].
      * exists xs. split; [apply elem_of_cons; by right|done].
      * destruct (IH Hin Hy) as (xs' & ? & ?). exists xs'.
        split; [apply elem_of_cons; by right|done].
Qed.

Lemma partitionsBySeller_nil : partitionsBySeller [] [].
Proof.
  repeat split.
  - constructor.
  - by intros sid xs ?%elem_of_nil.
  - by apply elem_of_nil in H.
  - by apply elem_of_nil in H.
  - by intros gi ?%elem_of_nil.
Qed.

Lemma partitionsBySeller_push g gis gi :
  partitionsBySeller g gis →
  partitionsBySeller (groupPush (p_sellerId (gi_product gi)) gi g) (gis ++ [gi]).
Proof.
  intros (Hnd & Hne & Hsub & Hall).
  set (sid := p_sellerId (gi_product gi)).
  split; [|split; [|split]].
  - rewrite groupPush_keys. case_decide; [done|].
    apply NoDup_app. split; [done|]. split; [|apply NoDup_singleton].
    intros k Hk ->%list_elem_of_singleton. done.
  - intros k xs' [Hin|(-> & xs & -> & _)]%groupPush_elem; [by eapply Hne|].
    by destruct xs.
  - intros k xs' y [Hin|(-> & xs & -> & Hxs)]%groupPush_elem Hy.
    + destruct (Hsub k xs' y Hin Hy) as [? ?]. split; [|done].
      apply elem_of_app. by left.
    + apply elem_of_app in Hy as [Hy| ->%list_elem_of_singleton].
      * destruct Hxs as [Hin| ->]; [|by apply elem_of_nil in Hy].
        destruct (Hsub _ _ _ Hin Hy) as [? ?]. split; [|done].
        apply elem_of_app. by left.
      * split; [|done]. apply elem_of_app. right.
        by apply list_elem_of_singleton.
  - intros y [Hy| ->%list_elem_of_singleton]%elem_of_app.
    + destruct (Hall y Hy) as (xs & Hin & Hyx).
      by eapply groupPush_kept.
    + apply groupPush_pushed.
Qed.

Lemma partitionsBySeller_foldl gis g gis0 :
  partitionsBySeller g gis0 →
  partitionsBySeller
    (foldl (λ acc gi, groupPush (p_sellerId (gi_product gi)) gi acc) g gis)
    (gis0 ++ gis).
Proof.
  revert g gis0. induction gis as [|gi gis IH]; intros g gis0 Hg; simpl.
  - by rewrite app_nil_r.
  - replace (gis0 ++ gi :: gis) with ((gis0 ++ [gi]) ++ gis)
      by (by rewrite <- app_assoc).
    apply IH. by apply partitionsBySeller_push.
Qed.

(** *** The creation loop and the back-fill of the session *)

Lemma createOrders_run env u address k groups db :
  createOrders env u address k groups db =
    let planned := plannedOrders env u address k groups in
    (inr (zip (seq (length (orders db)) (length planned)) planned),
     setOrders (orders db ++ planned) db).
Proof.
  revert k db. induction groups as [|[sid xs] groups IH]; intros k db.
  - simpl. rewrite app_nil_r. by destruct db.
  - cbn [createOrders plannedOrders]. unfold bind at 1.
    cbn [insertOrder]. unfold bind at 1. rewrite IH. cbn zeta.
    cbn [orders setOrders ret length seq zip zip_with].
    rewrite length_app, Nat.add_1_r. cbn [length].
    by rewrite <- app_assoc.
Qed.

Lemma plannedOrders_length env u address k groups :
  length (plannedOrders env u address k groups) = length groups.
Proof.
  revert k. induction groups as [|[sid xs] groups IH]; intros k; simpl; [done|].
  by rewrite IH.
Qed.

Lemma attachSession_run cfid session os pre db :
  orders db = pre ++ os →
  mapM (attachSession cfid session) (zip (seq (length pre) (length os)) os) db
  = (inr (zip (seq (length pre) (length os)) (withSession cfid session <$> os)),
     setOrders (pre ++ (withSession cfid session <$> os)) db).
Proof.
  revert pre db. induction os as [|o os IH]; intros pre db Hdb.
  - simpl. rewrite app_nil_r in *. rewrite <- Hdb. by destruct db.
  - cbn [length seq zip zip_with mapM fmap list_fmap]. unfold bind at 1.
    unfold attachSession at 1. unfold bind at 1. cbn [saveOrder modify fst snd ret].
    unfold bind at 1.
    assert (<[length pre := withSession cfid session o]> (orders db)
            = (pre ++ [withSession cfid session o]) ++ os) as Hins.
    { rewrite Hdb, insert_app_r_alt by lia. rewrite Nat.sub_diag. simpl.
      by rewrite <- app_assoc. }
    rewrite Hins.
    specialize (IH (pre ++ [withSession cfid session o])
                  (setOrders ((pre ++ [withSession cfid session o]) ++ os) db)
                  eq_refl).
    rewrite length_app, Nat.add_1_r in IH. cbn [length] in IH.
    rewrite IH. cbn [ret setOrders]. by rewrite <- app_assoc.
Qed.

(** The run of order assembly on a request that passes validation. *)
Lemma createOrder_run env u item items address groups db :
  foldM validateItem [] (item :: items) db = (inr groups, db) →
  createOrder env u (item :: items) (Some address) db =
    let planned := plannedOrders env u address 0 groups in
    match planned with
    | [] => (inl (Fail 500 FailedToCreateOrder), db)
    | first :: _ =>
        let cfOrderId := o_orderNumber first in
        match createCashfreeOrder env
                (sessionRequest env u
                   (orString (cu_phone u) (addr_phone address))
                   cfOrderId (grandTotalOf planned)) with
        | None =>
            (inl (Fail 500 FailedToCreateOrder),
             setOrders (orders db ++ planned) db)
        | Some session =>
            let final := withSession cfOrderId session <$> planned in
            (inr (OrderCreated final
                    {| info_orderId := cfOrderId;
                       info_paymentSessionId := session;
                       info_orderAmount := grandTotalOf planned |}),
             setOrders (orders db ++ final) db)
        end
    end.
Proof.
  intros Hvalid. unfold createOrder. unfold bind at 1. rewrite Hvalid.
  unfold bind at 1. rewrite createOrders_run. cbn zeta.
  destruct (plannedOrders env u address 0 groups) as [|first planned] eqn:Hplan.
  - simpl. rewrite app_nil_r. by destruct db.
  - cbn [length seq zip zip_with]. cbv beta iota. cbn [snd].
    rewrite fmap_cons. cbn [snd].
    rewrite snd_zip by (by rewrite length_seq).
    destruct (createCashfreeOrder env _) as [session|]; [|done].
    unfold bind at 1.
    pose proof (attachSession_run (o_orderNumber first) session
                  (first :: planned) (orders db)
                  (setOrders (orders db ++ first :: planned) db) eq_refl) as Hrun.
    cbn [length seq zip zip_with fmap list_fmap] in Hrun. rewrite Hrun.
    cbn [ret]. rewrite !fmap_cons. cbn [snd].
    rewrite snd_zip by (rewrite length_fmap, length_seq; lia).
    done.
Qed.

Lemma plannedOrders_elem env u address k groups o :
  o ∈ plannedOrders env u address k groups →
  ∃ sid xs number, (sid, xs) ∈ groups ∧ o = newOrder number u address sid xs.
Proof.
  revert k. induction groups as [|[sid xs] groups IH]; intros k; simpl.
  - by intros ?%elem_of_nil.
  - intros [->|Hin]%elem_of_cons.
    + eexists sid, xs, _. split; [apply elem_of_cons; by left|done].
    + destruct (IH _ Hin) as (sid' & xs' & number & ? & ?).
      exists sid', xs', number. split; [apply elem_of_cons; by right|done].
Qed.

Lemma plannedOrders_sellerIds env u address k groups :
  o_sellerId <$> plannedOrders env u address k groups = Some <$> groups.*1.
Proof.
  revert k. induction groups as [|[sid xs] groups IH]; intros k; [done|].
  cbn [plannedOrders]. rewrite !fmap_cons. by rewrite IH.
Qed.

(** What a successful order assembly has done. *)
Lemma createOrder_created_inv env u items addr db created info db' :
  run (createOrder env u items addr) db = (OrderCreated created info, db') →
  ∃ address gis first rest session,
    let groups :=
      foldl (λ acc gi, groupPush (p_sellerId (gi_product gi)) gi acc) [] gis in
    let planned := plannedOrders env u address 0 groups in
    addr = Some address
    ∧ Forall2 (accepts db) items gis
    ∧ planned = first :: rest
    ∧ createCashfreeOrder env
        (sessionRequest env u (orString (cu_phone u) (addr_phone address))
           (o_orderNumber first) (grandTotalOf planned)) = Some session
    ∧ created = (withSession (o_orderNumber first) session <$> planned)
    ∧ info = {| info_orderId := o_orderNumber first;
                info_paymentSessionId := session;
                info_orderAmount := grandTotalOf planned |}
    ∧ db' = setOrders (orders db ++ created) db.
Proof.
  destruct items as [|item items]; [by intros [=]|].
  destruct addr as [address|]; [|by intros [=]].
  destruct (foldM_validateItem_inv (item :: items) [] db)
    as [(m & Hbad)|(gis & Hgis & Hgood)].
  { unfold run, createOrder. unfold bind at 1. rewrite Hbad. by intros [=]. }
  unfold run. rewrite (createOrder_run _ _ _ _ _ _ _ Hgood). cbn zeta.
  destruct (plannedOrders env u address 0 _) as [|first rest] eqn:Hplan;
    [by intros [=]|].
  destruct (createCashfreeOrder env _) as [session|] eqn:Hsession;
    [|by intros [=]].
  intros [= <- <- <-].
  exists address, gis, first, rest, session. cbn zeta. rewrite Hplan.
  by repeat split.
Qed.

Lemma accepted_sellers db items gis sid :
  Forall2 (accepts db) items gis →
  (∃ gi, gi ∈ gis ∧ p_sellerId (gi_product gi) = sid)
  ↔ (∃ item p, item ∈ items ∧ products db !! ci_productId item = Some p
               ∧ p_sellerId p = sid).
Proof.
  intros Hacc. split.
  - intros (gi & [i Hi]%list_elem_of_lookup & Hsid).
    destruct (Forall2_lookup_r _ _ _ _ _ Hacc Hi) as (item & Hitem & Ha).
    exists item, (gi_product gi). split; [by eapply list_elem_of_lookup_2|].
    destruct Ha as (_ & _ & Hp & _). done.
  - intros (item & p & [i Hi]%list_elem_of_lookup & Hp & Hsid).
    destruct (Forall2_lookup_l _ _ _ _ _ Hacc Hi) as (gi & Hgi & Ha).
    exists gi. split; [by eapply list_elem_of_lookup_2|].
    destruct Ha as (_ & _ & Hp' & _). congruence.
Qed.

(** C4. A successful order assembly has created one order per distinct
    seller of the products of the cart: the sellers of the created orders
    are pairwise distinct and are the sellers of the cart's products. The
    total of every order is the sum of price times quantity over its own
    line items, which all carry the seller of the order. All orders carry
    the same gateway order identifier and the same payment session, and that
    session was obtained by a request for the sum of the totals of the
    orders. *)
Theorem createOrder_one_order_per_seller (env : Env) (corpUser : CorporateUser)
    (items : list CartItem) (shippingAddress : option Address) (db db' : Db)
    (created : list Order) (info : CashfreeOrderInfo) :
  run (createOrder env corpUser items shippingAddress) db
  = (OrderCreated created info, db') →
  NoDup (o_sellerId <$> created)
  ∧ (∀ sid, Some sid ∈ o_sellerId <$> created ↔
       ∃ item p, item ∈ items ∧ products db !! ci_productId item = Some p
                 ∧ p_sellerId p = sid)
  ∧ Forall (λ o, o_totalAmount o = lineTotal (o_items o)
                 ∧ Forall (λ i, oi_sellerId i = o_sellerId o) (o_items o))
      created
  ∧ Forall (λ o, o_cashfreeOrderId o = Some (info_orderId info)
                 ∧ o_paymentSessionId o = Some (info_paymentSessionId info))
      created
  ∧ (∃ request,
       createCashfreeOrder env request = Some (info_paymentSessionId info)
       ∧ req_orderId request = info_orderId info
       ∧ req_orderAmount request = sumOfTotals created)
  ∧ info_orderAmount info = sumOfTotals created
  ∧ orders db' = orders db ++ created.
Proof.
  intros Hrun.
  apply createOrder_created_inv in Hrun
    as (address & gis & first & rest & session & Haddr & Hacc & Hplan
        & Hsession & -> & -> & ->).
  set (groups := foldl _ [] gis) in *.
  set (planned := plannedOrders env corpUser address 0 groups) in *.
  assert (partitionsBySeller groups gis) as (Hnd & Hne & Hsub & Hall).
  { apply (partitionsBySeller_foldl gis [] []), partitionsBySeller_nil. }
  assert (o_sellerId <$> (withSession (o_orderNumber first) session <$> planned)
          = Some <$> groups.*1) as Hsellers.
  { rewrite <- (plannedOrders_sellerIds env corpUser address 0).
    by rewrite <- list_fmap_compose. }
  assert (sumOfTotals (withSession (o_orderNumber first) session <$> planned)
          = grandTotalOf planned) as Hsum.
  { by rewrite grandTotalOf_sumOfTotals, sumOfTotals_withSession. }
  split; [|split; [|split; [|split; [|split; [|split]]]]].
  - rewrite Hsellers. apply (NoDup_fmap_2 _). done.
  - intros sid. rewrite Hsellers, <- (accepted_sellers db items gis sid Hacc).
    rewrite (list_elem_of_fmap_inj Some). split.
    + intros [[sid' xs] [Hk Hin]]%list_elem_of_fmap. simpl in Hk. subst sid'.
      destruct xs as [|gi xs]; [by apply Hne in Hin|].
      exists gi. apply (Hsub sid (gi :: xs) gi Hin). apply elem_of_cons. by left.
    + intros (gi & Hgi & <-). destruct (Hall gi Hgi) as (xs & Hin & _).
      apply list_elem_of_fmap. by exists (p_sellerId (gi_product gi), xs).
  - apply Forall_forall. intros o [o0 [-> Ho0]]%list_elem_of_fmap.
    apply plannedOrders_elem in Ho0 as (sid & xs & number & _ & ->). simpl.
    split; [apply groupTotal_lineTotal|].
    apply Forall_forall. by intros i [gi [-> _]]%list_elem_of_fmap.
  - apply Forall_forall. by intros o [o0 [-> _]]%list_elem_of_fmap.
  - eexists. split; [exact Hsession|]. split; [done|]. simpl. by rewrite Hsum.
  - simpl. by rewrite Hsum.
  - done.
Qed.

Lemma createOrder_one_order_per_seller_witness :
  ∃ created info,
    (run (createOrder Scenario.env0 Scenario.buyer Scenario.cart
            (Some Scenario.warehouse)) Scenario.db0).1
    = OrderCreated created info
    ∧ o_sellerId <$> created = [Some "S1"; Some "S2"]
    ∧ o_totalAmount <$> created = [500; 150]
    ∧ NoDup (o_sellerId <$> created)
    ∧ info_orderAmount info = sumOfTotals created
    ∧ info_orderAmount info = 650.
Proof.
  eexists _, _. split; [vm_compute; reflexivity|].
  split; [reflexivity|]. split; [reflexivity|].
  split; [|split; [|reflexivity]].
  - eapply (createOrder_one_order_per_seller Scenario.env0 Scenario.buyer
              Scenario.cart (Some Scenario.warehouse) Scenario.db0).
    vm_compute. reflexivity.
  - eapply (createOrder_one_order_per_seller Scenario.env0 Scenario.buyer
              Scenario.cart (Some Scenario.warehouse) Scenario.db0).
    vm_compute. reflexivity.
Defined.

Lemma foldM_validateItem_accepts items gis g db :
  Forall2 (accepts db) items gis →
  foldM validateItem g items db
  = (inr (foldl (λ acc gi, groupPush (p_sellerId (gi_product gi)) gi acc) g gis),
     db).
Proof.
  intros Hacc. revert g.
  induction Hacc as [|item gi items gis Hgi _ IH]; intros g; [done|].
  rewrite foldM_cons, (validateItem_accepts _ _ _ _ Hgi). apply IH.
Qed.

(** ** Effective unit price *)

(** C9 (amended). Every line item of an order created by order assembly
    comes from an item of the cart, with the same product and quantity; its
    price is the corporate price of the active catalog entry of the product
    when that price is present and not zero, and the base price of the
    product when the corporate price is absent or zero. *)
Theorem createOrder_unit_price (env : Env) (corpUser : CorporateUser)
    (items : list CartItem) (shippingAddress : option Address) (db db' : Db)
    (created : list Order) (info : CashfreeOrderInfo)
    (o : Order) (i : OrderItem) :
  run (createOrder env corpUser items shippingAddress) db
  = (OrderCreated created info, db') →
  o ∈ created →
  i ∈ o_items o →
  ∃ item e p,
    item ∈ items
    ∧ ci_productId item = oi_productId i
    ∧ ci_quantity item = oi_quantity i
    ∧ findCatalogEntry (oi_productId i) db = Some e
    ∧ products db !! oi_productId i = Some p
    ∧ (∀ c, ce_corporatePrice e = Some c → c ≠ 0 → oi_price i = c)
    ∧ (ce_corporatePrice e = None ∨ ce_corporatePrice e = Some 0 →
       oi_price i = p_price p).
Proof.
  intros Hrun Ho Hi.
  apply createOrder_created_inv in Hrun
    as (address & gis & first & rest & session & Haddr & Hacc & Hplan
        & Hsession & -> & -> & ->).
  apply list_elem_of_fmap in Ho as (o0 & -> & Ho0).
  apply plannedOrders_elem in Ho0 as (sid & xs & number & Hgroup & ->).
  simpl in Hi. apply list_elem_of_fmap in Hi as (gi & -> & Hgi).
  destruct (partitionsBySeller_foldl gis [] [] partitionsBySeller_nil)
    as (_ & _ & Hsub & _).
  destruct (Hsub sid xs gi Hgroup Hgi) as [[n Hn]%list_elem_of_lookup _].
  destruct (Forall2_lookup_r _ _ _ _ _ Hacc Hn) as (item & Hitem & Ha).
  destruct Ha as (He & _ & Hp & _ & Hid & Hq & Hprice).
  exists item, (gi_catalogEntry gi), (gi_product gi). simpl.
  split; [by eapply list_elem_of_lookup_2|].
  rewrite Hid. repeat split; try done.
  - intros c Hc Hc0. rewrite Hprice, Hc. unfold orNumber.
    by destruct (decide (c = 0)).
  - intros [Hc|Hc]; rewrite Hprice, Hc; unfold orNumber; [done|].
    by destruct (decide (0 = 0)).
Qed.

Lemma createOrder_unit_price_witness :
  ∃ item e p,
    item ∈ Scenario.cart
    ∧ ci_productId item = "P" ∧ ci_quantity item = 5
    ∧ findCatalogEntry "P" Scenario.db0 = Some e
    ∧ products Scenario.db0 !! "P" = Some p
    ∧ (∀ c, ce_corporatePrice e = Some c → c ≠ 0 → 100 = c)
    ∧ (ce_corporatePrice e = None ∨ ce_corporatePrice e = Some 0 →
       100 = p_price p).
Proof.
  eapply (createOrder_unit_price Scenario.env0 Scenario.buyer Scenario.cart
            (Some Scenario.warehouse) Scenario.db0 _ _ _
            (withSession "GFT-B2B-20231114-0042" "session_1"
               (newOrder "GFT-B2B-20231114-0042" Scenario.buyer
                  Scenario.warehouse "S1"
                  [ {| gi_productId := "P"; gi_product := Scenario.productP;
                       gi_quantity := 5; gi_unitPrice := 100;
                       gi_catalogEntry := Scenario.entryP |} ]))
            {| oi_productId := "P"; oi_title := "Hamper"; oi_price := 100;
               oi_image := ""; oi_sku := "P-1"; oi_quantity := 5;
               oi_sellerId := Some "S1" |}).
  - vm_compute. reflexivity.
  - apply elem_of_cons. left. reflexivity.
  - apply elem_of_cons. left. reflexivity.
Defined.

(** C9, as stated, fails when the override is set to zero: the catalog entry
    of Z carries the corporate price 0, and the order stores the base price
    50 of the product. *)
Lemma zero_corporate_price_is_ignored :
  findCatalogEntry "Z" Scenario.dbZ = Some Scenario.entryZ
  ∧ ce_corporatePrice Scenario.entryZ = Some 0
  ∧ products Scenario.dbZ !! "Z" = Some Scenario.productZ
  ∧ p_price Scenario.productZ = 50
  ∧ ∃ o info db',
      run (createOrder Scenario.env0 Scenario.buyer Scenario.cartZ
             (Some Scenario.warehouse)) Scenario.dbZ
      = (OrderCreated [o] info, db')
      ∧ (oi_productId <$> o_items o) = ["Z"]
      ∧ (oi_price <$> o_items o) = [50]
      ∧ (oi_price <$> o_items o) ≠ [0].
Proof.
  split; [by vm_compute|]. split; [done|]. split; [by vm_compute|].
  split; [done|]. eexists _, _, _. split; [vm_compute; reflexivity|].
  split; [done|]. split; [done|]. discriminate.
Qed.

(** ** Quantity bounds *)

Lemma validateItem_out_of_range g item e db :
  findCatalogEntry (ci_productId item) db = Some e →
  ci_quantity item < ce_minOrderQty e ∨ ce_maxOrderQty e < ci_quantity item →
  validateItem g item db
  = (inl (Fail 400
            (if bool_decide (ci_quantity item < ce_minOrderQty e)
             then MinimumOrderQuantity (ce_minOrderQty e)
             else MaximumOrderQuantity (ce_maxOrderQty e))), db).
Proof.
  intros He Hout. unfold validateItem, bind, gets. rewrite He.
  case_bool_decide; [done|]. by rewrite bool_decide_eq_true_2 by lia.
Qed.

Lemma accepts_in_range db item gi e :
  accepts db item gi →
  findCatalogEntry (ci_productId item) db = Some e →
  ce_minOrderQty e ≤ ci_quantity item ≤ ce_maxOrderQty e.
Proof. intros (He & Hrange & _) He'. by simplify_eq. Qed.

(** C5 (amended). A request with an item whose quantity is outside the range
    of its active catalog entry is answered with a failure of status 400 and
    leaves the database as it was. When a shipping address is given and
    every item before that one passes validation, the failure names the
    bound that is breached: the minimum when the quantity is below it, the
    maximum otherwise. *)
Theorem createOrder_quantity_out_of_range (env : Env) (corpUser : CorporateUser)
    (items : list CartItem) (shippingAddress : option Address) (db : Db)
    (item : CartItem) (e : CatalogEntry) :
  item ∈ items →
  findCatalogEntry (ci_productId item) db = Some e →
  ci_quantity item < ce_minOrderQty e ∨ ce_maxOrderQty e < ci_quantity item →
  (∃ m, run (createOrder env corpUser items shippingAddress) db
        = (Fail 400 m, db))
  ∧ (∀ before after address gis,
       items = before ++ item :: after →
       shippingAddress = Some address →
       Forall2 (accepts db) before gis →
       run (createOrder env corpUser items shippingAddress) db
       = (Fail 400
            (if bool_decide (ci_quantity item < ce_minOrderQty e)
             then MinimumOrderQuantity (ce_minOrderQty e)
             else MaximumOrderQuantity (ce_maxOrderQty e)), db)).
Proof.
  intros Hin He Hout. split.
  - destruct items as [|item0 items0] eqn:Hitems; [by apply elem_of_nil in Hin|].
    destruct shippingAddress as [address|]; [|by eexists].
    rewrite <- Hitems in *. clear Hitems.
    destruct (foldM_validateItem_inv items [] db)
      as [(m & Hbad)|(gis & Hacc & _)].
    + exists m. apply run_inl. unfold createOrder.
      destruct items; [by apply elem_of_nil in Hin|].
      unfold bind at 1. by rewrite Hbad.
    + apply list_elem_of_lookup in Hin as [n Hn].
      destruct (Forall2_lookup_l _ _ _ _ _ Hacc Hn) as (gi & _ & Ha).
      pose proof (accepts_in_range _ _ _ _ Ha He). lia.
  - intros before after address gis -> -> Hacc. apply run_inl.
    assert (∀ g, foldM validateItem g (before ++ item :: after) db
                 = (inl (Fail 400
                      (if bool_decide (ci_quantity item < ce_minOrderQty e)
                       then MinimumOrderQuantity (ce_minOrderQty e)
                       else MaximumOrderQuantity (ce_maxOrderQty e))), db))
      as Hloop.
    { clear Hin. induction Hacc as [|item0 gi0 before gis Hgi _ IH]; intros g.
      - cbn [app]. rewrite foldM_cons.
        by rewrite (validateItem_out_of_range _ _ _ _ He Hout).
      - cbn [app]. rewrite foldM_cons, (validateItem_accepts _ _ _ _ Hgi).
        apply IH. }
    unfold createOrder. destruct (before ++ item :: after) eqn:Hitems.
    { by destruct before. }
    unfold bind at 1. by rewrite Hloop.
Qed.

Lemma createOrder_quantity_out_of_range_witness :
  run (createOrder Scenario.env0 Scenario.buyer
         [ {| ci_productId := "Q"; ci_quantity := 3 |};
           {| ci_productId := "P"; ci_quantity := 11 |} ]
         (Some Scenario.warehouse)) Scenario.db0
  = (Fail 400 (MaximumOrderQuantity 10), Scenario.db0).
Proof.
  refine (proj2 (createOrder_quantity_out_of_range Scenario.env0 Scenario.buyer
            [ {| ci_productId := "Q"; ci_quantity := 3 |};
              {| ci_productId := "P"; ci_quantity := 11 |} ]
            (Some Scenario.warehouse) Scenario.db0
            {| ci_productId := "P"; ci_quantity := 11 |} Scenario.entryP
            _ _ _)
          [ {| ci_productId := "Q"; ci_quantity := 3 |} ] []
          Scenario.warehouse
          [ {| gi_productId := "Q"; gi_product := Scenario.productQ;
               gi_quantity := 3; gi_unitPrice := 50;
               gi_catalogEntry := Scenario.entryQ |} ] _ _ _).
  - apply elem_of_cons. right. apply elem_of_cons. left. reflexivity.
  - reflexivity.
  - right. simpl. lia.
  - reflexivity.
  - reflexivity.
  - repeat constructor; try reflexivity; simpl; lia.
Defined.

(** C5, as stated, fails when an earlier item fails another check: the cart
    holds 1 of P, below the minimum of 2, after a product that is not in
    the catalog, and the answer names the missing product, not a quantity
    bound. *)
Lemma out_of_range_item_after_unlisted_product :
  (∃ item e, item ∈ Scenario.cartBad
             ∧ findCatalogEntry (ci_productId item) Scenario.db0 = Some e
             ∧ ci_quantity item < ce_minOrderQty e)
  ∧ run (createOrder Scenario.env0 Scenario.buyer Scenario.cartBad
           (Some Scenario.warehouse)) Scenario.db0
    = (Fail 400 (NotInCatalog "X"), Scenario.db0)
  ∧ ∀ bound,
      (run (createOrder Scenario.env0 Scenario.buyer Scenario.cartBad
              (Some Scenario.warehouse)) Scenario.db0).1
      ≠ Fail 400 (MinimumOrderQuantity bound)
      ∧ (run (createOrder Scenario.env0 Scenario.buyer Scenario.cartBad
                (Some Scenario.warehouse)) Scenario.db0).1
        ≠ Fail 400 (MaximumOrderQuantity bound).
Proof.
  split; [|split].
  - exists {| ci_productId := "P"; ci_quantity := 1 |}, Scenario.entryP.
    split; [|split; [reflexivity|simpl; lia]].
    apply elem_of_cons. right. apply elem_of_cons. by left.
  - reflexivity.
  - intros bound. split; discriminate.
Qed.

(** * Further properties of the code *)

(** ** Phone numbers and order numbers *)

Lemma stripNonDigits_allDigits s : allDigits (stripNonDigits s) = true.
Proof.
  induction s as [|c s IH]; [done|]. simpl.
  destruct (isDigit c) eqn:Hc; [|done]. simpl. by rewrite Hc.
Qed.

Lemma stripNonDigits_id s : allDigits s = true → stripNonDigits s = s.
Proof.
  induction s as [|c s IH]; [done|]. simpl.
  intros [Hc Hs]%andb_true_iff. rewrite Hc. by rewrite IH.
Qed.

Lemma substring_allDigits n m s :
  allDigits s = true → allDigits (String.substring n m s) = true.
Proof.
  revert n m. induction s as [|c s IH]; intros n m Hs.
  - by destruct n, m.
  - simpl in Hs. apply andb_true_iff in Hs as [Hc Hs].
    destruct n as [|n]; [destruct m as [|m]|]; simpl; [done| |by apply IH].
    rewrite Hc. by apply IH.
Qed.

Lemma substring_length n m s :
  (n + m ≤ String.length s)%nat → String.length (String.substring n m s) = m.
Proof.
  revert n m. induction s as [|c s IH]; intros n m Hlen; simpl in Hlen.
  - assert (n = 0%nat ∧ m = 0%nat) as [-> ->] by lia. done.
  - destruct n as [|n]; [destruct m as [|m]|]; simpl; [done| |].
    + f_equal. apply IH. lia.
    + apply IH. lia.
Qed.

Lemma substring_all s : String.substring 0 (String.length s) s = s.
Proof. induction s as [|c s IH]; [done|]. simpl. by rewrite IH. Qed.

Lemma normalizePhone_shape phone :
  String.length (normalizePhone phone) = 10%nat
  ∧ allDigits (normalizePhone phone) = true.
Proof.
  unfold normalizePhone. cbv zeta.
  set (digits := stripNonDigits (orString phone "")).
  destruct (10 <=? String.length digits)%nat eqn:Hlen; [|done].
  apply Nat.leb_le in Hlen. split.
  - apply substring_length. lia.
  - apply substring_allDigits, stripNonDigits_allDigits.
Qed.

Lemma substring_suffix n s :
  (n ≤ String.length s)%nat →
  ∃ front, s = front +:+ String.substring n (String.length s - n) s
           ∧ String.length front = n.
Proof.
  revert n. induction s as [|c s IH]; intros n Hn.
  - exists "". destruct n; [done|simpl in Hn; lia].
  - destruct n as [|n].
    + exists "". split; [|done]. cbn [String.append].
      rewrite Nat.sub_0_r. by rewrite substring_all.
    + simpl in Hn. destruct (IH n) as (front & Hfront & Hlen); [lia|].
      exists (String c front). split; [|simpl; by rewrite Hlen].
      simpl.
      change (String c s
              = String c (front +:+ String.substring n (String.length s - n) s)).
      by rewrite <- Hfront.
Qed.

(** X1. [normalizePhone] always returns ten ASCII digits, whatever it is
    given. When the input holds at least ten digits the result is the last
    ten of them: the digits of the input, in order, are some digits followed
    by the result. When the input holds fewer than ten digits the result is
    the placeholder. *)
Theorem normalizePhone_ten_digits (phone : string) :
  let digits := stripNonDigits phone in
  String.length (normalizePhone phone) = 10%nat
  ∧ allDigits (normalizePhone phone) = true
  ∧ ((10 ≤ String.length digits)%nat →
       ∃ front, digits = front +:+ normalizePhone phone)
  ∧ ((String.length digits < 10)%nat → normalizePhone phone = "9999999999").
Proof.
  cbv zeta. destruct (normalizePhone_shape phone) as [Hlen Hdigits].
  split; [done|]. split; [done|].
  assert (orString phone "" = phone) as Hor.
  { unfold orString. by destruct (decide (phone = "")) as [->|]. }
  unfold normalizePhone. cbv zeta. rewrite Hor.
  set (digits := stripNonDigits phone). split.
  - intros Hten. rewrite (proj2 (Nat.leb_le _ _) Hten).
    destruct (substring_suffix (String.length digits - 10) digits)
      as (front & Hfront & _); [lia|].
    exists front.
    by replace (String.length digits - (String.length digits - 10))%nat
      with 10%nat in Hfront by lia.
  - intros Hless. by rewrite (proj2 (Nat.leb_gt _ _) Hless).
Qed.

Lemma normalizePhone_fixed s :
  String.length s = 10%nat → allDigits s = true → normalizePhone s = s.
Proof.
  intros Hlen Hs. unfold normalizePhone, orString. cbv zeta.
  destruct (decide (s = "")) as [->|_]; [done|].
  rewrite stripNonDigits_id, Hlen by done. simpl Nat.leb. cbv iota.
  replace (10 - 10)%nat with 0%nat by done.
  rewrite <- Hlen at 1. apply substring_all.
Qed.

(** X2. Normalising a phone number twice is the same as normalising it once:
    a number of exactly ten digits is kept as it is. *)
Theorem normalizePhone_idempotent (phone : string) :
  normalizePhone (normalizePhone phone) = normalizePhone phone.
Proof.
  destruct (normalizePhone_shape phone) as [Hlen Hs].
  by apply normalizePhone_fixed.
Qed.

Lemma append_inj_length (a a' b b' : string) :
  String.length a = String.length a' →
  a +:+ b = a' +:+ b' → a = a' ∧ b = b'.
Proof.
  revert a'. induction a as [|c a IH]; intros [|c' a'] Hlen Heq;
    simpl in *; try done.
  injection Heq as -> Heq. destruct (IH a') as [-> ->]; [lia|done|done].
Qed.

Lemma generateOrderNumber_inj (date date' rand rand' : string) :
  String.length date = String.length date' →
  generateOrderNumber date rand = generateOrderNumber date' rand' →
  date = date' ∧ rand = rand'.
Proof.
  unfold generateOrderNumber. intros Hlen Heq.
  apply (inj (String.app "GFT-B2B-")) in Heq.
  apply append_inj_length in Heq as [-> Heq]; [|done].
  split; [done|]. by apply (inj (String.app "-")) in Heq.
Qed.

(** ** Order assembly: what is written and what is charged *)

Lemma groupPush_concat sid x g :
  concat (groupPush sid x g).*2 ≡ₚ concat g.*2 ++ [x].
Proof.
  induction g as [|[k xs] g IH]; [done|].
  cbn [groupPush]. destruct (decide (k = sid)) as [->|Hne].
  - rewrite !fmap_cons. cbn [snd concat].
    rewrite <- !app_assoc. apply Permutation_app_head, Permutation_app_comm.
  - rewrite !fmap_cons. cbn [snd concat]. rewrite IH. by rewrite app_assoc.
Qed.

Lemma foldl_groupPush_concat gis g :
  concat (foldl (λ acc gi, groupPush (p_sellerId (gi_product gi)) gi acc) g gis).*2
  ≡ₚ concat g.*2 ++ gis.
Proof.
  revert g. induction gis as [|gi gis IH]; intros g; simpl.
  - by rewrite app_nil_r.
  - rewrite IH, groupPush_concat. by rewrite <- app_assoc.
Qed.

Lemma plannedOrders_items env u address k groups :
  (∀ sid xs gi, (sid, xs) ∈ groups → gi ∈ xs →
     p_sellerId (gi_product gi) = sid) →
  concat (o_items <$> plannedOrders env u address k groups)
  = (λ gi, orderItemOf (p_sellerId (gi_product gi)) gi) <$> concat groups.*2.
Proof.
  revert k. induction groups as [|[sid xs] groups IH]; intros k Hsid; [done|].
  cbn [plannedOrders]. rewrite !fmap_cons. cbn [concat snd newOrder o_items].
  rewrite fmap_app. f_equal.
  - apply list_fmap_ext. intros i gi Hgi.
    rewrite (Hsid sid xs gi); [done|apply elem_of_cons; by left|].
    by eapply list_elem_of_lookup_2.
  - apply IH. intros sid' xs' gi Hin. apply Hsid. apply elem_of_cons. by right.
Qed.

Lemma lineTotal_app a b : lineTotal (a ++ b) = lineTotal a + lineTotal b.
Proof. induction a as [|i a IH]; simpl; [done|]. rewrite IH. lia. Qed.

Lemma lineTotal_perm a b : a ≡ₚ b → lineTotal a = lineTotal b.
Proof. induction 1; simpl; lia. Qed.

Lemma sumOfTotals_lineTotal os :
  Forall (λ o, o_totalAmount o = lineTotal (o_items o)) os →
  sumOfTotals os = lineTotal (concat (o_items <$> os)).
Proof.
  induction 1 as [|o os Ho _ IH]; [done|].
  rewrite fmap_cons. cbn [concat]. rewrite lineTotal_app, <- IH, <- Ho. done.
Qed.

Lemma accepts_cartLine db item gi :
  accepts db item gi →
  cartLine db item = Some (orderItemOf (p_sellerId (gi_product gi)) gi).
Proof.
  intros (He & _ & Hp & _ & Hid & Hq & Hprice).
  unfold cartLine, orderItemOf. rewrite He, Hp. by rewrite Hid, Hq, Hprice.
Qed.

(** X3. A successful order assembly turns every item of the cart into exactly
    one line item of exactly one of the created orders: the line items of
    the created orders, taken together, are a rearrangement of the lines of
    the cart, and the amount asked of the gateway is the sum of price times
    quantity over the lines of the cart. *)
Theorem createOrder_cart_conserved (env : Env) (corpUser : CorporateUser)
    (items : list CartItem) (shippingAddress : option Address) (db db' : Db)
    (created : list Order) (info : CashfreeOrderInfo) :
  run (createOrder env corpUser items shippingAddress) db
  = (OrderCreated created info, db') →
  ∃ lines,
    Forall2 (λ item line, cartLine db item = Some line) items lines
    ∧ concat (o_items <$> created) ≡ₚ lines
    ∧ info_orderAmount info = lineTotal lines.
Proof.
  intros Hrun.
  apply createOrder_created_inv in Hrun
    as (address & gis & first & rest & session & Haddr & Hacc & Hplan
        & Hsession & -> & -> & ->).
  set (groups := foldl _ [] gis) in *.
  set (planned := plannedOrders env corpUser address 0 groups) in *.
  exists ((λ gi, orderItemOf (p_sellerId (gi_product gi)) gi) <$> gis).
  assert (o_items <$> (withSession (o_orderNumber first) session <$> planned)
          = o_items <$> planned) as Hitems.
  { by rewrite <- list_fmap_compose. }
  assert (concat (o_items <$> planned)
          ≡ₚ (λ gi, orderItemOf (p_sellerId (gi_product gi)) gi) <$> gis)
    as Hperm.
  { unfold planned. rewrite plannedOrders_items.
    - apply fmap_Permutation. apply (foldl_groupPush_concat gis []).
    - destruct (partitionsBySeller_foldl gis [] [] partitionsBySeller_nil)
        as (_ & _ & Hsub & _).
      intros sid xs gi Hin Hgi. by destruct (Hsub sid xs gi Hin Hgi). }
  split; [|split].
  - apply Forall2_fmap_r. eapply Forall2_impl; [exact Hacc|].
    intros item gi. apply accepts_cartLine.
  - by rewrite Hitems.
  - cbn [info_orderAmount]. rewrite grandTotalOf_sumOfTotals.
    rewrite <- (lineTotal_perm _ _ Hperm).
    apply sumOfTotals_lineTotal, Forall_forall. intros o Ho.
    apply plannedOrders_elem in Ho as (sid & xs & number & _ & ->).
    apply groupTotal_lineTotal.
Qed.

Lemma scenario_createOrder_run :
  run (createOrder Scenario.env0 Scenario.buyer Scenario.cart
         (Some Scenario.warehouse)) Scenario.db0
  = (OrderCreated (orders Scenario.db1)
       {| info_orderId := "GFT-B2B-20231114-0042";
          info_paymentSessionId := "session_1";
          info_orderAmount := 650 |},
     Scenario.db1).
Proof. vm_compute. reflexivity. Qed.

Lemma createOrder_cart_conserved_witness :
  ∃ lines,
    Forall2 (λ item line, cartLine Scenario.db0 item = Some line)
      Scenario.cart lines
    ∧ concat (o_items <$> orders Scenario.db1) ≡ₚ lines
    ∧ 650 = lineTotal lines.
Proof.
  exact (createOrder_cart_conserved _ _ _ _ _ _ _ _ scenario_createOrder_run).
Defined.

(** ** Failure of the payment session *)

Lemma plannedOrders_conserved env u address groups gis :
  groups = foldl (λ acc gi, groupPush (p_sellerId (gi_product gi)) gi acc) [] gis →
  concat (o_items <$> plannedOrders env u address 0 groups)
  ≡ₚ (λ gi, orderItemOf (p_sellerId (gi_product gi)) gi) <$> gis.
Proof.
  intros ->. rewrite plannedOrders_items.
  - apply fmap_Permutation. apply (foldl_groupPush_concat gis []).
  - destruct (partitionsBySeller_foldl gis [] [] partitionsBySeller_nil)
      as (_ & _ & Hsub & _).
    intros sid xs gi Hin Hgi. by destruct (Hsub sid xs gi Hin Hgi).
Qed.

Lemma plannedOrders_grandTotal env u address k groups :
  grandTotalOf (plannedOrders env u address k groups)
  = lineTotal (concat (o_items <$> plannedOrders env u address k groups)).
Proof.
  rewrite grandTotalOf_sumOfTotals.
  apply sumOfTotals_lineTotal, Forall_forall. intros o Ho.
  apply plannedOrders_elem in Ho as (sid & xs & number & _ & ->).
  apply groupTotal_lineTotal.
Qed.

(** C8. When the gateway refuses the payment session that order assembly
    asks for, after a request that passed validation, the handler answers
    with the failure of the [catch] block and every order it had saved
    stays in the collection, after the orders that were there before: one
    order for each seller of the cart, which together hold every line of
    the cart, each with its own total, in status [pending] and payment
    status [unpaid] (the schema defaults, as the handler assigns neither
    field), without gateway order identifier or payment session. Nothing
    else in the database changes. The refused request is the one the
    handler makes: for the order number of the first draw and the sum of
    price times quantity over the lines of the cart. *)
Theorem createOrder_session_failure (env : Env) (corpUser : CorporateUser)
    (items : list CartItem) (address : Address) (db : Db)
    (gis : list GroupItem) :
  items ≠ [] →
  Forall2 (accepts db) items gis →
  let lines := (λ gi, orderItemOf (p_sellerId (gi_product gi)) gi) <$> gis in
  createCashfreeOrder env
    (sessionRequest env corpUser
       (orString (cu_phone corpUser) (addr_phone address))
       (generateOrderNumber (today env) (random4 env 0))
       (lineTotal lines)) = None →
  ∃ saved,
    run (createOrder env corpUser items (Some address)) db
    = (Fail 500 FailedToCreateOrder, setOrders (orders db ++ saved) db)
    ∧ saved ≠ []
    ∧ Forall2 (λ item line, cartLine db item = Some line) items lines
    ∧ concat (o_items <$> saved) ≡ₚ lines
    ∧ NoDup (o_sellerId <$> saved)
    ∧ (∀ sid, Some sid ∈ o_sellerId <$> saved ↔
         ∃ item p, item ∈ items ∧ products db !! ci_productId item = Some p
                   ∧ p_sellerId p = sid)
    ∧ Forall (λ o, o_totalAmount o = lineTotal (o_items o)
                   ∧ Forall (λ i, oi_sellerId i = o_sellerId o) (o_items o)
                   ∧ o_status o = "pending" ∧ o_paymentStatus o = "unpaid"
                   ∧ o_cashfreeOrderId o = None ∧ o_paymentSessionId o = None)
        saved.
Proof.
  intros Hitems Hacc lines Hdown.
  destruct items as [|item items]; [done|].
  pose proof (foldM_validateItem_accepts _ _ [] _ Hacc) as Hvalid.
  pose proof (plannedOrders_conserved env corpUser address _ gis eq_refl) as Hperm.
  pose proof (partitionsBySeller_foldl gis [] [] partitionsBySeller_nil)
    as (Hnd & Hne & Hsub & Hall).
  set (groups := foldl _ [] gis) in *.
  pose proof (plannedOrders_grandTotal env corpUser address 0 groups) as Htotal.
  pose proof (plannedOrders_sellerIds env corpUser address 0 groups) as Hsellers.
  exists (plannedOrders env corpUser address 0 groups).
  assert (groups ≠ []) as Hgroups.
  { destruct gis as [|gi gis']; [by apply Forall2_cons_nil_inv in Hacc|].
    destruct (Hall gi) as (xs & Hin & _); [apply elem_of_cons; by left|].
    intros Hnil. rewrite Hnil in Hin. by apply elem_of_nil in Hin. }
  split; [|split; [|split; [|split; [|split; [|split]]]]].
  - apply run_inl. rewrite (createOrder_run _ _ _ _ _ _ _ Hvalid). cbn zeta.
    rewrite Htotal, (lineTotal_perm _ _ Hperm).
    destruct groups as [|[sid xs] groups']; [done|].
    cbn [plannedOrders newOrder o_orderNumber]. fold lines. by rewrite Hdown.
  - destruct groups as [|[sid xs] groups']; done.
  - apply Forall2_fmap_r. eapply Forall2_impl; [exact Hacc|].
    intros it gi. apply accepts_cartLine.
  - exact Hperm.
  - rewrite Hsellers. by apply (NoDup_fmap_2 _).
  - intros sid. rewrite Hsellers, <- (accepted_sellers db _ gis sid Hacc).
    rewrite (list_elem_of_fmap_inj Some). split.
    + intros [[sid' xs] [Hk Hin]]%list_elem_of_fmap. simpl in Hk. subst sid'.
      destruct xs as [|gi xs]; [by apply Hne in Hin|].
      exists gi. apply (Hsub sid (gi :: xs) gi Hin). apply elem_of_cons. by left.
    + intros (gi & Hgi & <-). destruct (Hall gi Hgi) as (xs & Hin & _).
      apply list_elem_of_fmap. by exists (p_sellerId (gi_product gi), xs).
  - apply Forall_forall. intros o Ho.
    apply plannedOrders_elem in Ho as (sid & xs & number & _ & ->). simpl.
    split; [apply groupTotal_lineTotal|]. split; [|done].
    apply Forall_forall. by intros i [gi [-> _]]%list_elem_of_fmap.
Qed.

Lemma createOrder_session_failure_witness :
  ∃ saved,
    run (createOrder Scenario.envDown Scenario.buyer Scenario.cart
           (Some Scenario.warehouse)) Scenario.db0
    = (Fail 500 FailedToCreateOrder,
       setOrders (orders Scenario.db0 ++ saved) Scenario.db0)
    ∧ o_sellerId <$> saved = [Some "S1"; Some "S2"]
    ∧ o_totalAmount <$> saved = [500; 150]
    ∧ Forall (λ o, o_status o = "pending" ∧ o_paymentStatus o = "unpaid"
                   ∧ o_cashfreeOrderId o = None ∧ o_paymentSessionId o = None)
        saved.
Proof.
  destruct (createOrder_session_failure Scenario.envDown Scenario.buyer
              Scenario.cart Scenario.warehouse Scenario.db0
              [ {| gi_productId := "P"; gi_product := Scenario.productP;
                   gi_quantity := 5; gi_unitPrice := 100;
                   gi_catalogEntry := Scenario.entryP |};
                {| gi_productId := "Q"; gi_product := Scenario.productQ;
                   gi_quantity := 3; gi_unitPrice := 50;
                   gi_catalogEntry := Scenario.entryQ |} ])
    as (saved & Hrun & _ & _ & _ & _ & _ & Hsaved).
  - discriminate.
  - repeat constructor; try reflexivity; simpl; lia.
  - reflexivity.
  - exists saved. split; [exact Hrun|].
    assert (saved
            = orders (run (createOrder Scenario.envDown Scenario.buyer
                             Scenario.cart (Some Scenario.warehouse))
                        Scenario.db0).2) as Heq.
    { rewrite Hrun. cbn [snd orders setOrders Scenario.db0 app]. reflexivity. }
    split; [rewrite Heq; vm_compute; reflexivity|].
    split; [rewrite Heq; vm_compute; reflexivity|].
    eapply Forall_impl; [exact Hsaved|]. cbv beta. tauto.
Defined.

Lemma plannedOrders_numbers env u address k groups :
  o_orderNumber <$> plannedOrders env u address k groups
  = (λ j, generateOrderNumber (today env) (random4 env j))
      <$> seq k (length groups).
Proof.
  revert k. induction groups as [|[sid xs] groups IH]; intros k; [done|].
  cbn [plannedOrders length seq]. rewrite !fmap_cons. by rewrite IH.
Qed.

(** X4. The orders of one assembly carry, in order of creation, the order
    numbers made from the successive random draws of the request; the
    gateway order identifier is the number of the first of them; and the
    numbers are pairwise distinct exactly when the draws are. *)
Theorem createOrder_order_numbers (env : Env) (corpUser : CorporateUser)
    (items : list CartItem) (shippingAddress : option Address) (db db' : Db)
    (created : list Order) (info : CashfreeOrderInfo) :
  run (createOrder env corpUser items shippingAddress) db
  = (OrderCreated created info, db') →
  o_orderNumber <$> created
  = (λ k, generateOrderNumber (today env) (random4 env k))
      <$> seq 0 (length created)
  ∧ head (o_orderNumber <$> created) = Some (info_orderId info)
  ∧ (NoDup (o_orderNumber <$> created)
     ↔ NoDup (random4 env <$> seq 0 (length created))).
Proof.
  intros Hrun.
  apply createOrder_created_inv in Hrun
    as (address & gis & first & rest & session & Haddr & Hacc & Hplan
        & Hsession & -> & -> & ->).
  set (groups := foldl _ [] gis) in *.
  set (planned := plannedOrders env corpUser address 0 groups) in *.
  assert (o_orderNumber <$> (withSession (o_orderNumber first) session
                             <$> planned)
          = (λ k, generateOrderNumber (today env) (random4 env k))
              <$> seq 0 (length (withSession (o_orderNumber first) session
                                 <$> planned))) as Hnumbers.
  { rewrite <- list_fmap_compose.
    change (o_orderNumber ∘ withSession (o_orderNumber first) session)
      with o_orderNumber.
    unfold planned. rewrite plannedOrders_numbers.
    by rewrite length_fmap, plannedOrders_length. }
  split; [done|]. split.
  - rewrite Hplan. done.
  - rewrite Hnumbers.
    rewrite (list_fmap_compose (random4 env) (generateOrderNumber (today env))).
    apply NoDup_fmap. intros r r' Heq.
    by apply generateOrderNumber_inj in Heq as [_ ?].
Qed.

Lemma createOrder_order_numbers_witness :
  o_orderNumber <$> orders Scenario.db1
  = ["GFT-B2B-20231114-0042"; "GFT-B2B-20231114-0777"]
  ∧ NoDup (o_orderNumber <$> orders Scenario.db1).
Proof.
  destruct (createOrder_order_numbers _ _ _ _ _ _ _ _ scenario_createOrder_run)
    as (Hnumbers & _ & Hnodup).
  split; [exact Hnumbers|]. apply Hnodup.
  apply (bool_decide_unpack _). vm_compute. exact I.
Defined.

(** X5. Order assembly never changes or removes a stored record: whatever it
    answers, the database afterwards is the database before with orders
    appended, and when the answer is a failure of status 400 nothing is
    appended. *)
Theorem createOrder_only_appends (env : Env) (corpUser : CorporateUser)
    (items : list CartItem) (shippingAddress : option Address) (db : Db) :
  ∃ new,
    (run (createOrder env corpUser items shippingAddress) db).2
    = setOrders (orders db ++ new) db
    ∧ (∀ m, (run (createOrder env corpUser items shippingAddress) db).1
            = Fail 400 m → new = []).
Proof.
  assert (setOrders (orders db ++ []) db = db) as Hid.
  { rewrite app_nil_r. by destruct db. }
  destruct items as [|item items]; [by exists []|].
  destruct shippingAddress as [address|]; [|by exists []].
  destruct (foldM_validateItem_inv (item :: items) [] db)
    as [(m & Hbad)|(gis & Hgis & Hgood)].
  { exists []. unfold run, createOrder. unfold bind at 1 2. by rewrite Hbad. }
  unfold run. rewrite (createOrder_run _ _ _ _ _ _ _ Hgood). cbn zeta.
  destruct (plannedOrders env corpUser address 0 _) as [|first rest] eqn:Hplan.
  { by exists []. }
  destruct (createCashfreeOrder env _) as [session|].
  - eexists. split; [done|]. by intros m [=].
  - eexists. split; [done|]. by intros m [=].
Qed.

(** ** Payment reconciliation: what is written *)

Lemma decrementStockAll_app a b ps :
  decrementStockAll (a ++ b) ps = decrementStockAll b (decrementStockAll a ps).
Proof. apply foldl_app. Qed.

(** The run of the loop over the matching orders. *)
Lemma mapM_confirmOrder_run env sp l db :
  mapM (confirmOrder env sp) l db =
    (inr ((λ e, if decide (o_paymentStatus e.2 = "paid") then e
                else (e.1, markPaid (paymentReference sp) (now env) e.2)) <$> l),
     {| products :=
          decrementStockAll
            (concat (o_items <$> filter (λ o, o_paymentStatus o ≠ "paid") l.*2))
            (products db);
        catalog := catalog db;
        orders :=
          foldl (λ os e, if decide (o_paymentStatus e.2 = "paid") then os
                         else <[e.1 := markPaid (paymentReference sp) (now env) e.2]> os)
            (orders db) l;
        quotes := quotes db |}).
Proof.
  revert db. induction l as [|[j s] l IH]; intros db.
  - by destruct db.
  - cbn [mapM]. unfold bind at 1.
    rewrite !fmap_cons. cbn [fst snd foldl].
    destruct (decide (o_paymentStatus s = "paid")) as [Hpaid|Hunpaid].
    + rewrite confirmOrder_paid by done. unfold bind at 1. rewrite IH.
      rewrite filter_cons_False by (by intros ?). done.
    + rewrite confirmOrder_unpaid by done. cbv zeta. unfold bind at 1.
      rewrite IH. rewrite filter_cons_True by done.
      rewrite fmap_cons. cbn [concat]. rewrite decrementStockAll_app. done.
Qed.

Lemma foldl_confirm_length (paymentId : string) (at_ : Z) l (os : list Order) :
  length (foldl (λ os e, if decide (o_paymentStatus e.2 = "paid") then os
                         else <[e.1 := markPaid paymentId at_ e.2]> os) os l)
  = length os.
Proof.
  revert os. induction l as [|[j s] l IH]; intros os; [done|].
  cbn [foldl]. rewrite IH. case_decide; [done|]. apply length_insert.
Qed.

(** A position after the loop holds what it held before, or the paid version
    of an unpaid entry of the loop for that position. *)
Lemma foldl_confirm_lookup (paymentId : string) (at_ : Z) l (os : list Order) i :
  let final :=
    foldl (λ os e, if decide (o_paymentStatus e.2 = "paid") then os
                   else <[e.1 := markPaid paymentId at_ e.2]> os) os l in
  final !! i = os !! i
  ∨ ∃ s, (i, s) ∈ l ∧ o_paymentStatus s ≠ "paid"
         ∧ final !! i = Some (markPaid paymentId at_ s).
Proof.
  cbv zeta. revert os. induction l as [|[j s] l IH]; intros os; [by left|].
  cbn [foldl fst snd].
  destruct (IH (if decide (o_paymentStatus s = "paid") then os
                else <[j := markPaid paymentId at_ s]> os))
    as [Hsame|(s' & Hin & Hunpaid & Hfinal)].
  - case_decide as Hs; [by left|].
    destruct (decide (i = j)) as [->|Hne].
    + destruct (decide (j < length os)%nat) as [Hlt|Hge].
      * right. exists s. split; [apply elem_of_cons; by left|]. split; [done|].
        rewrite Hsame. by apply list_lookup_insert_eq.
      * left. rewrite Hsame. by rewrite list_insert_ge by lia.
    + left. rewrite Hsame. by apply list_lookup_insert_ne.
  - right. exists s'. split; [apply elem_of_cons; by right|done].
Qed.

Lemma foldl_confirm_unpaid (paymentId : string) (at_ : Z) l (os : list Order) i s :
  (i, s) ∈ l → o_paymentStatus s ≠ "paid" → (i < length os)%nat →
  ∃ s', (i, s') ∈ l ∧ o_paymentStatus s' ≠ "paid"
        ∧ foldl (λ os e, if decide (o_paymentStatus e.2 = "paid") then os
                         else <[e.1 := markPaid paymentId at_ e.2]> os) os l !! i
          = Some (markPaid paymentId at_ s').
Proof.
  revert os. induction l as [|[j s0] l IH]; intros os Hin Hunpaid Hlt.
  - by apply elem_of_nil in Hin.
  - apply elem_of_cons in Hin as [[= <- <-]|Hin].
    + cbn [foldl fst snd]. rewrite decide_False by done.
      destruct (foldl_confirm_lookup paymentId at_ l
                  (<[i := markPaid paymentId at_ s]> os) i)
        as [Hsame|(s' & Hin' & Hunpaid' & Hfinal)].
      * exists s. split; [apply elem_of_cons; by left|]. split; [done|].
        cbv zeta in Hsame. rewrite Hsame. by apply list_lookup_insert_eq.
      * exists s'. split; [apply elem_of_cons; by right|done].
    + cbn [foldl fst snd].
      destruct (IH (if decide (o_paymentStatus s0 = "paid") then os
                    else <[j := markPaid paymentId at_ s0]> os) Hin Hunpaid)
        as (s' & Hin' & Hunpaid' & Hfinal).
      { case_decide; [done|]. by rewrite length_insert. }
      exists s'. split; [apply elem_of_cons; by right|done].
Qed.

Lemma reconciles_elem orderId email db i o :
  orders db !! i = Some o →
  reconciles orderId email o = true
  ↔ (i, o) ∈ findOrders orderId email db ∧ o_paymentStatus o ≠ "paid".
Proof.
  intros Ho. unfold reconciles.
  rewrite !andb_true_iff, negb_true_iff, !bool_decide_eq_true,
    bool_decide_eq_false, findOrders_elem.
  tauto.
Qed.

(** The orders collection after the loop over the orders found in it. *)
Lemma foldl_confirm_findOrders (paymentId : string) (at_ : Z) orderId email db :
  foldl (λ os e, if decide (o_paymentStatus e.2 = "paid") then os
                 else <[e.1 := markPaid paymentId at_ e.2]> os)
    (orders db) (findOrders orderId email db)
  = reconcile paymentId at_ orderId email <$> orders db.
Proof.
  apply list_eq. intros i. rewrite list_lookup_fmap.
  pose proof (foldl_confirm_lookup paymentId at_ (findOrders orderId email db)
                (orders db) i) as Hlookup. cbv zeta in Hlookup.
  destruct (orders db !! i) as [o|] eqn:Ho; simpl.
  - unfold reconcile.
    destruct (reconciles orderId email o) eqn:Hrec.
    + apply (reconciles_elem _ _ _ _ _ Ho) in Hrec as [Hin Hunpaid].
      destruct (foldl_confirm_unpaid paymentId at_ _ (orders db) i o Hin Hunpaid)
        as (s' & Hin' & _ & ->); [by eapply lookup_lt_Some|].
      apply findOrders_elem in Hin' as (Ho' & _). congruence.
    + destruct Hlookup as [->|(s & Hin & Hunpaid & _)]; [done|].
      assert (s = o) as ->.
      { apply findOrders_elem in Hin as (Ho' & _). congruence. }
      assert (reconciles orderId email o = true) as Hyes
        by (by apply (reconciles_elem _ _ _ _ _ Ho)).
      congruence.
  - destruct Hlookup as [->|(s & Hin & _)]; [done|].
    apply findOrders_elem in Hin as (Ho' & _). congruence.
Qed.

(** What a successful payment verification has read and written. *)
Lemma verifyPayment_verified_inv env u orderId db vs db1 :
  run (verifyPayment env u orderId) db = (PaymentVerified vs, db1) →
  ∃ payments,
    let sp := List.find (λ p, bool_decide (payment_status p = "SUCCESS"))
                payments in
    let found := findOrders orderId (cu_email u) db in
    orderId ≠ ""
    ∧ getCashfreeOrder env orderId = Some "PAID"
    ∧ getCashfreePayments env orderId = Some payments
    ∧ found ≠ []
    ∧ vs = ((λ e, if decide (o_paymentStatus e.2 = "paid") then e
                  else (e.1, markPaid (paymentReference sp) (now env) e.2))
              <$> found).*2
    ∧ db1 = (mapM (confirmOrder env sp) found db).2.
Proof.
  unfold run, verifyPayment.
  destruct (decide (orderId = "")); [by intros [= ]|].
  destruct (getCashfreeOrder env orderId) as [st|]; [|by intros [= ]].
  destruct (decide (st ≠ "PAID")) as [|Hst]; [by intros [= ]|].
  apply dec_stable in Hst as ->.
  destruct (getCashfreePayments env orderId) as [payments|]; [|by intros [= ]].
  unfold bind at 1, gets at 1.
  destruct (findOrders orderId (cu_email u) db) as [|e l] eqn:Hfound;
    [by intros [= ]|].
  unfold bind. rewrite mapM_confirmOrder_run. cbn [ret].
  intros [= <- <-]. exists payments. cbv zeta.
  rewrite mapM_confirmOrder_run. done.
Qed.

Lemma reconcile_found paymentId at_ orderId email db :
  ((λ e, if decide (o_paymentStatus e.2 = "paid") then e
         else (e.1, markPaid paymentId at_ e.2))
     <$> findOrders orderId email db).*2
  = reconcile paymentId at_ orderId email <$> (findOrders orderId email db).*2.
Proof.
  rewrite <- !list_fmap_compose. apply list_fmap_ext.
  intros i [j o] Hin. apply list_elem_of_lookup_2 in Hin. simpl.
  pose proof Hin as (Ho & Hid & Hmail)%findOrders_elem.
  unfold reconcile. case_decide as Hpaid.
  - destruct (reconciles orderId email o) eqn:Hrec; [|done].
    apply (reconciles_elem _ _ _ _ _ Ho) in Hrec as [_ ?]. done.
  - rewrite (proj2 (reconciles_elem _ _ _ _ _ Ho)); done.
Qed.

Lemma findOrders_fmap (f : Order → Order) orderId email db db1 :
  orders db1 = f <$> orders db →
  (∀ o, o_cashfreeOrderId (f o) = o_cashfreeOrderId o
        ∧ o_customerEmail (f o) = o_customerEmail o) →
  (findOrders orderId email db1).*2 = f <$> (findOrders orderId email db).*2.
Proof.
  intros Hos Hf. unfold findOrders. rewrite Hos.
  generalize (orders db). clear db db1 Hos.
  assert (∀ (os : list Order) (h : nat → nat),
    (List.filter
       (λ e : nat * Order,
          bool_decide (o_cashfreeOrderId e.2 = Some orderId)
          && bool_decide (o_customerEmail e.2 = email))
       (imap (λ i o, (h i, o)) (f <$> os))).*2
    = f <$> (List.filter
       (λ e : nat * Order,
          bool_decide (o_cashfreeOrderId e.2 = Some orderId)
          && bool_decide (o_customerEmail e.2 = email))
       (imap (λ i o, (h i, o)) os)).*2) as Hgen.
  { induction os as [|o os IH]; intros h; [done|].
    rewrite fmap_cons, !imap_cons. cbn [List.filter snd].
    destruct (Hf o) as [-> ->]. specialize (IH (h ∘ S)).
    destruct (_ && _); [rewrite !fmap_cons; cbn [snd]; f_equal|]; exact IH. }
  intros os. apply (Hgen os (λ i, i)).
Qed.

(** X6. A successful payment verification rewrites the orders collection
    position by position: an order with this gateway order identifier and
    this buyer that is not in payment status [paid] becomes confirmed and
    paid, with the reference of the first successful payment and the time
    of the request, whatever its lifecycle status was; every other order,
    of another buyer or another checkout or already paid, stays as it is.
    The answer lists the matching orders as they are stored afterwards. *)
Theorem verifyPayment_orders (env : Env) (corpUser : CorporateUser)
    (orderId : string) (db db1 : Db) (vs : list Order) :
  run (verifyPayment env corpUser orderId) db = (PaymentVerified vs, db1) →
  ∃ payments,
    let paymentId :=
      paymentReference
        (List.find (λ p, bool_decide (payment_status p = "SUCCESS")) payments) in
    getCashfreePayments env orderId = Some payments
    ∧ orders db1
      = reconcile paymentId (now env) orderId (cu_email corpUser) <$> orders db
    ∧ vs = (findOrders orderId (cu_email corpUser) db1).*2.
Proof.
  intros Hrun.
  apply verifyPayment_verified_inv in Hrun
    as (payments & _ & _ & Hpayments & _ & -> & ->).
  exists payments. cbv zeta. split; [done|].
  rewrite mapM_confirmOrder_run. cbn [orders snd].
  rewrite foldl_confirm_findOrders. split; [done|].
  rewrite reconcile_found. symmetry.
  apply findOrders_fmap.
  - done.
  - intros o. unfold reconcile. by destruct (reconciles _ _ o).
Qed.

Lemma verifyPayment_orders_witness :
  ∃ payments,
    getCashfreePayments Scenario.env0 "GFT-B2B-20231114-0042" = Some payments
    ∧ orders Scenario.db2
      = reconcile
          (paymentReference
             (List.find (λ p, bool_decide (payment_status p = "SUCCESS"))
                payments))
          (now Scenario.env0) "GFT-B2B-20231114-0042"
          (cu_email Scenario.buyer) <$> orders Scenario.db1
    ∧ orders Scenario.db2
      = (findOrders "GFT-B2B-20231114-0042" (cu_email Scenario.buyer)
           Scenario.db2).*2.
Proof.
  eapply (verifyPayment_orders Scenario.env0 Scenario.buyer
            "GFT-B2B-20231114-0042" Scenario.db1 Scenario.db2
            (orders Scenario.db2)).
  vm_compute. reflexivity.
Defined.

(** X7. A successful payment verification runs the conditional stock
    decrement over the line items of exactly the matching orders it found
    unpaid, order by order and item by item, and over nothing else; the
    catalog and the quotes stay as they are. *)
Theorem verifyPayment_products (env : Env) (corpUser : CorporateUser)
    (orderId : string) (db db1 : Db) (vs : list Order) :
  run (verifyPayment env corpUser orderId) db = (PaymentVerified vs, db1) →
  products db1
  = decrementStockAll
      (concat (o_items <$> filter (λ o, o_paymentStatus o ≠ "paid")
                             (findOrders orderId (cu_email corpUser) db).*2))
      (products db)
  ∧ catalog db1 = catalog db
  ∧ quotes db1 = quotes db.
Proof.
  intros Hrun.
  apply verifyPayment_verified_inv in Hrun
    as (payments & _ & _ & _ & _ & _ & ->).
  by rewrite mapM_confirmOrder_run.
Qed.

Lemma verifyPayment_products_witness :
  products Scenario.db2
  = decrementStockAll
      [ {| oi_productId := "P"; oi_title := "Hamper"; oi_price := 100;
           oi_image := ""; oi_sku := "P-1"; oi_quantity := 5;
           oi_sellerId := Some "S1" |};
        Scenario.itemQ ]
      (products Scenario.db1)
  ∧ catalog Scenario.db2 = catalog Scenario.db1
  ∧ quotes Scenario.db2 = quotes Scenario.db1.
Proof.
  eapply (verifyPayment_products Scenario.env0 Scenario.buyer
            "GFT-B2B-20231114-0042" Scenario.db1 Scenario.db2
            (orders Scenario.db2)).
  vm_compute. reflexivity.
Defined.

(** X8. A payment verification that does not succeed writes nothing: when
    the identifier is missing, the gateway call throws, the gateway reports
    a status other than PAID, or no order of the buyer carries the
    identifier, the database is left as it was. *)
Theorem verifyPayment_fails_clean (env : Env) (corpUser : CorporateUser)
    (orderId : string) (db : Db) :
  (∃ vs, (run (verifyPayment env corpUser orderId) db).1 = PaymentVerified vs
         ∧ orderId ≠ ""
         ∧ getCashfreeOrder env orderId = Some "PAID"
         ∧ is_Some (getCashfreePayments env orderId)
         ∧ findOrders orderId (cu_email corpUser) db ≠ [])
  ∨ (∃ status m,
       run (verifyPayment env corpUser orderId) db = (Fail status m, db)).
Proof.
  unfold run, verifyPayment.
  destruct (decide (orderId = "")); [right; by eexists _, _|].
  destruct (getCashfreeOrder env orderId) as [st|]; [|right; by eexists _, _].
  destruct (decide (st ≠ "PAID")) as [|Hst]; [right; by eexists _, _|].
  apply dec_stable in Hst as ->.
  destruct (getCashfreePayments env orderId) as [payments|];
    [|right; by eexists _, _].
  unfold bind, gets.
  destruct (findOrders orderId (cu_email corpUser) db) as [|e l] eqn:Hfound;
    [right; by eexists _, _|].
  left. rewrite mapM_confirmOrder_run. cbn [ret].
  eexists. by repeat split.
Qed.

(** The run of a payment verification that gets past every check. *)
Lemma verifyPayment_run env u orderId db payments :
  orderId ≠ "" →
  getCashfreeOrder env orderId = Some "PAID" →
  getCashfreePayments env orderId = Some payments →
  findOrders orderId (cu_email u) db ≠ [] →
  let paymentId :=
    paymentReference
      (List.find (λ p, bool_decide (payment_status p = "SUCCESS")) payments) in
  ∃ vs,
    run (verifyPayment env u orderId) db =
      (PaymentVerified vs,
       {| products :=
            decrementStockAll
              (concat (o_items <$> filter (λ o, o_paymentStatus o ≠ "paid")
                                     (findOrders orderId (cu_email u) db).*2))
              (products db);
          catalog := catalog db;
          orders := reconcile paymentId (now env) orderId (cu_email u)
                      <$> orders db;
          quotes := quotes db |}).
Proof.
  intros Hid Hpaid Hpayments Hfound. cbv zeta.
  unfold run, verifyPayment. rewrite decide_False by done.
  rewrite Hpaid. rewrite decide_False by (by intros ?).
  rewrite Hpayments. unfold bind, gets.
  destruct (findOrders orderId (cu_email u) db) as [|e l] eqn:Hl; [done|].
  rewrite <- Hl. rewrite mapM_confirmOrder_run. cbn [ret].
  rewrite foldl_confirm_findOrders. by eexists.
Qed.

(** X9. Checkout followed by verification: when order assembly has
    succeeded and the gateway then reports the gateway order identifier
    paid, payment verification for that identifier succeeds and stores every
    order of the assembly as confirmed and paid, with the payment reference
    and the time of the verification. *)
Theorem createOrder_then_verifyPayment (env env' : Env)
    (corpUser : CorporateUser) (items : list CartItem)
    (shippingAddress : option Address) (db db' : Db) (created : list Order)
    (info : CashfreeOrderInfo) (payments : list Payment) :
  run (createOrder env corpUser items shippingAddress) db
  = (OrderCreated created info, db') →
  getCashfreeOrder env' (info_orderId info) = Some "PAID" →
  getCashfreePayments env' (info_orderId info) = Some payments →
  let paymentId :=
    paymentReference
      (List.find (λ p, bool_decide (payment_status p = "SUCCESS")) payments) in
  ∃ vs db2,
    run (verifyPayment env' corpUser (info_orderId info)) db'
    = (PaymentVerified vs, db2)
    ∧ drop (length (orders db)) (orders db2)
      = markPaid paymentId (now env') <$> created
    ∧ Forall (λ o, o_status o = "confirmed" ∧ o_paymentStatus o = "paid")
        (drop (length (orders db)) (orders db2)).
Proof.
  intros Hrun Hpaid Hpayments paymentId.
  apply createOrder_created_inv in Hrun
    as (address & gis & first & rest & session & Haddr & Hacc & Hplan
        & Hsession & -> & -> & ->).
  cbn [info_orderId] in *.
  set (groups := foldl _ [] gis) in *.
  set (planned := plannedOrders env corpUser address 0 groups) in *.
  set (number := o_orderNumber first) in *.
  set (db' := setOrders (orders db ++ (withSession number session <$> planned)) db).
  assert (number = generateOrderNumber (today env) (random4 env 0)) as Hnumber.
  { pose proof (plannedOrders_numbers env corpUser address 0 groups) as Hn.
    fold planned in Hn. rewrite Hplan in Hn.
    destruct groups; [done|]. by injection Hn. }
  assert (reconcile paymentId (now env') number (cu_email corpUser)
            <$> (withSession number session <$> planned)
          = markPaid paymentId (now env')
            <$> (withSession number session <$> planned)) as Hfresh.
  { apply list_fmap_ext. intros i o [o0 [-> Ho0]]%list_lookup_fmap_Some.
    apply list_elem_of_lookup_2, plannedOrders_elem in Ho0
      as (sid & xs & number' & _ & ->).
    unfold reconcile, reconciles.
    cbn [withSession newOrder o_cashfreeOrderId o_customerEmail
         o_paymentStatus].
    by rewrite !bool_decide_eq_true_2 by done. }
  destruct (verifyPayment_run env' corpUser number db' payments)
    as [vs Hverify]; [| done | done | |].
  { rewrite Hnumber. unfold generateOrderNumber. done. }
  { intros Hnone.
    assert ((length (orders db), withSession number session first)
            ∈ findOrders number (cu_email corpUser) db') as Hin.
    { apply findOrders_elem. split; [|split; [done|]].
      - unfold db'. cbn [orders setOrders]. rewrite Hplan, fmap_cons.
        by rewrite lookup_app_r, Nat.sub_diag by lia.
      - fold planned in Hplan.
        assert (first ∈ planned) as Hfirst
          by (rewrite Hplan; apply elem_of_cons; by left).
        by apply plannedOrders_elem in Hfirst as (sid & xs & n' & _ & ->). }
    rewrite Hnone in Hin. by apply elem_of_nil in Hin. }
  cbv zeta in Hverify. fold paymentId in Hverify.
  eexists _, _. split; [exact Hverify|].
  cbn [orders]. unfold db'. cbn [orders setOrders].
  rewrite fmap_app, Hfresh.
  rewrite drop_app_length' by (by rewrite length_fmap).
  split; [done|].
  apply Forall_forall. by intros o [o0 [-> _]]%list_elem_of_fmap.
Qed.

Lemma createOrder_then_verifyPayment_witness :
  ∃ vs,
    run (verifyPayment Scenario.env0 Scenario.buyer "GFT-B2B-20231114-0042")
      Scenario.db1 = (PaymentVerified vs, Scenario.db2)
    ∧ Forall (λ o, o_status o = "confirmed" ∧ o_paymentStatus o = "paid")
        (orders Scenario.db2).
Proof.
  destruct (createOrder_then_verifyPayment Scenario.env0 Scenario.env0
              Scenario.buyer Scenario.cart (Some Scenario.warehouse)
              Scenario.db0 Scenario.db1 (orders Scenario.db1)
              {| info_orderId := "GFT-B2B-20231114-0042";
                 info_paymentSessionId := "session_1";
                 info_orderAmount := 650 |}
              [ {| payment_status := "SUCCESS"; cf_payment_id := Some "885544" |} ]
              scenario_createOrder_run eq_refl eq_refl)
    as (vs & db2 & Hrun & _ & Hall).
  exists vs.
  assert (db2 = Scenario.db2) as -> by (exact (f_equal snd (eq_sym Hrun))).
  split; [exact Hrun|exact Hall].
Defined.

(** ** Cancellation: every path *)

(** The run of a cancellation, by cases. *)
Lemma cancelOrder_run env u id reason db :
  run (cancelOrder env u id reason) db =
    match findOrder id (cu_email u) db with
    | None => (Fail 404 OrderNotFound, db)
    | Some o =>
        if bool_decide (o_status o ∈ ["pending"; "confirmed"]) then
          let order1 :=
            markCancelled (now env)
              (orString reason "Cancelled by corporate client") o in
          if decide (o_paymentStatus o = "paid") then
            let order2 := refundOrder env order1 in
            (OrderCancelled order2,
             setOrders (<[id := order2]> (<[id := order1]> (orders db)))
               (setProducts (restoreStockAll (o_items o) (products db)) db))
          else
            (OrderCancelled order1, setOrders (<[id := order1]> (orders db)) db)
        else (Fail 400 (CannotCancel (o_status o)), db)
    end.
Proof.
  unfold run, cancelOrder, bind, gets.
  destruct (findOrder id (cu_email u) db) as [o|]; [|done].
  destruct (bool_decide (o_status o ∈ ["pending"; "confirmed"])); [|done].
  cbn [negb]. cbv zeta.
  cbn [o_paymentStatus markCancelled].
  by destruct (decide (o_paymentStatus o = "paid")).
Qed.

Lemma findOrder_Some id email db o :
  findOrder id email db = Some o ↔
  orders db !! id = Some o ∧ o_customerEmail o = email.
Proof.
  unfold findOrder.
  destruct (orders db !! id) as [o'|]; [|split; [done|by intros [? _]]].
  case_decide as Hmail.
  - split; [by intros [= ->]|by intros [[= ->] _]].
  - split; [done|]. by intros [[= ->] ?].
Qed.



(** X12. A cancellation writes to one order at most: the catalog and the
    quotes stay as they are, no order is added or removed, every order
    other than the cancelled one stays as it is, and a cancellation that is
    refused, because the order is not the buyer's or is not pending or
    confirmed, writes nothing at all. *)
Theorem cancelOrder_frame (env : Env) (corpUser : CorporateUser) (id : nat)
    (reason : string) (db : Db) :
  let r := (run (cancelOrder env corpUser id reason) db).1 in
  let db1 := (run (cancelOrder env corpUser id reason) db).2 in
  catalog db1 = catalog db
  ∧ quotes db1 = quotes db
  ∧ length (orders db1) = length (orders db)
  ∧ (∀ j, j ≠ id → orders db1 !! j = orders db !! j)
  ∧ ((∃ o1, r = OrderCancelled o1 ∧ orders db1 !! id = Some o1)
     ∨ ((r = Fail 404 OrderNotFound
         ∨ ∃ status, r = Fail 400 (CannotCancel status)) ∧ db1 = db)).
Proof.
  cbv zeta. rewrite cancelOrder_run.
  destruct (findOrder id (cu_email corpUser) db) as [o|] eqn:Hfind.
  2: { repeat split; try done. right. split; [by left|done]. }
  apply findOrder_Some in Hfind as [Ho Hmail].
  pose proof (lookup_lt_Some _ _ _ Ho) as Hlt.
  destruct (bool_decide (o_status o ∈ ["pending"; "confirmed"])).
  2: { repeat split; try done. right. split; [right; by eexists|done]. }
  cbv zeta. destruct (decide (o_paymentStatus o = "paid"));
    cbn [fst snd catalog quotes orders setOrders setProducts].
  - rewrite !length_insert. repeat split; try done.
    + intros j Hj. by rewrite !list_lookup_insert_ne.
    + left. eexists. split; [done|].
      apply list_lookup_insert_eq. by rewrite length_insert.
  - rewrite !length_insert. repeat split; try done.
    + intros j Hj. by rewrite !list_lookup_insert_ne.
    + left. eexists. split; [done|]. by apply list_lookup_insert_eq.
Qed.

(** X13. Cancellation followed by verification: payment verification skips
    orders by their payment status only, so after a paid order has been
    cancelled (its payment status is then [refunded] or [refund_pending]) a
    verification of its gateway order identifier, while the gateway still
    reports it paid, stores the order as confirmed and paid again; the
    cancellation stamp and the refund marker stay on it. *)
Theorem cancelOrder_then_verifyPayment (env env' : Env)
    (corpUser : CorporateUser) (id : nat) (reason orderId : string)
    (o : Order) (db : Db) (payments : list Payment) :
  orders db !! id = Some o →
  o_customerEmail o = cu_email corpUser →
  o_status o ∈ ["pending"; "confirmed"] →
  o_paymentStatus o = "paid" →
  o_cashfreeOrderId o = Some orderId →
  orderId ≠ "" →
  getCashfreeOrder env' orderId = Some "PAID" →
  getCashfreePayments env' orderId = Some payments →
  let db1 := (run (cancelOrder env corpUser id reason) db).2 in
  let db2 := (run (verifyPayment env' corpUser orderId) db1).2 in
  ∃ o1 o2,
    orders db1 !! id = Some o1
    ∧ o_status o1 = "cancelled"
    ∧ o_paymentStatus o1 ∈ ["refunded"; "refund_pending"]
    ∧ orders db2 !! id = Some o2
    ∧ o_status o2 = "confirmed"
    ∧ o_paymentStatus o2 = "paid"
    ∧ o_paidAt o2 = Some (now env')
    ∧ o_cancelledAt o2 = Some (now env)
    ∧ o_refundId o2 = o_refundId o1.
Proof.
  intros Ho Hmail Hstatus Hpaid Hcf Hid Hgw Hpayments db1 db2.
  pose proof (lookup_lt_Some _ _ _ Ho) as Hlt.
  unfold db2, db1. rewrite (run_snd (cancelOrder _ _ _ _)).
  rewrite (cancelOrder_paid env corpUser id reason o db) by done. cbv zeta.
  cbn [snd].
  set (o1 := refundOrder env _).
  set (dbc := setOrders _ _).
  assert (orders dbc !! id = Some o1) as Ho1.
  { unfold dbc. cbn [orders setOrders setProducts].
    apply list_lookup_insert_eq. by rewrite length_insert. }
  assert (o_customerEmail o1 = cu_email corpUser
          ∧ o_cashfreeOrderId o1 = Some orderId
          ∧ o_status o1 = "cancelled"
          ∧ o_cancelledAt o1 = Some (now env)
          ∧ o_paymentStatus o1 ∈ ["refunded"; "refund_pending"])
    as (Hmail1 & Hcf1 & Hstatus1 & Hat1 & Hpay1).
  { unfold o1, refundOrder. destruct (createRefund env _); simpl;
      repeat split; try done.
    - apply elem_of_cons. by left.
    - apply elem_of_cons. right. apply elem_of_cons. by left. }
  assert (o_paymentStatus o1 ≠ "paid") as Hunpaid1.
  { intros Heq. rewrite Heq in Hpay1.
    apply elem_of_cons in Hpay1 as [?|Hpay1]; [done|].
    apply elem_of_cons in Hpay1 as [?|Hpay1]; [done|].
    by apply elem_of_nil in Hpay1. }
  destruct (verifyPayment_run env' corpUser orderId dbc payments)
    as [vs Hverify]; [done|done|done| |].
  { intros Hnone.
    assert ((id, o1) ∈ findOrders orderId (cu_email corpUser) dbc) as Hin
      by (by apply findOrders_elem).
    rewrite Hnone in Hin. by apply elem_of_nil in Hin. }
  cbv zeta in Hverify. rewrite Hverify. cbn [snd orders].
  exists o1, (markPaid
                (paymentReference
                   (List.find (λ p, bool_decide (payment_status p = "SUCCESS"))
                      payments))
                (now env') o1).
  split; [done|]. split; [done|]. split; [done|]. split.
  - rewrite list_lookup_fmap, Ho1. cbn [fmap option_fmap option_map].
    unfold reconcile, reconciles.
    rewrite !bool_decide_eq_true_2 by done.
    by rewrite bool_decide_eq_false_2 by done.
  - by repeat split.
Qed.

Lemma cancelOrder_then_verifyPayment_witness :
  let db1 := (run (cancelOrder Scenario.env0 Scenario.buyer 0 "") Scenario.db2).2 in
  let db2 := (run (verifyPayment Scenario.env0 Scenario.buyer
                     "GFT-B2B-20231114-0042") db1).2 in
  ∃ o1 o2,
    orders db1 !! 0%nat = Some o1
    ∧ o_status o1 = "cancelled"
    ∧ orders db2 !! 0%nat = Some o2
    ∧ o_status o2 = "confirmed"
    ∧ o_paymentStatus o2 = "paid".
Proof.
  destruct (cancelOrder_then_verifyPayment Scenario.env0 Scenario.env0
              Scenario.buyer 0 "" "GFT-B2B-20231114-0042"
              (markPaid "885544" 1700000000000
                 (withSession "GFT-B2B-20231114-0042" "session_1"
                    (newOrder "GFT-B2B-20231114-0042" Scenario.buyer
                       Scenario.warehouse "S1"
                       [ {| gi_productId := "P"; gi_product := Scenario.productP;
                            gi_quantity := 5; gi_unitPrice := 100;
                            gi_catalogEntry := Scenario.entryP |} ])))
              Scenario.db2
              [ {| payment_status := "SUCCESS"; cf_payment_id := Some "885544" |} ])
    as (o1 & o2 & H1 & H2 & _ & H3 & H4 & H5 & _).
  - vm_compute. reflexivity.
  - reflexivity.
  - apply elem_of_cons. right. apply elem_of_cons. left. reflexivity.
  - reflexivity.
  - reflexivity.
  - discriminate.
  - reflexivity.
  - reflexivity.
  - exists o1, o2. split; [exact H1|]. split; [exact H2|].
    split; [exact H3|]. split; [exact H4|exact H5].
Defined.

(** ** Quote approval and rejection: every path *)

(** The run of a quote approval, by cases. *)
Lemma approveQuote_run env u id shippingAddress db :
  run (approveQuote env u id shippingAddress) db =
    match findSentQuote id u db with
    | None => (Fail 404 QuoteNotFoundOrNotSent, db)
    | Some quote =>
        if deadlinePassed env quote then
          (Fail 400 QuoteExpired,
           setQuotes (<[id := withQuoteStatus "expired" quote]> (quotes db)) db)
        else
          match resolveAddress shippingAddress u with
          | None => (Fail 400 ShippingAddressRequired, db)
          | Some address =>
              let orderNumber :=
                generateOrderNumber (today env) (random4 env 0) in
              let order := newOrderOfQuote orderNumber u address quote in
              match createCashfreeOrder env
                      (sessionRequest env u
                         (orString (cu_phone u) (addr_phone address))
                         orderNumber (q_finalAmount quote)) with
              | None =>
                  (Fail 500 FailedToProcessQuote,
                   setOrders (orders db ++ [order]) db)
              | Some session =>
                  let order' := withSession orderNumber session order in
                  (QuoteApproved order'
                     {| info_orderId := orderNumber;
                        info_paymentSessionId := session;
                        info_orderAmount := q_finalAmount quote |},
                   setQuotes
                     (<[id := markApproved (length (orders db)) quote]> (quotes db))
                     (setOrders (orders db ++ [order']) db))
              end
          end
    end.
Proof.
  unfold run, approveQuote, bind, gets.
  destruct (findSentQuote id u db) as [quote|]; [|done].
  destruct (deadlinePassed env quote); [done|].
  destruct (resolveAddress shippingAddress u) as [address|]; [|done].
  cbv zeta. cbn [insertOrder].
  destruct (createCashfreeOrder env _) as [session|]; [|done].
  cbn [saveOrder saveQuote modify ret setOrders setQuotes orders quotes
       products catalog].
  rewrite insert_app_r_alt by lia. rewrite Nat.sub_diag. done.
Qed.






(** X16. A quote that is not in status [sent] is final for this service:
    whatever requests follow, of whatever users, the stored quote stays
    exactly as it is, and every approval and every rejection of it is
    answered as not found and writes nothing. In particular an approved
    quote is never converted into a second order. *)
Theorem quote_not_sent_is_final (id : nat) (q : Quote) (db : Db)
    (rs : list (Env * CorporateUser * Request)) (env : Env)
    (corpUser : CorporateUser) (shippingAddress : option Address)
    (reason : string) :
  quotes db !! id = Some q →
  q_status q ≠ "sent" →
  let db' := serve rs db in
  quotes db' !! id = Some q
  ∧ run (approveQuote env corpUser id shippingAddress) db'
    = (Fail 404 QuoteNotFoundOrNotSent, db')
  ∧ run (rejectQuote corpUser id reason) db' = (Fail 404 QuoteNotFound, db').
Proof.
  intros Hq Hstatus db'.
  assert (quotes db' !! id = Some q) as Hq' by (by apply serve_keepsQuote).
  pose proof (findSentQuote_not_sent id corpUser q db' Hq' Hstatus) as Hnone.
  split; [done|]. split.
  - by rewrite approveQuote_run, Hnone.
  - apply run_inl. unfold rejectQuote, bind, gets. by rewrite Hnone.
Qed.

Lemma quote_not_sent_is_final_witness :
  let db' :=
    serve [ (Scenario.env0, Scenario.buyer,
             CreateOrder Scenario.cart (Some Scenario.warehouse));
            (QuoteScenario.envEarly, Scenario.buyer, RejectQuote 0 "late") ]
      QuoteScenario.dbApproved in
  (q_status <$> quotes db' !! 0%nat) = Some "approved"
  ∧ run (approveQuote QuoteScenario.envEarly Scenario.buyer 0 None) db'
    = (Fail 404 QuoteNotFoundOrNotSent, db').
Proof.
  cbv zeta.
  destruct (quote_not_sent_is_final 0
              (markApproved 0 Scenario.quote0) QuoteScenario.dbApproved
              [ (Scenario.env0, Scenario.buyer,
                 CreateOrder Scenario.cart (Some Scenario.warehouse));
                (QuoteScenario.envEarly, Scenario.buyer, RejectQuote 0 "late") ]
              QuoteScenario.envEarly Scenario.buyer None "")
    as (Hq & Happrove & _).
  - vm_compute. reflexivity.
  - discriminate.
  - split; [by rewrite Hq|exact Happrove].
Defined.

Lemma find_first {A} (f : A → bool) (l : list A) a :
  List.find f l = Some a →
  ∃ i : nat, l !! i = Some a ∧ f a = true
             ∧ ∀ (j : nat) b, (j < i)%nat → l !! j = Some b → f b = false.
Proof.
  induction l as [|x l IH]; [done|]. cbn [List.find].
  destruct (f x) eqn:Hx.
  - intros [= ->]. exists 0%nat. split; [done|]. split; [done|]. lia.
  - intros (i & Hi & Ha & Hbefore)%IH. exists (S i).
    split; [done|]. split; [done|].
    intros [|j] b Hj Hb; [by injection Hb as <-|].
    apply (Hbefore j); [lia|done].
Qed.

(** X17. The shipping address of a quote approval is the address of the
    request when there is one; otherwise it is a saved address of the
    buyer: the first one marked as default, that is the one marked default
    before which no saved address is marked default, or, when none is
    marked, the first saved address. There is no address only when the
    request gives none and the buyer has saved none. *)
Theorem resolveAddress_cases (shippingAddress : option Address)
    (corpUser : CorporateUser) :
  match shippingAddress, resolveAddress shippingAddress corpUser with
  | Some a, r => r = Some a
  | None, Some a =>
      (∃ i : nat,
         cu_shippingAddresses corpUser !! i = Some a
         ∧ addr_isDefault a = true
         ∧ ∀ (j : nat) b, (j < i)%nat →
             cu_shippingAddresses corpUser !! j = Some b →
             addr_isDefault b = false)
      ∨ (Forall (λ b, addr_isDefault b = false) (cu_shippingAddresses corpUser)
         ∧ cu_shippingAddresses corpUser !! 0%nat = Some a)
  | None, None => cu_shippingAddresses corpUser = []
  end.
Proof.
  unfold resolveAddress. destruct shippingAddress as [a|]; [done|].
  cbn [orElse].
  destruct (List.find addr_isDefault (cu_shippingAddresses corpUser))
    as [a|] eqn:Hfind; cbn [orElse].
  - left. by apply find_first.
  - destruct (cu_shippingAddresses corpUser) as [|a l] eqn:Hl; [done|].
    cbn [head]. right. split; [|done]. apply Forall_forall. intros b Hb.
    apply list_elem_of_In in Hb.
    pose proof (find_none _ _ Hfind b Hb) as Hnot. by destruct (addr_isDefault b).
Qed.

(** ** Cancelling twice *)

#[local] Instance keepsOrderAt_preorder id o : PreOrder (keepsOrderAt id o).
Proof.
  unfold keepsOrderAt. split; [by intros a Ha|].
  intros a b c Hab Hbc Ha. by apply Hbc, Hab.
Qed.





(** ** What no request ever changes *)

Lemma serve_Preserves (R : relation Db) `{!PreOrder R} rs db :
  (∀ env u r, Preserves R (handle env u r)) → R db (serve rs db).
Proof.
  intros Hstep. revert db.
  induction rs as [|[[env u] r] rs IH]; intros db; [done|].
  cbn [serve]. etrans; [|apply IH]. by apply Preserves_run.
Qed.

#[local] Instance keepsListing_preorder : PreOrder keepsListing.
Proof.
  split.
  - intros a. split; [done|]. intros id. by destruct (products a !! id).
  - intros a b c [Hc1 Hp1] [Hc2 Hp2]. split; [congruence|]. intros id.
    specialize (Hp1 id). specialize (Hp2 id).
    destruct (products a !! id), (products b !! id), (products c !! id);
      try done.
    destruct Hp1 as (? & ? & ? & ? & ? & ?), Hp2 as (? & ? & ? & ? & ? & ?).
    repeat split; congruence.
Qed.

(** X18. The order workflow never edits the catalog or a product's listing:
    after any sequence of requests the catalog is the same, the same
    products exist, and every product has the title, image, SKU, seller,
    active flag and price it had. Only the stock and the order count of a
    product are ever written. *)
Theorem listing_never_changes (rs : list (Env * CorporateUser * Request))
    (db : Db) (id : string) :
  catalog (serve rs db) = catalog db
  ∧ match products db !! id, products (serve rs db) !! id with
    | Some p, Some p' =>
        p_title p' = p_title p ∧ p_image p' = p_image p
        ∧ p_sku p' = p_sku p ∧ p_sellerId p' = p_sellerId p
        ∧ p_isActive p' = p_isActive p ∧ p_price p' = p_price p
    | None, None => True
    | _, _ => False
    end.
Proof.
  assert (keepsListing db (serve rs db)) as [Hc Hp];
    [|split; [exact Hc|exact (Hp id)]].
  apply (serve_Preserves keepsListing). intros env u r.
  apply handle_Preserves; [tc_solve| | | |].
  - intros os d. split; [done|]. intros i. cbn [products setOrders].
    by destruct (products d !! i).
  - intros qs d. split; [done|]. intros i. cbn [products setQuotes].
    by destruct (products d !! i).
  - intros item d. split; [done|]. intros i. cbn [products setProducts].
    rewrite decrementStock_lookup. destruct (products d !! i); [|done].
    by case_decide.
  - intros item d. split; [done|]. intros i. cbn [products setProducts].
    rewrite restoreStock_lookup. destruct (products d !! i); [|done].
    by case_decide.
Qed.

Lemma sameOrderContent_refl o : sameOrderContent o o.
Proof. by repeat split. Qed.

Lemma sameOrderContent_trans a b c :
  sameOrderContent a b → sameOrderContent b c → sameOrderContent a c.
Proof.
  unfold sameOrderContent. intros H1 H2.
  destruct H1 as (?&?&?&?&?&?&?&?&?&?&?&?), H2 as (?&?&?&?&?&?&?&?&?&?&?&?).
  repeat split; congruence.
Qed.

#[local] Instance keepsOrders_preorder : PreOrder keepsOrders.
Proof.
  split.
  - intros a i o Ho. exists o. split; [done|apply sameOrderContent_refl].
  - intros a b c Hab Hbc i o Ho.
    destruct (Hab i o Ho) as (o' & Ho' & Hs).
    destruct (Hbc i o' Ho') as (o'' & Ho'' & Hs').
    exists o''. split; [done|]. by eapply sameOrderContent_trans.
Qed.

Lemma keepsOrders_append new db : keepsOrders db (setOrders (orders db ++ new) db).
Proof.
  intros i o Ho. exists o. split; [|apply sameOrderContent_refl].
  cbn [orders setOrders]. by apply lookup_app_l_Some.
Qed.

Lemma createOrder_keepsOrders env u items addr :
  Preserves keepsOrders (createOrder env u items addr).
Proof.
  intros db. rewrite <- run_snd.
  destruct items as [|item items]; [reflexivity|].
  destruct addr as [address|]; [|reflexivity].
  destruct (foldM_validateItem_inv (item :: items) [] db)
    as [(m & Hbad)|(gis & Hgis & Hgood)].
  { unfold run, createOrder. unfold bind at 1. rewrite Hbad. reflexivity. }
  unfold run. rewrite (createOrder_run _ _ _ _ _ _ _ Hgood). cbn zeta.
  destruct (plannedOrders env u address 0 _) as [|first rest]; [reflexivity|].
  destruct (createCashfreeOrder env _) as [session|]; apply keepsOrders_append.
Qed.

Lemma verifyPayment_keepsOrders env u orderId :
  Preserves keepsOrders (verifyPayment env u orderId).
Proof.
  intros db. unfold verifyPayment.
  destruct (decide (orderId = "")); [reflexivity|].
  destruct (getCashfreeOrder env orderId) as [st|]; [|reflexivity].
  destruct (decide (st ≠ "PAID")); [reflexivity|].
  destruct (getCashfreePayments env orderId) as [payments|]; [|reflexivity].
  unfold bind, gets.
  destruct (findOrders orderId (cu_email u) db) as [|e l] eqn:Hfound;
    [reflexivity|].
  rewrite <- Hfound, mapM_confirmOrder_run. cbn [ret snd].
  rewrite foldl_confirm_findOrders.
  intros i o Ho. cbn [orders]. rewrite list_lookup_fmap, Ho.
  eexists. split; [done|]. unfold reconcile.
  destruct (reconciles _ _ o); by repeat split.
Qed.

Lemma cancelOrder_keepsOrders env u id reason :
  Preserves keepsOrders (cancelOrder env u id reason).
Proof.
  intros db. rewrite <- run_snd, cancelOrder_run.
  destruct (findOrder id (cu_email u) db) as [o|] eqn:Hfind; [|reflexivity].
  apply findOrder_Some in Hfind as [Ho Hmail].
  pose proof (lookup_lt_Some _ _ _ Ho) as Hlt.
  destruct (bool_decide (o_status o ∈ ["pending"; "confirmed"])); [|reflexivity].
  cbv zeta. destruct (decide (o_paymentStatus o = "paid"));
    intros i o0 Ho0; cbn [snd orders setOrders setProducts].
  - destruct (decide (i = id)) as [->|Hne].
    + rewrite list_lookup_insert_eq by (by rewrite length_insert).
      eexists. split; [done|]. assert (o0 = o) as -> by congruence.
      unfold refundOrder. destruct (createRefund env _); by repeat split.
    + rewrite !list_lookup_insert_ne by done.
      exists o0. split; [done|apply sameOrderContent_refl].
  - destruct (decide (i = id)) as [->|Hne].
    + rewrite list_lookup_insert_eq by done.
      eexists. split; [done|]. assert (o0 = o) as -> by congruence.
      by repeat split.
    + rewrite list_lookup_insert_ne by done.
      exists o0. split; [done|apply sameOrderContent_refl].
Qed.

Lemma approveQuote_keepsOrders env u id addr :
  Preserves keepsOrders (approveQuote env u id addr).
Proof.
  intros db. rewrite <- run_snd, approveQuote_run.
  destruct (findSentQuote id u db) as [quote|]; [|reflexivity].
  destruct (deadlinePassed env quote).
  { intros i o Ho. exists o. split; [done|apply sameOrderContent_refl]. }
  destruct (resolveAddress addr u) as [address|]; [|reflexivity].
  cbv zeta. destruct (createCashfreeOrder env _) as [session|].
  - intros i o Ho. exists o. split; [|apply sameOrderContent_refl].
    cbn [snd orders setOrders setQuotes]. by apply lookup_app_l_Some.
  - apply keepsOrders_append.
Qed.

Lemma rejectQuote_keepsOrders u id reason :
  Preserves keepsOrders (rejectQuote u id reason).
Proof.
  unfold rejectQuote. preserves.
  intros i o Ho. exists o. split; [done|apply sameOrderContent_refl].
Qed.

(** X19. Orders are never removed and their content is never edited: after
    any sequence of requests an order that was stored is still stored under
    the same identifier, with the same order number, buyer, seller, line
    items, shipping address, totals, gateway order identifier and payment
    session. Later requests change only its statuses, its payment and
    cancellation stamps and its refund identifier. *)
Theorem orders_are_never_rewritten (rs : list (Env * CorporateUser * Request))
    (db : Db) (i : nat) (o : Order) :
  orders db !! i = Some o →
  ∃ o', orders (serve rs db) !! i = Some o'
        ∧ o_orderNumber o' = o_orderNumber o
        ∧ o_customerEmail o' = o_customerEmail o
        ∧ o_sellerId o' = o_sellerId o
        ∧ o_items o' = o_items o
        ∧ o_shippingAddress o' = o_shippingAddress o
        ∧ o_itemTotal o' = o_itemTotal o
        ∧ o_totalAmount o' = o_totalAmount o
        ∧ o_cashfreeOrderId o' = o_cashfreeOrderId o
        ∧ o_paymentSessionId o' = o_paymentSessionId o.
Proof.
  intros Ho.
  assert (keepsOrders db (serve rs db)) as Hkeeps.
  { apply (serve_Preserves keepsOrders). intros env u r.
    destruct r; cbn [handle].
    - apply createOrder_keepsOrders.
    - apply verifyPayment_keepsOrders.
    - apply cancelOrder_keepsOrders.
    - apply approveQuote_keepsOrders.
    - apply rejectQuote_keepsOrders. }
  destruct (Hkeeps i o Ho) as (o' & Ho' & Hsame).
  exists o'. split; [done|].
  destruct Hsame as (?&?&?&?&?&?&?&?&?&?&?&?). by repeat split.
Qed.

Lemma orders_are_never_rewritten_witness :
  ∃ o', orders Scenario.db3 !! 1%nat = Some o'
        ∧ o_orderNumber o' = "GFT-B2B-20231114-0777"
        ∧ o_items o' = [Scenario.itemQ]
        ∧ o_totalAmount o' = 150.
Proof.
  destruct (orders_are_never_rewritten
              [ (Scenario.env0, Scenario.buyer,
                 VerifyPayment "GFT-B2B-20231114-0042");
                (Scenario.env0, Scenario.buyer, CancelOrder 1 "") ]
              Scenario.db1 1
              (withSession "GFT-B2B-20231114-0042" "session_1"
                 (newOrder "GFT-B2B-20231114-0777" Scenario.buyer
                    Scenario.warehouse "S2"
                    [ {| gi_productId := "Q"; gi_product := Scenario.productQ;
                         gi_quantity := 3; gi_unitPrice := 50;
                         gi_catalogEntry := Scenario.entryQ |} ])))
    as (o' & Ho' & Hn & _ & _ & Hitems & _ & _ & Htotal & _).
  - vm_compute. reflexivity.
  - exists o'. split; [exact Ho'|]. split; [exact Hn|].
    split; [exact Hitems|exact Htotal].
Defined.

(** ** Authentication *)

Lemma asciiLower_idemp c : asciiLower (asciiLower c) = asciiLower c.
Proof. destruct c as [[] [] [] [] [] [] [] []]; reflexivity. Qed.

Lemma isWhiteSpace_asciiLower c : isWhiteSpace (asciiLower c) = isWhiteSpace c.
Proof. destruct c as [[] [] [] [] [] [] [] []]; reflexivity. Qed.

Lemma toLowerCase_idemp s : toLowerCase (toLowerCase s) = toLowerCase s.
Proof.
  induction s as [|c s IH]; [done|]. simpl. by rewrite asciiLower_idemp, IH.
Qed.

Lemma trimStart_toLowerCase s :
  trimStart (toLowerCase s) = toLowerCase (trimStart s).
Proof.
  induction s as [|c s IH]; [done|]. simpl.
  rewrite isWhiteSpace_asciiLower. by destruct (isWhiteSpace c).
Qed.

Lemma trimEnd_toLowerCase s :
  trimEnd (toLowerCase s) = toLowerCase (trimEnd s).
Proof.
  induction s as [|c s IH]; [done|]. simpl. rewrite IH.
  destruct (trimEnd s) as [|c' t]; simpl.
  - rewrite isWhiteSpace_asciiLower. by destruct (isWhiteSpace c).
  - done.
Qed.

Lemma trimStart_idemp s : trimStart (trimStart s) = trimStart s.
Proof.
  induction s as [|c s IH]; [done|]. simpl.
  destruct (isWhiteSpace c) eqn:Hc; [done|]. simpl. by rewrite Hc.
Qed.

Lemma trimEnd_idemp s : trimEnd (trimEnd s) = trimEnd s.
Proof.
  induction s as [|c s IH]; [done|]. simpl.
  destruct (trimEnd s) as [|c' t] eqn:Ht.
  - destruct (isWhiteSpace c) eqn:Hc; [done|]. simpl. by rewrite Hc.
  - change (trimEnd (String c (String c' t)))
      with (match trimEnd (String c' t) with
            | EmptyString =>
                if isWhiteSpace c then EmptyString else String c EmptyString
            | String c'' t' => String c (String c'' t')
            end).
    by rewrite IH.
Qed.

Lemma trimStart_trimEnd s :
  trimStart s = s → trimStart (trimEnd s) = trimEnd s.
Proof.
  destruct s as [|c s]; [done|]. simpl.
  destruct (isWhiteSpace c) eqn:Hc.
  - intros Heq. exfalso.
    assert (∀ t, (String.length (trimStart t) ≤ String.length t)%nat) as Hlen.
    { induction t as [|c0 t IHt]; simpl; [lia|].
      destruct (isWhiteSpace c0); simpl; lia. }
    specialize (Hlen s). rewrite Heq in Hlen. simpl in Hlen. lia.
  - intros _. destruct (trimEnd s); simpl; by rewrite Hc.
Qed.

Lemma trim_idemp s : trim (trim s) = trim s.
Proof.
  unfold trim. rewrite (trimStart_trimEnd (trimStart s)) by apply trimStart_idemp.
  apply trimEnd_idemp.
Qed.

Lemma normalize_idemp email :
  trim (toLowerCase (trim (toLowerCase email))) = trim (toLowerCase email).
Proof.
  unfold trim at 2.
  rewrite <- trimEnd_toLowerCase, <- trimStart_toLowerCase, toLowerCase_idemp.
  apply trim_idemp.
Qed.

(** X20. Whether an address counts as corporate does not depend on its
    letter case or on blanks around it: the verdict on an address is the
    verdict on its lower-cased, trimmed form, which is the form the
    send-otp route stores and checks. *)
Theorem isCorporateEmail_normalized (email : string) :
  isCorporateEmail (trim (toLowerCase email)) = isCorporateEmail email.
Proof.
  unfold isCorporateEmail. rewrite normalize_idemp.
  destruct (decide (email = "")) as [->|Hne]; [done|].
  destruct (decide (trim (toLowerCase email) = "")) as [->|_]; done.
Qed.

(** *** One-time passcodes *)

Lemma list_find_email (users : list Account) (i : nat) a :
  NoDup (acc_email <$> users) →
  users !! i = Some a →
  list_find (λ b, acc_email b = acc_email a) users = Some (i, a).
Proof.
  intros Hnd Ha. apply list_find_Some. split; [done|]. split; [done|].
  intros j b Hb Hlt Heq.
  assert (j = i); [|lia].
  eapply NoDup_lookup; [exact Hnd| |].
  - rewrite list_lookup_fmap, Hb. simpl. by rewrite Heq.
  - by rewrite list_lookup_fmap, Ha.
Qed.

Lemma list_find_otpMatches env (users : list Account) (i : nat) a otpStr :
  NoDup (acc_email <$> users) →
  users !! i = Some a →
  otpMatches env (acc_email a) otpStr a →
  list_find (otpMatches env (acc_email a) otpStr) users = Some (i, a).
Proof.
  intros Hnd Ha Hm. apply list_find_Some. split; [done|]. split; [done|].
  intros j b Hb Hlt (Heq & _).
  assert (j = i); [|lia].
  eapply NoDup_lookup; [exact Hnd| |].
  - rewrite list_lookup_fmap, Hb. simpl. by rewrite Heq.
  - by rewrite list_lookup_fmap, Ha.
Qed.

Lemma emails_insert_same (users : list Account) (i : nat) a b :
  users !! i = Some a → acc_email b = acc_email a →
  acc_email <$> <[i := b]> users = acc_email <$> users.
Proof.
  intros Ha Heq. rewrite list_fmap_insert, Heq.
  apply list_insert_id. by rewrite list_lookup_fmap, Ha.
Qed.

(** What a successful verify-otp has read and written. *)
Lemma verifyOtp_verified_inv env email otp companyName contactPerson
    phone designation companySize (users users' : list Account)
    token (id : nat) user :
  verifyOtp env email otp companyName contactPerson phone designation
    companySize users = (Verified token id user, users') →
  ∃ a expiry,
    users !! id = Some a
    ∧ otpMatches env (trim (toLowerCase email)) (trim otp) a
    ∧ acc_otpExpiry a = Some expiry ∧ expiry > auth_now env
    ∧ acc_status a ≠ "suspended"
    ∧ token = jwtSign env id
    ∧ user = withProfile companyName contactPerson phone designation
               companySize (withOtp None None a)
    ∧ users' = <[id := user]> users.
Proof.
  unfold verifyOtp. destruct (decide (email = "" ∨ otp = "")); [by intros [=]|].
  cbv zeta.
  destruct (list_find _ users) as [[i a]|] eqn:Hfind.
  - apply list_find_Some in Hfind as (Ha & Hm & _).
    pose proof Hm as (Hmail & Hotp & t & Ht & Hlater).
    destruct (decide (acc_status (withOtp None None a) = "suspended"))
      as [|Hstatus]; [by intros [=]|].
    cbn [acc_status withOtp] in Hstatus.
    intros [= <- <- <- <-]. exists a, t. repeat split; try done.
    by exists t.
  - clear Hfind.
    destruct (list_find _ users) as [[j existing]|]; [|by intros [=]].
    destruct (acc_otp existing) as [stored|], (acc_otpExpiry existing) as [t|];
      try (by intros [=]).
    destruct (decide (stored = "")); [by intros [=]|].
    destruct (decide (auth_later env > t)); by intros [=].
Qed.

(** X21. A token is issued only for a passcode that is right and in time:
    when verify-otp answers with a token, the account of that address held
    exactly the (trimmed) passcode of the request with an expiry later than
    the time of the request, the account is not suspended, the token is
    signed for that account, and the account is stored with its passcode
    and expiry cleared. *)
Theorem verifyOtp_sound (env : AuthEnv) (email otp companyName contactPerson
    phone designation companySize : string) (users users' : list Account)
    (token : string) (id : nat) (user : Account) :
  verifyOtp env email otp companyName contactPerson phone designation
    companySize users = (Verified token id user, users') →
  ∃ a expiry,
    users !! id = Some a
    ∧ acc_email a = trim (toLowerCase email)
    ∧ acc_otp a = Some (trim otp)
    ∧ acc_otpExpiry a = Some expiry ∧ expiry > auth_now env
    ∧ acc_status a ≠ "suspended"
    ∧ token = jwtSign env id
    ∧ users' = <[id := user]> users
    ∧ acc_email user = acc_email a ∧ acc_status user = acc_status a
    ∧ acc_otp user = None ∧ acc_otpExpiry user = None.
Proof.
  intros Hrun.
  apply verifyOtp_verified_inv in Hrun
    as (a & t & Ha & (Hmail & Hotp & _) & Ht & Hlater & Hstatus & -> & -> & ->).
  exists a, t. repeat split; done.
Qed.

Lemma verifyOtp_sound_witness :
  ∃ a expiry,
    AuthScenario.users1 !! 0%nat = Some a
    ∧ acc_otp a = Some "482913"
    ∧ acc_otpExpiry a = Some expiry ∧ expiry > 1700000300000
    ∧ acc_status a ≠ "suspended".
Proof.
  destruct (verifyOtp_sound AuthScenario.authEnvLater "alice@acme.example"
              "482913" "" "" "" "" "" AuthScenario.users1 AuthScenario.users2
              "token-0" 0 (withOtp None None AuthScenario.alice))
    as (a & expiry & Ha & _ & Hotp & Hexp & Hlater & Hstatus & _).
  - vm_compute. reflexivity.
  - exists a, expiry. split; [exact Ha|]. split; [exact Hotp|].
    split; [exact Hexp|]. split; [exact Hlater|exact Hstatus].
Defined.

(** The run of send-otp on an address it accepts. *)
Lemma sendOtp_run env email users :
  email ≠ "" →
  isCorporateEmail (trim (toLowerCase email)) = true →
  let normalizedEmail := trim (toLowerCase email) in
  let expiry := auth_now env + otpExpiryMinutes env * 60 * 1000 in
  ∃ id user,
    (sendOtp env email users).2 !! id = Some user
    ∧ acc_email user = normalizedEmail
    ∧ acc_otp user = Some (generateOTP env)
    ∧ acc_otpExpiry user = Some expiry
    ∧ (∀ j b, j ≠ id → (sendOtp env email users).2 !! j = Some b →
         users !! j = Some b)
    ∧ ((users !! id = None ∧ (sendOtp env email users).2 = users ++ [user]
        ∧ Forall (λ b, acc_email b ≠ normalizedEmail) users
        ∧ acc_status user = newAccountStatus env)
       ∨ (∃ a, users !! id = Some a ∧ acc_email a = normalizedEmail
               ∧ acc_status user = acc_status a
               ∧ (sendOtp env email users).2 = <[id := user]> users))
    ∧ (sendOtp env email users).1
      = if sendOTP env normalizedEmail (generateOTP env)
        then OtpSent (bool_decide (acc_contactPerson user = ""))
        else AuthFail 500 FailedToSendOtp.
Proof.
  intros Hne Hcorp. cbv zeta. unfold sendOtp.
  rewrite decide_False by done. rewrite Hcorp. cbn [negb]. cbv zeta.
  destruct (list_find _ users) as [[id a]|] eqn:Hfind.
  - apply list_find_Some in Hfind as (Ha & Hmail & _).
    pose proof (lookup_lt_Some _ _ _ Ha) as Hlt.
    eexists id, _.
    assert (∀ r r' : AuthResponse, ∀ l : list Account,
              (if sendOTP env (trim (toLowerCase email)) (generateOTP env)
               then (r, l) else (r', l)).2 = l) as Hsnd
      by (intros; by destruct (sendOTP _ _ _)).
    rewrite Hsnd.
    split; [by apply list_lookup_insert_eq|].
    split; [done|]. split; [done|]. split; [done|]. split.
    { intros j b Hj. by rewrite list_lookup_insert_ne. }
    split; [right; by exists a|].
    by destruct (sendOTP _ _ _).
  - apply list_find_None in Hfind.
    eexists (length users), _.
    assert (∀ r r' : AuthResponse, ∀ l : list Account,
              (if sendOTP env (trim (toLowerCase email)) (generateOTP env)
               then (r, l) else (r', l)).2 = l) as Hsnd
      by (intros; by destruct (sendOTP _ _ _)).
    rewrite Hsnd.
    split; [by rewrite lookup_app_r, Nat.sub_diag by lia|].
    split; [done|]. split; [done|]. split; [done|]. split.
    { intros j b Hj Hb. apply lookup_app_Some in Hb as [?|[Hge Hb]]; [done|].
      apply list_lookup_singleton_Some in Hb as [? _]. lia. }
    split.
    { left. split; [by apply lookup_ge_None_2|]. by repeat split. }
    by destruct (sendOTP _ _ _).
Qed.

(** X22. The authentication routes keep one account per address and never
    write to the account of another address: when the stored addresses are
    pairwise distinct they stay pairwise distinct after send-otp and after
    verify-otp, and an account whose address is not the normalised address
    of the request is found afterwards exactly as it was. *)
Theorem auth_one_account_per_email (env : AuthEnv) (email otp companyName
    contactPerson phone designation companySize : string)
    (users : list Account) :
  NoDup (acc_email <$> users) →
  let sent := (sendOtp env email users).2 in
  let verified :=
    (verifyOtp env email otp companyName contactPerson phone designation
       companySize users).2 in
  NoDup (acc_email <$> sent)
  ∧ NoDup (acc_email <$> verified)
  ∧ (∀ i a, users !! i = Some a → acc_email a ≠ trim (toLowerCase email) →
       sent !! i = Some a ∧ verified !! i = Some a).
Proof.
  intros Hnd sent verified.
  assert (NoDup (acc_email <$> sent)
          ∧ ∀ i a, users !! i = Some a → acc_email a ≠ trim (toLowerCase email) →
              sent !! i = Some a) as [Hsent Hsent'].
  { unfold sent, sendOtp.
    destruct (decide (email = "")); [done|].
    destruct (isCorporateEmail _); cbn [negb]; [|done]. cbv zeta.
    assert (∀ r r' : AuthResponse, ∀ l : list Account,
              (if sendOTP env (trim (toLowerCase email)) (generateOTP env)
               then (r, l) else (r', l)).2 = l) as Hsnd
      by (intros; by destruct (sendOTP _ _ _)).
    rewrite Hsnd.
    destruct (list_find _ users) as [[id a]|] eqn:Hfind.
    - apply list_find_Some in Hfind as (Ha & Hmail & _). split.
      + by rewrite (emails_insert_same users id a).
      + intros i b Hb Hother. rewrite list_lookup_insert_ne; [done|].
        intros <-. congruence.
    - apply list_find_None in Hfind. split.
      + rewrite fmap_app. apply NoDup_app. split; [done|]. split.
        * intros e [b [He Hb]]%list_elem_of_fmap Hin.
          apply list_elem_of_singleton in Hin. cbn in Hin.
          apply (proj1 (Forall_forall _ _) Hfind b Hb). congruence.
        * apply NoDup_singleton.
      + intros i b Hb _. by apply lookup_app_l_Some. }
  split; [done|].
  assert (NoDup (acc_email <$> verified)
          ∧ ∀ i a, users !! i = Some a → acc_email a ≠ trim (toLowerCase email) →
              verified !! i = Some a) as [Hver Hver'].
  { unfold verified, verifyOtp.
    destruct (decide (email = "" ∨ otp = "")); [done|]. cbv zeta.
    destruct (list_find (otpMatches _ _ _) users) as [[id a]|] eqn:Hfind.
    - apply list_find_Some in Hfind as (Ha & (Hmail & _) & _).
      destruct (decide (acc_status (withOtp None None a) = "suspended"));
        cbn [snd].
      + split; [by rewrite (emails_insert_same users id a)|].
        intros i b Hb Hother. rewrite list_lookup_insert_ne; [done|].
        intros <-. congruence.
      + split; [by rewrite (emails_insert_same users id a)|].
        intros i b Hb Hother. rewrite list_lookup_insert_ne; [done|].
        intros <-. congruence.
    - clear Hfind.
      destruct (list_find _ users) as [[j existing]|]; [|done].
      destruct (acc_otp existing) as [stored|],
               (acc_otpExpiry existing) as [t|]; try done.
      destruct (decide (stored = "")); [done|].
      by destruct (decide (auth_later env > t)). }
  split; [done|]. intros i a Ha Hother. split; auto.
Qed.

Lemma auth_one_account_per_email_witness :
  NoDup (acc_email <$> AuthScenario.users1)
  ∧ AuthScenario.users1 !! 1%nat = Some AuthScenario.mallory.
Proof.
  destruct (auth_one_account_per_email AuthScenario.authEnv
              " Alice@ACME.example " "" "" "" "" "" "" AuthScenario.users0)
    as (Hnd & _ & Hother).
  - apply (bool_decide_unpack _). vm_compute. exact I.
  - split; [exact Hnd|].
    apply (Hother 1%nat AuthScenario.mallory); [reflexivity|]. vm_compute.
    discriminate.
Defined.

Lemma sendOtp_NoDup env email users :
  NoDup (acc_email <$> users) → NoDup (acc_email <$> (sendOtp env email users).2).
Proof.
  intros Hnd.
  destruct (decide (email = "")) as [->|Hne]; [done|].
  destruct (isCorporateEmail (trim (toLowerCase email))) eqn:Hcorp.
  2: { unfold sendOtp. rewrite decide_False by done. by rewrite Hcorp. }
  destruct (sendOtp_run env email users Hne Hcorp)
    as (id & user & _ & Hmail & _ & _ & _ & Hcases & _).
  destruct Hcases as [(_ & -> & Hfresh & _)|(a & Ha & Hmail' & _ & ->)].
  - rewrite fmap_app. apply NoDup_app. split; [done|]. split.
    + intros e [b [He Hb]]%list_elem_of_fmap Hin.
      apply list_elem_of_singleton in Hin. cbn in Hin.
      apply (proj1 (Forall_forall _ _) Hfresh b Hb). congruence.
    + apply NoDup_singleton.
  - rewrite (emails_insert_same users id a); [done|done|congruence].
Qed.

(** The run of verify-otp on a passcode that matches the stored one in
    time. *)
Lemma verifyOtp_run env email otp companyName contactPerson phone designation
    companySize (users : list Account) (id : nat) a :
  NoDup (acc_email <$> users) →
  email ≠ "" → otp ≠ "" →
  users !! id = Some a →
  otpMatches env (trim (toLowerCase email)) (trim otp) a →
  verifyOtp env email otp companyName contactPerson phone designation
    companySize users =
    if decide (acc_status a = "suspended") then
      (AuthFail 403 AccountSuspended, <[id := withOtp None None a]> users)
    else
      (Verified (jwtSign env id) id
         (withProfile companyName contactPerson phone designation companySize
            (withOtp None None a)),
       <[id := withProfile companyName contactPerson phone designation
                 companySize (withOtp None None a)]> users).
Proof.
  intros Hnd Hemail Hotp Ha Hm. unfold verifyOtp.
  rewrite decide_False by (by intros [?|?]). cbv zeta.
  pose proof Hm as (Hmail & _).
  rewrite <- Hmail in *.
  rewrite (list_find_otpMatches env users id a (trim otp) Hnd Ha Hm).
  done.
Qed.

(** The run of verify-otp when no passcode of the account matches in time. *)
Lemma verifyOtp_refused env email otp companyName contactPerson phone
    designation companySize (users : list Account) (id : nat) a :
  NoDup (acc_email <$> users) →
  email ≠ "" → otp ≠ "" →
  users !! id = Some a →
  acc_email a = trim (toLowerCase email) →
  ¬ otpMatches env (trim (toLowerCase email)) (trim otp) a →
  verifyOtp env email otp companyName contactPerson phone designation
    companySize users =
    (AuthFail 400
       match acc_otp a, acc_otpExpiry a with
       | Some stored, Some expiry =>
           if decide (stored = "") then OtpExpiredOrNotRequested
           else if decide (auth_later env > expiry) then OtpExpired
           else InvalidOtp
       | _, _ => OtpExpiredOrNotRequested
       end, users).
Proof.
  intros Hnd Hemail Hotp Ha Hmail Hno. unfold verifyOtp.
  rewrite decide_False by (by intros [?|?]). cbv zeta.
  assert (list_find (otpMatches env (trim (toLowerCase email)) (trim otp)) users
          = None) as ->.
  { apply list_find_None, Forall_lookup. intros j b Hb Hm.
    assert (j = id) as ->.
    { eapply NoDup_lookup; [exact Hnd| |].
      - rewrite list_lookup_fmap, Hb. simpl. by destruct Hm as [-> _].
      - rewrite list_lookup_fmap, Ha. simpl. by rewrite Hmail. }
    assert (b = a) as -> by congruence. done. }
  rewrite <- Hmail. rewrite (list_find_email users id a Hnd Ha).
  destruct (acc_otp a) as [stored|], (acc_otpExpiry a) as [t|]; try done.
  destruct (decide (stored = "")); [done|].
  by destruct (decide (auth_later env > t)).
Qed.

(** An account whose passcode is cleared is left as it is by every request
    of the authentication routes other than a send-otp for its address. *)
Lemma authHandle_spent env r (users : list Account) (id : nat) a :
  NoDup (acc_email <$> users) →
  users !! id = Some a → acc_otp a = None →
  ¬ sendsTo (acc_email a) r →
  NoDup (acc_email <$> (authHandle env r users).2)
  ∧ (authHandle env r users).2 !! id = Some a.
Proof.
  intros Hnd Ha Hspent Hr.
  destruct r as [email|email otp cn cp ph des cs]; cbn [authHandle sendsTo] in *.
  - split; [by apply sendOtp_NoDup|].
    destruct (decide (email = "")) as [->|Hne]; [done|].
    destruct (isCorporateEmail (trim (toLowerCase email))) eqn:Hcorp.
    2: { unfold sendOtp. rewrite decide_False by done. by rewrite Hcorp. }
    destruct (sendOtp_run env email users Hne Hcorp)
      as (id' & user & _ & _ & _ & _ & _ & Hcases & _).
    destruct Hcases as [(_ & -> & _)|(a0 & Ha0 & Hmail0 & _ & ->)].
    + by apply lookup_app_l_Some.
    + rewrite list_lookup_insert_ne; [done|]. intros ->.
      apply Hr. congruence.
  - destruct (decide (email = "" ∨ otp = "")) as [Hempty|Hfull].
    { unfold verifyOtp. by rewrite decide_True. }
    assert (email ≠ "" ∧ otp ≠ "") as [Hemail Hotp] by tauto.
    destruct (decide (acc_email a = trim (toLowerCase email))) as [Hsame|Hother].
    + rewrite (verifyOtp_refused env email otp cn cp ph des cs users id a);
        try done.
      intros (_ & Hm & _). congruence.
    + unfold verifyOtp. rewrite decide_False by done. cbv zeta.
      destruct (list_find (otpMatches _ _ _) users) as [[i m]|] eqn:Hfind.
      * apply list_find_Some in Hfind as (Hi & (Hmail & _) & _).
        assert (i ≠ id) as Hne by (intros ->; congruence).
        destruct (decide (acc_status (withOtp None None m) = "suspended"));
          cbn [snd];
          (split; [rewrite (emails_insert_same users i m); done|]);
          by rewrite list_lookup_insert_ne.
      * clear Hfind.
        destruct (list_find _ users) as [[j existing]|]; [|by split].
        destruct (acc_otp existing) as [stored|],
          (acc_otpExpiry existing) as [t|]; try (by split).
        destruct (decide (stored = "")); [by split|].
        by destruct (decide (auth_later env > t)); split.
Qed.

Lemma authServe_spent rs (users : list Account) (id : nat) a :
  NoDup (acc_email <$> users) →
  users !! id = Some a → acc_otp a = None →
  Forall (λ r, ¬ sendsTo (acc_email a) r.2) rs →
  NoDup (acc_email <$> authServe rs users) ∧ authServe rs users !! id = Some a.
Proof.
  intros Hnd Ha Hspent Hrs. revert users Hnd Ha.
  induction Hrs as [|[env r] rs Hr _ IH]; intros users Hnd Ha; [done|].
  cbn [authServe].
  destruct (authHandle_spent env r users id a Hnd Ha Hspent Hr) as [Hnd' Ha'].
  by apply IH.
Qed.

(** The answer of verify-otp for an account whose passcode is cleared. *)
Lemma verifyOtp_spent env email otp companyName contactPerson phone
    designation companySize (users : list Account) (id : nat) a :
  NoDup (acc_email <$> users) →
  email ≠ "" → otp ≠ "" →
  users !! id = Some a → acc_email a = trim (toLowerCase email) →
  acc_otp a = None →
  verifyOtp env email otp companyName contactPerson phone designation
    companySize users = (AuthFail 400 OtpExpiredOrNotRequested, users).
Proof.
  intros Hnd Hemail Hotp Ha Hmail Hspent.
  rewrite (verifyOtp_refused env email otp _ _ _ _ _ users id a); try done.
  - by rewrite Hspent.
  - intros (_ & Hm & _). congruence.
Qed.

(** X23. A passcode works once: after verify-otp has answered with a token,
    and after any sequence of further requests to the authentication
    routes among which there is no send-otp for that address, verify-otp
    for that address, with the same or any other passcode and at any time,
    is refused as expired or not requested and writes nothing. Only a
    send-otp for the address makes verification possible again. *)
Theorem verifyOtp_single_use (env env' : AuthEnv)
    (email otp companyName contactPerson phone designation companySize
     otp' companyName' contactPerson' phone' designation' companySize' : string)
    (users users' : list Account) (token : string) (id : nat) (user : Account)
    (rs : list (AuthEnv * AuthRequest)) :
  NoDup (acc_email <$> users) →
  verifyOtp env email otp companyName contactPerson phone designation
    companySize users = (Verified token id user, users') →
  Forall (λ r, ¬ sendsTo (trim (toLowerCase email)) r.2) rs →
  otp' ≠ "" →
  let users2 := authServe rs users' in
  users2 !! id = Some user
  ∧ verifyOtp env' email otp' companyName' contactPerson' phone' designation'
      companySize' users2 = (AuthFail 400 OtpExpiredOrNotRequested, users2).
Proof.
  intros Hnd Hrun Hrs Hotp' users2.
  assert (email ≠ "") as Hemail.
  { intros ->. unfold verifyOtp in Hrun.
    rewrite decide_True in Hrun by (by left). done. }
  apply verifyOtp_verified_inv in Hrun
    as (a & t & Ha & (Hmail & _) & _ & _ & _ & _ & Huser & ->).
  pose proof (lookup_lt_Some _ _ _ Ha) as Hlt.
  assert (acc_email user = trim (toLowerCase email)) as Hmail'
    by (by rewrite Huser).
  assert (acc_otp user = None) as Hspent by (by rewrite Huser).
  destruct (authServe_spent rs (<[id := user]> users) id user) as [Hnd2 Hu2].
  - rewrite (emails_insert_same users id a); [done|done|congruence].
  - by apply list_lookup_insert_eq.
  - done.
  - by rewrite Hmail'.
  - split; [done|]. by apply (verifyOtp_spent env' email otp' _ _ _ _ _ _ id user).
Qed.

Lemma verifyOtp_single_use_witness :
  let users3 :=
    authServe [ (AuthScenario.authEnvLater,
                 VerifyOtp "alice@acme.example" "000000" "" "" "" "" "");
                (AuthScenario.authEnvLater, SendOtp "bob@initech.example");
                (AuthScenario.authEnvLater,
                 VerifyOtp "bob@initech.example" "771204" "Initech" "Bob" ""
                   "" "") ]
      AuthScenario.users2 in
  users3 !! 0%nat = Some (withOtp None None AuthScenario.alice)
  ∧ verifyOtp AuthScenario.authEnvAtExpiry "alice@acme.example" "482913"
      "" "" "" "" "" users3
    = (AuthFail 400 OtpExpiredOrNotRequested, users3).
Proof.
  eapply (verifyOtp_single_use AuthScenario.authEnvLater
            AuthScenario.authEnvAtExpiry "alice@acme.example" "482913"
            "" "" "" "" "" "482913" "" "" "" "" "" AuthScenario.users1
            AuthScenario.users2 "token-0" 0
            (withOtp None None AuthScenario.alice)).
  - apply (bool_decide_unpack _). vm_compute. exact I.
  - vm_compute. reflexivity.
  - repeat constructor; cbn; try tauto. vm_compute. discriminate.
  - discriminate.
Defined.

(** X24. Send then verify: the passcode stored by send-otp, entered before
    its expiry, is accepted by verify-otp for the same address, whether or
    not the mail could be sent; a token is issued unless the account is
    suspended. *)
Theorem sendOtp_then_verifyOtp (env env' : AuthEnv)
    (email companyName contactPerson phone designation companySize : string)
    (users : list Account) :
  NoDup (acc_email <$> users) →
  email ≠ "" →
  isCorporateEmail (trim (toLowerCase email)) = true →
  generateOTP env ≠ "" →
  trim (generateOTP env) = generateOTP env →
  auth_now env' < auth_now env + otpExpiryMinutes env * 60 * 1000 →
  let users1 := (sendOtp env email users).2 in
  ∃ id account,
    users1 !! id = Some account
    ∧ acc_email account = trim (toLowerCase email)
    ∧ verifyOtp env' email (generateOTP env) companyName contactPerson phone
        designation companySize users1
      = if decide (acc_status account = "suspended") then
          (AuthFail 403 AccountSuspended,
           <[id := withOtp None None account]> users1)
        else
          (Verified (jwtSign env' id) id
             (withProfile companyName contactPerson phone designation
                companySize (withOtp None None account)),
           <[id := withProfile companyName contactPerson phone designation
                     companySize (withOtp None None account)]> users1).
Proof.
  intros Hnd Hemail Hcorp Hotp Htrim Hintime users1.
  destruct (sendOtp_run env email users Hemail Hcorp)
    as (id & user & Huser & Hmail & Hstored & Hexpiry & _).
  exists id, user. split; [done|]. split; [done|].
  apply verifyOtp_run; try done.
  - by apply sendOtp_NoDup.
  - split; [done|]. split; [by rewrite Htrim|].
    eexists. split; [done|]. lia.
Qed.

Lemma sendOtp_then_verifyOtp_witness :
  ∃ id account,
    AuthScenario.users1 !! id = Some account
    ∧ acc_email account = "alice@acme.example"
    ∧ (verifyOtp AuthScenario.authEnvLater " Alice@ACME.example " "482913"
         "" "" "" "" "" AuthScenario.users1).1
      = Verified "token-0" 0 (withOtp None None AuthScenario.alice).
Proof.
  destruct (sendOtp_then_verifyOtp AuthScenario.authEnv
              AuthScenario.authEnvLater " Alice@ACME.example " "" "" "" "" ""
              AuthScenario.users0)
    as (id & account & Hacc & Hmail & Hrun).
  - apply (bool_decide_unpack _). vm_compute. exact I.
  - discriminate.
  - vm_compute. reflexivity.
  - discriminate.
  - vm_compute. reflexivity.
  - vm_compute. reflexivity.
  - exists id, account. split; [exact Hacc|]. split; [exact Hmail|].
    vm_compute. reflexivity.
Defined.

(** X25. A suspended account never gets a token, yet its passcode is spent:
    entering the right passcode in time answers 403 and clears the stored
    passcode and expiry; from then on, after any sequence of further
    requests to the authentication routes among which there is no send-otp
    for that address, the account is stored as that request left it and
    verify-otp for the address is refused as expired or not requested. *)
Theorem verifyOtp_suspended (env env' : AuthEnv)
    (email otp companyName contactPerson phone designation companySize
     otp' companyName' contactPerson' phone' designation' companySize' : string)
    (users : list Account) (id : nat) (a : Account)
    (rs : list (AuthEnv * AuthRequest)) :
  NoDup (acc_email <$> users) →
  email ≠ "" → otp ≠ "" → otp' ≠ "" →
  users !! id = Some a →
  otpMatches env (trim (toLowerCase email)) (trim otp) a →
  acc_status a = "suspended" →
  Forall (λ r, ¬ sendsTo (trim (toLowerCase email)) r.2) rs →
  let users' := <[id := withOtp None None a]> users in
  let users2 := authServe rs users' in
  verifyOtp env email otp companyName contactPerson phone designation
    companySize users = (AuthFail 403 AccountSuspended, users')
  ∧ users2 !! id = Some (withOtp None None a)
  ∧ verifyOtp env' email otp' companyName' contactPerson' phone' designation'
      companySize' users2 = (AuthFail 400 OtpExpiredOrNotRequested, users2).
Proof.
  intros Hnd Hemail Hotp Hotp' Ha Hm Hstatus Hrs users' users2.
  pose proof Hm as (Hmail & _). split.
  - rewrite (verifyOtp_run env email otp _ _ _ _ _ users id a); try done.
    by rewrite decide_True.
  - destruct (authServe_spent rs users' id (withOtp None None a))
      as [Hnd2 Hu2].
    + unfold users'. by rewrite (emails_insert_same users id a).
    + apply list_lookup_insert_eq. by eapply lookup_lt_Some.
    + done.
    + cbn [acc_email withOtp]. by rewrite Hmail.
    + split; [done|].
      by apply (verifyOtp_spent env' email otp' _ _ _ _ _ _ id
                  (withOtp None None a)).
Qed.

Lemma verifyOtp_suspended_witness :
  let users' := <[1%nat := withOtp None None AuthScenario.mallory]>
                  AuthScenario.users0 in
  let users2 :=
    authServe [ (AuthScenario.authEnv, SendOtp " Alice@ACME.example ");
                (AuthScenario.authEnvLater,
                 VerifyOtp "alice@acme.example" "482913" "" "" "" "" "") ]
      users' in
  verifyOtp AuthScenario.authEnv "mallory@shady.example" "654321"
    "" "" "" "" "" AuthScenario.users0 = (AuthFail 403 AccountSuspended, users')
  ∧ users2 !! 1%nat = Some (withOtp None None AuthScenario.mallory)
  ∧ verifyOtp AuthScenario.authEnvLater "mallory@shady.example" "654321"
      "" "" "" "" "" users2 = (AuthFail 400 OtpExpiredOrNotRequested, users2).
Proof.
  apply (verifyOtp_suspended AuthScenario.authEnv AuthScenario.authEnvLater
           "mallory@shady.example" "654321" "" "" "" "" ""
           "654321" "" "" "" "" "" AuthScenario.users0 1 AuthScenario.mallory).
  - apply (bool_decide_unpack _). vm_compute. exact I.
  - discriminate.
  - discriminate.
  - discriminate.
  - reflexivity.
  - split; [reflexivity|]. split; [reflexivity|].
    exists 1700000600000. split; [reflexivity|]. reflexivity.
  - reflexivity.
  - repeat constructor; cbn; try tauto. vm_compute. discriminate.
Defined.

(** X26. A passcode is good strictly before its expiry: when the clock
    reading of the verification is at or after the stored expiry,
    verify-otp refuses every passcode for that address, the right one
    included, and writes nothing. The answer is OTP expired, unless the
    second clock reading of the handler still equals the expiry, in which
    case it is Invalid OTP. The second reading is not earlier than the
    first. *)
Theorem verifyOtp_expired (env : AuthEnv)
    (email otp companyName contactPerson phone designation companySize
     stored : string) (expiry : Z)
    (users : list Account) (id : nat) (a : Account) :
  NoDup (acc_email <$> users) →
  email ≠ "" → otp ≠ "" →
  users !! id = Some a →
  acc_email a = trim (toLowerCase email) →
  acc_otp a = Some stored → stored ≠ "" →
  acc_otpExpiry a = Some expiry →
  expiry ≤ auth_now env →
  auth_now env ≤ auth_later env →
  verifyOtp env email otp companyName contactPerson phone designation
    companySize users
  = (AuthFail 400 (if decide (auth_later env = expiry) then InvalidOtp
                   else OtpExpired), users).
Proof.
  intros Hnd Hemail Hotp Ha Hmail Hstored Hne Hexpiry Hle Hclock.
  rewrite (verifyOtp_refused env email otp _ _ _ _ _ users id a); try done.
  - rewrite Hstored, Hexpiry. rewrite decide_False by done.
    destruct (decide (auth_later env > expiry)),
      (decide (auth_later env = expiry)); try done; lia.
  - intros (_ & _ & t & Ht & Hlater). rewrite Hexpiry in Ht.
    injection Ht as <-. lia.
Qed.

Lemma verifyOtp_expired_witness :
  verifyOtp AuthScenario.authEnvAtExpiry "alice@acme.example" "482913"
    "" "" "" "" "" AuthScenario.users1
  = (AuthFail 400 OtpExpired, AuthScenario.users1).
Proof.
  apply (verifyOtp_expired AuthScenario.authEnvAtExpiry "alice@acme.example"
           "482913" "" "" "" "" "" "482913" 1700000600000
           AuthScenario.users1 0
           (withOtp (Some "482913") (Some 1700000600000) AuthScenario.alice)).
  - apply (bool_decide_unpack _). vm_compute. exact I.
  - discriminate.
  - discriminate.
  - vm_compute. reflexivity.
  - vm_compute. reflexivity.
  - reflexivity.
  - discriminate.
  - reflexivity.
  - vm_compute. discriminate.
  - vm_compute. discriminate.
Defined.

(** *** The catalog page and the order assembly *)

Lemma findCatalogEntry_productId id db e :
  findCatalogEntry id db = Some e → ce_productId e = id.
Proof.
  unfold findCatalogEntry. intros [_ Hb]%find_some.
  apply andb_prop in Hb as [Hb _]. by apply bool_decide_eq_true in Hb.
Qed.

Lemma accepts_catalogDetail db item gi :
  accepts db item gi →
  catalogDetail (ci_productId item) db
  = Some {| cp_product := gi_product gi;
            cp_corporatePrice := ce_corporatePrice (gi_catalogEntry gi);
            cp_minOrderQty := ce_minOrderQty (gi_catalogEntry gi);
            cp_maxOrderQty := ce_maxOrderQty (gi_catalogEntry gi) |}.
Proof.
  intros (He & _ & Hp & _). unfold catalogDetail. rewrite He.
  by rewrite (findCatalogEntry_productId _ _ _ He), Hp.
Qed.

(** X27. What is ordered is what the catalog page shows: every line of every
    order that the order assembly creates is for a product that has a
    catalog page, before and after the request; the product is active, the
    quantity of the line lies within the quantity bounds on the page, the
    order is for the seller of that product, and the price of the line is
    the corporate price on the page when that is a non-zero number and the
    price of the product otherwise. *)
Theorem ordered_lines_match_catalog (env : Env) (corpUser : CorporateUser)
    (items : list CartItem) (shippingAddress : option Address) (db db' : Db)
    (created : list Order) (info : CashfreeOrderInfo) :
  run (createOrder env corpUser items shippingAddress) db
  = (OrderCreated created info, db') →
  ∀ o line, o ∈ created → line ∈ o_items o →
    ∃ page,
      catalogDetail (oi_productId line) db = Some page
      ∧ catalogDetail (oi_productId line) db' = Some page
      ∧ p_isActive (cp_product page) = true
      ∧ cp_minOrderQty page ≤ oi_quantity line ≤ cp_maxOrderQty page
      ∧ o_sellerId o = Some (p_sellerId (cp_product page))
      ∧ oi_title line = p_title (cp_product page)
      ∧ oi_price line
        = orNumber (cp_corporatePrice page) (p_price (cp_product page)).
Proof.
  intros Hrun o line Ho Hline.
  apply createOrder_created_inv in Hrun
    as (address & gis & first & rest & session & Haddr & Hacc & Hplan
        & Hsession & -> & -> & ->).
  apply list_elem_of_fmap in Ho as (o0 & -> & Ho0).
  apply plannedOrders_elem in Ho0 as (sid & xs & number & Hgroup & ->).
  cbn [o_items withSession newOrder] in Hline.
  apply list_elem_of_fmap in Hline as (gi & -> & Hgi).
  destruct (partitionsBySeller_foldl gis [] [] partitionsBySeller_nil)
    as (_ & _ & Hsub & _).
  destruct (Hsub sid xs gi Hgroup Hgi) as [Hin <-].
  apply list_elem_of_lookup in Hin as [i Hi].
  destruct (Forall2_lookup_r _ _ _ _ _ Hacc Hi) as (item & _ & Hitem).
  pose proof (accepts_catalogDetail _ _ _ Hitem) as Hpage.
  destruct Hitem as (He & Hrange & Hp & Hact & Hid & Hq & Hprice).
  eexists. cbn [oi_productId orderItemOf]. rewrite Hid.
  split; [exact Hpage|]. split; [exact Hpage|].
  cbn. rewrite Hq. done.
Qed.

Lemma ordered_lines_match_catalog_witness :
  ∃ page,
    catalogDetail "Q" Scenario.db0 = Some page
    ∧ catalogDetail "Q" Scenario.db1 = Some page
    ∧ p_isActive (cp_product page) = true
    ∧ cp_minOrderQty page ≤ 3 ≤ cp_maxOrderQty page
    ∧ Some "S2" = Some (p_sellerId (cp_product page))
    ∧ "Mug" = p_title (cp_product page)
    ∧ 50 = orNumber (cp_corporatePrice page) (p_price (cp_product page)).
Proof.
  apply (ordered_lines_match_catalog Scenario.env0 Scenario.buyer Scenario.cart
           (Some Scenario.warehouse) Scenario.db0 Scenario.db1
           (orders Scenario.db1)
           {| info_orderId := "GFT-B2B-20231114-0042";
              info_paymentSessionId := "session_1";
              info_orderAmount := 650 |}
           scenario_createOrder_run
           (withSession "GFT-B2B-20231114-0042" "session_1"
              (newOrder "GFT-B2B-20231114-0777" Scenario.buyer
                 Scenario.warehouse "S2"
                 [ {| gi_productId := "Q"; gi_product := Scenario.productQ;
                      gi_quantity := 3; gi_unitPrice := 50;
                      gi_catalogEntry := Scenario.entryQ |} ]))
           Scenario.itemQ).
  - vm_compute. apply elem_of_cons; right; apply elem_of_cons; by left.
  - vm_compute. apply elem_of_cons; by left.
Defined.

(** X28. A product with a catalog page, ordered alone at a quantity within
    the bounds on the page, is refused exactly when the product is
    inactive, and nothing is written then; its stock is not consulted. When
    the product is active one order is saved, with one line for the product
    at the price of the page (the corporate price when that is a non-zero
    number, the price of the product otherwise) and price times quantity as
    its total, and the gateway is asked for a session for that amount under
    the order number of the first draw: when the gateway gives the session
    the answer is the created order carrying it, and when the gateway
    refuses the answer is 500 and the order stays saved without it. *)
Theorem catalog_product_orderable (env : Env) (corpUser : CorporateUser)
    (id : string) (quantity : Z) (address : Address) (db : Db)
    (page : CatalogProduct) :
  catalogDetail id db = Some page →
  cp_minOrderQty page ≤ quantity ≤ cp_maxOrderQty page →
  let answer :=
    run (createOrder env corpUser
           [ {| ci_productId := id; ci_quantity := quantity |} ]
           (Some address)) db in
  let unitPrice :=
    orNumber (cp_corporatePrice page) (p_price (cp_product page)) in
  let number := generateOrderNumber (today env) (random4 env 0) in
  if p_isActive (cp_product page) then
    ∃ order,
      o_orderNumber order = number
      ∧ o_sellerId order = Some (p_sellerId (cp_product page))
      ∧ o_items order
        = [ {| oi_productId := id; oi_title := p_title (cp_product page);
               oi_price := unitPrice; oi_image := p_image (cp_product page);
               oi_sku := p_sku (cp_product page); oi_quantity := quantity;
               oi_sellerId := Some (p_sellerId (cp_product page)) |} ]
      ∧ o_totalAmount order = unitPrice * quantity
      ∧ o_cashfreeOrderId order = None ∧ o_paymentSessionId order = None
      ∧ match createCashfreeOrder env
                (sessionRequest env corpUser
                   (orString (cu_phone corpUser) (addr_phone address))
                   number (unitPrice * quantity)) with
        | Some session =>
            answer
            = (OrderCreated [withSession number session order]
                 {| info_orderId := number;
                    info_paymentSessionId := session;
                    info_orderAmount := unitPrice * quantity |},
               setOrders (orders db ++ [withSession number session order]) db)
        | None =>
            answer
            = (Fail 500 FailedToCreateOrder,
               setOrders (orders db ++ [order]) db)
        end
  else answer = (Fail 400 (ProductUnavailable id), db).
Proof.
  unfold catalogDetail. intros Hpage [Hmin Hmax].
  destruct (findCatalogEntry id db) as [e|] eqn:He; [|done].
  rewrite (findCatalogEntry_productId _ _ _ He) in Hpage.
  destruct (products db !! id) as [p|] eqn:Hp; [|done].
  injection Hpage as <-. cbn [cp_product cp_corporatePrice cp_minOrderQty
                               cp_maxOrderQty] in *.
  cbv zeta.
  destruct (p_isActive p) eqn:Hact.
  - set (item := {| ci_productId := id; ci_quantity := quantity |}).
    set (gi := {| gi_productId := id; gi_product := p; gi_quantity := quantity;
                  gi_unitPrice := orNumber (ce_corporatePrice e) (p_price p);
                  gi_catalogEntry := e |}).
    assert (accepts db item gi) as Hacc by (by repeat split).
    assert (foldM validateItem [] [item] db
            = (inr [(p_sellerId p, [gi])], db)) as Hvalid.
    { rewrite foldM_cons. by rewrite (validateItem_accepts [] item gi db Hacc). }
    unfold run. rewrite (createOrder_run _ _ _ _ _ _ _ Hvalid).
    cbn [plannedOrders]. cbv zeta.
    set (order := newOrder _ corpUser address (p_sellerId p) [gi]).
    assert (grandTotalOf [order]
            = orNumber (ce_corporatePrice e) (p_price p) * quantity) as ->.
    { cbn. unfold groupTotal. cbn. lia. }
    exists order. split; [done|]. split; [done|]. split; [done|].
    split; [cbn; unfold groupTotal; cbn; lia|]. split; [done|]. split; [done|].
    cbn [o_orderNumber order newOrder].
    by destruct (createCashfreeOrder env _) as [session|].
  - unfold run, createOrder. unfold bind at 1. rewrite foldM_cons.
    unfold validateItem, bind, gets. cbn [ci_productId ci_quantity]. rewrite He.
    rewrite bool_decide_eq_false_2 by lia.
    rewrite bool_decide_eq_false_2 by lia.
    by rewrite Hp, Hact.
Qed.

Lemma catalog_product_orderable_witness :
  run (createOrder Scenario.env0 Scenario.buyer
         [ {| ci_productId := "Q"; ci_quantity := 2 |} ]
         (Some Scenario.warehouse)) Scenario.dbWithdrawn
  = (Fail 400 (ProductUnavailable "Q"), Scenario.dbWithdrawn)
  ∧ ∃ order,
      o_totalAmount order = 100
      ∧ run (createOrder Scenario.env0 Scenario.buyer
               [ {| ci_productId := "Q"; ci_quantity := 2 |} ]
               (Some Scenario.warehouse)) Scenario.db0
        = (OrderCreated
             [withSession "GFT-B2B-20231114-0042" "session_1" order]
             {| info_orderId := "GFT-B2B-20231114-0042";
                info_paymentSessionId := "session_1";
                info_orderAmount := 100 |},
           setOrders
             (orders Scenario.db0
              ++ [withSession "GFT-B2B-20231114-0042" "session_1" order])
             Scenario.db0).
Proof.
  split.
  - apply (catalog_product_orderable Scenario.env0 Scenario.buyer "Q" 2
             Scenario.warehouse Scenario.dbWithdrawn
             {| cp_product :=
                  {| p_title := "Mug"; p_image := ""; p_sku := "Q-1";
                     p_sellerId := "S2"; p_isActive := false; p_price := 50;
                     p_stock := 2; p_orderCount := 0 |};
                cp_corporatePrice := None; cp_minOrderQty := 1;
                cp_maxOrderQty := 100 |}).
    + vm_compute. reflexivity.
    + cbn. lia.
  - destruct (catalog_product_orderable Scenario.env0 Scenario.buyer "Q" 2
                Scenario.warehouse Scenario.db0
                {| cp_product := Scenario.productQ;
                   cp_corporatePrice := None; cp_minOrderQty := 1;
                   cp_maxOrderQty := 100 |})
      as (order & _ & _ & _ & Htotal & _ & _ & Hrun).
    + vm_compute. reflexivity.
    + cbn. lia.
    + exists order. split; [exact Htotal|exact Hrun].
Defined.
